(** * Empirical [Ptr.h]: the pointer tracker, shallowly embedded

    The development follows the header top-down: [PtrInfo] (one record per
    tracked allocation), [PtrTracker] (the registry: an address map and the
    vector of records) and the instrumented [Ptr<TYPE>] handle (the
    [EMP_TRACK_MEM] branch).

    Conventions of the embedding.
    - Addresses ([const void *]) and [size_t] values are [N], for a 64-bit
      [size_t]: [nullptr] is [0] and [(size_t) -1] is [2^64 - 1], and
      [size_t] products wrap modulo [2^64] where the source multiplies.
    - [int count] is a [Z] kept within the 32-bit range: [count++] and
      [count--] give the two's-complement result ([int_wrap]).  Signed
      overflow is undefined in C++; the wrap-around is what the compiled
      code computes.  Where a statement gives the value of a count after
      [count++] or [count--], it carries the bound under which that step
      does not overflow.
    - [emp_assert] is taken as enabled: a failing assertion stops the
      program.  A run is a function from the tracker to either [Ok] (a value
      and the next tracker) or [Abort] (the reason and the tracker as it was
      when the program stopped).
    - [emp::vector::operator[]] past the end is reported as [OutOfRange]
      (the debug vector asserts on it, the release vector has no defined
      behaviour there).
    - Output to [std::cout] under [ptr_debug], the [EMP_ABORT_PTR_NEW] and
      [EMP_ABORT_PTR_DELETE] hooks (both undefined by default) and the
      per-type [PtrDebug] counters do not influence the tracker and are left
      out.  Memory itself ([malloc], [delete]) is not modelled: the address a
      fresh allocation returns is an argument of the operation.
    - A handle is its address and its id, whatever the pointee type.  Where
      the source converts a pointer to another pointer type (the casts, the
      converting constructor and the converting assignment), the address
      the conversion yields is given by a function on addresses, an
      argument of the operation: the identity between unrelated or
      single-inheritance types, a shift for a base class at a non-zero
      offset. *)

From Stdlib Require Import ZArith NArith Lia.
From stdpp Require Import gmap list strings.

Local Open Scope N_scope.

(** ** Failure and the run monad *)

Inductive Error : Type :=
| AssertFail (msg : string)
| OutOfRange (id : N).

(** The outcome of an operation on a value (no tracker involved). *)
Inductive outcome (A : Type) : Type :=
| Done (a : A)
| Failed (e : Error).
Arguments Done {A} a.
Arguments Failed {A} e.

(** [(size_t) -1], the id of a [Ptr] that is not tracked. *)
Definition UNTRACKED : N := 18446744073709551615.

(** [size_t] multiplication. *)
Definition size_t_mul (a b : N) : N := (a * b) mod 2 ^ 64.

(** The range of [int], and the 32-bit two's-complement value of an integer. *)
Definition INT_MAX : Z := 2147483647.
Definition INT_MIN : Z := (-2147483648)%Z.

Definition int_wrap (z : Z) : Z :=
  ((z + 2147483648) mod 4294967296 - 2147483648)%Z.
Arguments int_wrap : simpl never.

(** ** [PtrInfo] *)

Inductive PtrStatus : Type := DELETED | ACTIVE | ARRAY.

Definition PtrStatus_eqb (a b : PtrStatus) : bool :=
  match a, b with
  | DELETED, DELETED | ACTIVE, ACTIVE | ARRAY, ARRAY => true
  | _, _ => false
  end.

Module PtrInfo.

Record t : Type := Build {
  ptr : N;             (* which pointer are we keeping data on? *)
  count : Z;           (* how many of this pointer do we have? *)
  status : PtrStatus;  (* has this pointer been deleted? *)
  array_bytes : N      (* how big is the array pointed to (in bytes)? *)
}.

(** [PtrInfo(const void * _ptr)] *)
Definition New (_ptr : N) : t :=
  {| ptr := _ptr; count := 1; status := ACTIVE; array_bytes := 0 |}.

Definition GetPtr (r : t) : N := ptr r.
Definition GetCount (r : t) : Z := count r.
Definition GetArrayBytes (r : t) : N := array_bytes r.

(** [(bool) status]: [DELETED] is the enumerator [0]. *)
Definition IsActive (r : t) : bool := negb (PtrStatus_eqb (status r) DELETED).

Definition IsArray (r : t) : bool := PtrStatus_eqb (status r) ARRAY.

Definition SetArray (bytes : N) (r : t) : t :=
  {| ptr := ptr r; count := count r; status := ARRAY; array_bytes := bytes |}.

Definition Inc (r : t) : outcome t :=
  if negb (PtrStatus_eqb (status r) DELETED)
  then Done {| ptr := ptr r; count := int_wrap (count r + 1);
               status := status r; array_bytes := array_bytes r |}
  else Failed (AssertFail "Incrementing deleted pointer!").

Definition Dec (r : t) : outcome t :=
  if (1 <? count r)%Z || PtrStatus_eqb (status r) DELETED
  then Done {| ptr := ptr r; count := int_wrap (count r - 1);
               status := status r; array_bytes := array_bytes r |}
  else Failed (AssertFail "Removing last reference to owned Ptr!").

Definition MarkDeleted (r : t) : outcome t :=
  if negb (PtrStatus_eqb (status r) DELETED)
  then Done {| ptr := ptr r; count := count r;
               status := DELETED; array_bytes := array_bytes r |}
  else Failed (AssertFail "Deleting same emp::Ptr a second time!").

End PtrInfo.

(** ** [PtrTracker]: the state and the run monad *)

Record PtrTracker : Type := mkPtrTracker {
  ptr_id : gmap N N;          (* associate raw pointers with unique IDs *)
  id_info : list PtrInfo.t    (* associate IDs with pointer information *)
}.

Inductive Res (A : Type) : Type :=
| Ok (a : A) (tr : PtrTracker)
| Abort (e : Error) (tr : PtrTracker).
Arguments Ok {A} a tr.
Arguments Abort {A} e tr.

Definition M (A : Type) : Type := PtrTracker -> Res A.

Definition ret {A} (a : A) : M A := fun tr => Ok a tr.

Definition bind {A B} (m : M A) (k : A -> M B) : M B :=
  fun tr => match m tr with
            | Ok a tr' => k a tr'
            | Abort e tr' => Abort e tr'
            end.

Notation "'let*' x ':=' m 'in' k" := (bind m (fun x => k))
  (at level 10, x name, m at level 100, k at level 200).
Notation "m '>>' k" := (bind m (fun _ => k))
  (at level 90, right associativity).

Definition emp_assert (b : bool) (msg : string) : M unit :=
  fun tr => if b then Ok tt tr else Abort (AssertFail msg) tr.

(** The tracker a run leaves behind, finished or not. *)
Definition final {A} (r : Res A) : PtrTracker :=
  match r with Ok _ tr => tr | Abort _ tr => tr end.

(** [id_info[id]] as a read.  The guard keeps the position a small number
    whenever the list is consulted. *)
Definition vec_at (v : list PtrInfo.t) (id : N) : option PtrInfo.t :=
  if id <? N.of_nat (length v) then v !! N.to_nat id else None.

Definition vec_set (v : list PtrInfo.t) (id : N) (r : PtrInfo.t) : list PtrInfo.t :=
  if id <? N.of_nat (length v) then <[N.to_nat id := r]> v else v.

Definition info_at (id : N) : M PtrInfo.t :=
  fun tr => match vec_at (id_info tr) id with
            | Some r => Ok r tr
            | None => Abort (OutOfRange id) tr
            end.

(** [id_info[id].f()] for a member function [f] that changes the record. *)
Definition info_call (id : N) (f : PtrInfo.t -> outcome PtrInfo.t) : M unit :=
  fun tr => match vec_at (id_info tr) id with
            | None => Abort (OutOfRange id) tr
            | Some r =>
              match f r with
              | Failed e => Abort e tr
              | Done r' => Ok tt {| ptr_id := ptr_id tr;
                                    id_info := vec_set (id_info tr) id r' |}
              end
            end.

Module Tracker.

(** [PtrTracker()] *)
Definition empty : PtrTracker := {| ptr_id := ∅; id_info := [] |}.

Definition HasPtr (p : N) : M bool :=
  fun tr => Ok (bool_decide (is_Some (ptr_id tr !! p))) tr.

(** [ptr_id[ptr]] behind the assertion that the key is there. *)
Definition GetCurID (p : N) : M N :=
  let* has := HasPtr p in
  emp_assert has "HasPtr(ptr)" >>
  fun tr => Ok (default 0 (ptr_id tr !! p)) tr.

Definition GetNumIDs : M N :=
  fun tr => Ok (N.of_nat (length (id_info tr))) tr.

Definition GetArrayBytes (id : N) : M N :=
  let* r := info_at id in ret (PtrInfo.GetArrayBytes r).

Definition IsDeleted (id : N) : M bool :=
  if id =? UNTRACKED then ret false   (* not tracked! *)
  else let* r := info_at id in ret (negb (PtrInfo.IsActive r)).

(** [id_info[ptr_id[ptr]]], called only for a key that is present. *)
Definition GetInfo (p : N) : M PtrInfo.t :=
  fun tr => info_at (default 0 (ptr_id tr !! p)) tr.

Definition IsActive (p : N) : M bool :=
  fun tr => match ptr_id tr !! p with
            | None => Ok false tr   (* not in database *)
            | Some _ => (let* r := GetInfo p in ret (PtrInfo.IsActive r)) tr
            end.

Definition IsArrayID (id : N) : M bool :=
  let* r := info_at id in ret (PtrInfo.IsArray r).

Definition GetIDCount (id : N) : M Z :=
  let* r := info_at id in ret (PtrInfo.GetCount r).

(** [id_info.emplace_back(ptr); ptr_id[ptr] = id;] *)
Definition store_new (p id : N) : M unit :=
  fun tr => Ok tt {| ptr_id := <[p := id]> (ptr_id tr);
                     id_info := id_info tr ++ [PtrInfo.New p] |}.

Definition New (p : N) : M N :=
  emp_assert (negb (p =? 0)) "ptr" >>   (* cannot track a null pointer *)
  let* id := GetNumIDs in
  (* not already stored, or deleted (since re-use is possible) *)
  let* has := HasPtr p in
  let* fresh :=
    (if negb has then ret true
     else let* cur := GetCurID p in IsDeleted cur) in
  emp_assert fresh "!HasPtr(ptr) || IsDeleted(GetCurID(ptr))" >>
  store_new p id >>
  ret id.

Definition NewArray (p : N) (array_bytes : N) : M N :=
  let* id := New p in
  info_call id (fun r => Done (PtrInfo.SetArray array_bytes r)) >>
  ret id.

Definition IncID (id : N) : M unit :=
  if id =? UNTRACKED then ret tt   (* not tracked! *)
  else info_call id PtrInfo.Inc.

Definition DecID (id : N) : M unit :=
  if id =? UNTRACKED then ret tt   (* not tracked! *)
  else
    let* info := info_at id in
    emp_assert (0 <? PtrInfo.GetCount info)%Z "Decrementing Ptr, but already zero!" >>
    info_call id PtrInfo.Dec.

Definition MarkDeleted (id : N) : M unit :=
  info_call id PtrInfo.MarkDeleted.

(** [~PtrTracker()]: the scan over [id_info], then the two numbers that the
    summary line prints. *)
Fixpoint scan (v : list PtrInfo.t) (total remain : N) : outcome (N * N) :=
  match v with
  | [] => Done (total, remain)
  | info :: rest =>
    let total := total + 1 in
    let remain := if (PtrInfo.GetCount info =? 0)%Z then remain else remain + 1 in
    if negb (PtrInfo.IsActive info) then scan rest total remain
    else Failed (AssertFail "info.IsActive() == false")
  end.

Definition Destroy : M (N * N) :=
  fun tr => match scan (id_info tr) 0 0 with
            | Done report => Ok report tr
            | Failed e => Abort e tr
            end.

End Tracker.

(** ** The instrumented [Ptr<TYPE>]

    A handle is the pair of its two data members.  A member function takes
    the handle ([self]) and returns the handle as the call leaves it; a
    function that also writes to its argument returns both.  [sizeof(TYPE)]
    is an argument where the source uses it. *)

Module Ptr.

Record t : Type := Build {
  ptr : N;   (* the raw pointer associated with this Ptr object *)
  id : N     (* a unique ID for this pointer type *)
}.

(** [Ptr()] and [Ptr(std::nullptr_t)] *)
Definition Default : t := {| ptr := 0; id := UNTRACKED |}.

(** [Ptr(const Ptr<TYPE> & _in)] *)
Definition CopyCtor (_in : t) : M t :=
  Tracker.IncID (id _in) >>
  ret {| ptr := ptr _in; id := id _in |}.

(** [Ptr(Ptr<TYPE> && _in)]: the new handle, and [_in] afterwards. *)
Definition MoveCtor (_in : t) : M (t * t) :=
  ret ({| ptr := ptr _in; id := id _in |},
       {| ptr := ptr _in; id := UNTRACKED |}).

(** [Ptr(T2 * in_ptr, bool track)] *)
Definition FromRaw (in_ptr : N) (track : bool) : M t :=
  let* active := Tracker.IsActive in_ptr in
  if active then
    (* already active: link to it *)
    let* i := Tracker.GetCurID in_ptr in
    Tracker.IncID i >>
    ret {| ptr := in_ptr; id := i |}
  else if track then
    let* i := Tracker.New in_ptr in
    ret {| ptr := in_ptr; id := i |}
  else ret {| ptr := in_ptr; id := UNTRACKED |}.

(** [Ptr(T2 * _ptr, size_t array_size, bool track)], [sizeof_T2] being
    [sizeof(T2)]. *)
Definition FromArray (sizeof_T2 : N) (_ptr array_size : N) (track : bool) : M t :=
  let array_bytes := size_t_mul array_size sizeof_T2 in
  let* active := Tracker.IsActive _ptr in
  if active then
    let* i := Tracker.GetCurID _ptr in
    Tracker.IncID i >>
    let* bytes := Tracker.GetArrayBytes i in
    emp_assert (bytes =? array_bytes) "Tracker().GetArrayBytes(id) == array_bytes" >>
    ret {| ptr := _ptr; id := i |}
  else if track then
    let* i := Tracker.NewArray _ptr array_bytes in
    ret {| ptr := _ptr; id := i |}
  else ret {| ptr := _ptr; id := UNTRACKED |}.

(** [~Ptr()] *)
Definition Dtor (self : t) : M unit := Tracker.DecID (id self).

Definition IsNull (self : t) : bool := ptr self =? 0.

Definition GetID (self : t) : N := id self.

Definition Raw (self : t) : M N :=
  let* d := Tracker.IsDeleted (id self) in
  emp_assert (negb d) "Do not convert deleted Ptr to raw." >>
  ret (ptr self).

(** [New(args...)]; [mem] is the address [malloc] returned. *)
Definition New (self : t) (mem : N) : M t :=
  Tracker.DecID (id self) >>
  let* i := Tracker.New mem in
  ret {| ptr := mem; id := i |}.

(** [NewArray(array_size)]; [mem] is the address [malloc] returned. *)
Definition NewArray (sizeof_T : N) (self : t) (mem array_size : N) : M t :=
  Tracker.DecID (id self) >>
  let* i := Tracker.NewArray mem (size_t_mul array_size sizeof_T) in
  ret {| ptr := mem; id := i |}.

Definition Delete (self : t) : M unit :=
  let* n := Tracker.GetNumIDs in
  emp_assert (id self <? n) "Deleting Ptr that we are not resposible for." >>
  emp_assert (negb (ptr self =? 0)) "Deleting null Ptr." >>
  let* arr := Tracker.IsArrayID (id self) in
  emp_assert (negb arr) "Trying to delete array pointer as non-array." >>
  Tracker.MarkDeleted (id self).

Definition DeleteArray (self : t) : M unit :=
  let* n := Tracker.GetNumIDs in
  emp_assert (id self <? n) "Deleting Ptr that we are not resposible for." >>
  emp_assert (negb (ptr self =? 0)) "Deleting null Ptr." >>
  let* arr := Tracker.IsArrayID (id self) in
  emp_assert arr "Trying to delete non-array pointer as array." >>
  Tracker.MarkDeleted (id self).

(** [operator=(const Ptr<TYPE> & _in)]: [self] afterwards. *)
Definition assign_copy (self _in : t) : M t :=
  let* d := Tracker.IsDeleted (id _in) in
  emp_assert (negb d) "Do not copy deleted pointers." >>
  if negb (id self =? id _in) then
    Tracker.DecID (id self) >>
    Tracker.IncID (id _in) >>
    ret {| ptr := ptr _in; id := id _in |}
  else ret self.

(** [operator=(Ptr<TYPE> && _in)]: [self] and [_in] afterwards. *)
Definition assign_move (self _in : t) : M (t * t) :=
  let* d := Tracker.IsDeleted (id _in) in
  emp_assert (negb d) "Do not move deleted pointers." >>
  if negb (id self =? id _in) then
    Tracker.DecID (id self) >>
    ret ({| ptr := ptr _in; id := id _in |}, Default)
  else ret (self, _in).

(** [operator=(T2 * _in)] *)
Definition assign_raw (self : t) (_in : N) : M t :=
  Tracker.DecID (id self) >>
  let* active := Tracker.IsActive _in in
  if active then
    let* i := Tracker.GetCurID _in in
    Tracker.IncID i >>
    ret {| ptr := _in; id := i |}
  else ret {| ptr := _in; id := UNTRACKED |}.

(** [operator*]: the checks before the access. *)
Definition deref (self : t) : M N :=
  let* d := Tracker.IsDeleted (id self) in
  emp_assert (negb d) "Tracker().IsDeleted(id) == false" >>
  emp_assert (negb (ptr self =? 0)) "Do not dereference a null pointer!" >>
  ret (ptr self).

(** [operator->] *)
Definition arrow (self : t) : M N :=
  let* d := Tracker.IsDeleted (id self) in
  emp_assert (negb d) "Tracker().IsDeleted(id) == false" >>
  emp_assert (negb (ptr self =? 0)) "Do not follow a null pointer!" >>
  ret (ptr self).

(** [operator[](size_t pos)]: the checks before [ptr[pos]].  The element
    itself lives in memory; [Ok tt] stands for the access being made. *)
Definition index (sizeof_T : N) (self : t) (pos : N) : M unit :=
  let* d := Tracker.IsDeleted (id self) in
  emp_assert (negb d) "Tracker().IsDeleted(id) == false" >>
  let* arr := Tracker.IsArrayID (id self) in
  emp_assert arr "Only arrays can be indexed into." >>
  let* bytes := Tracker.GetArrayBytes (id self) in
  emp_assert (size_t_mul pos sizeof_T <? bytes) "Indexing out of range." >>
  emp_assert (negb (ptr self =? 0)) "Do not follow a null pointer!" >>
  ret tt.

Definition DebugGetCount (self : t) : M Z := Tracker.GetIDCount (id self).

End Ptr.

(** ** Programs: handles in slots, and the operations a client performs

    A program state is the tracker together with the handles the client has
    constructed so far: slot [h] holds [Some p] while the handle is alive and
    [None] once its destructor has run.  A constructor fills the next slot. *)

Record World : Type := mkWorld {
  tracker : PtrTracker;
  handles : list (option Ptr.t)
}.

Definition start : World := {| tracker := Tracker.empty; handles := [] |}.

Inductive Op : Type :=
| OpDefault                                              (* Ptr<T> h; *)
| OpCopy (src : nat)                                     (* Ptr<T> h(src); *)
| OpMove (src : nat)                                     (* Ptr<T> h(std::move(src)); *)
| OpFromRaw (p : N) (track : bool)                       (* Ptr<T> h(p, track); *)
| OpFromArray (sizeof_T2 p n : N) (track : bool)         (* Ptr<T> h(p, n, track); *)
| OpDtor (h : nat)                                       (* h goes out of scope *)
| OpNew (h : nat) (mem : N)                              (* h.New(...); *)
| OpNewArray (sizeof_T : N) (h : nat) (mem n : N)        (* h.NewArray(n); *)
| OpDelete (h : nat)                                     (* h.Delete(); *)
| OpDeleteArray (h : nat)                                (* h.DeleteArray(); *)
| OpAssignCopy (dst src : nat)                           (* dst = src; *)
| OpAssignMove (dst src : nat)                           (* dst = std::move(src); *)
| OpAssignRaw (dst : nat) (p : N).                       (* dst = p; *)

Inductive Step : Type :=
| Next (w : World)                       (* the operation returned *)
| Stop (e : Error) (tr : PtrTracker)     (* the program was stopped *)
| NoHandle.                              (* the operation names no live handle *)

Definition handle_at (w : World) (h : nat) : option Ptr.t :=
  match handles w !! h with
  | Some (Some p) => Some p
  | _ => None
  end.

(** Run [m] on the tracker of [w], then let [k] place the handles. *)
Definition lift {A} (w : World) (m : M A)
    (k : A -> list (option Ptr.t)) : Step :=
  match m (tracker w) with
  | Ok a tr => Next {| tracker := tr; handles := k a |}
  | Abort e tr => Stop e tr
  end.

Definition with_handle (w : World) (h : nat) (k : Ptr.t -> Step) : Step :=
  match handle_at w h with
  | Some p => k p
  | None => NoHandle
  end.

Definition step (op : Op) (w : World) : Step :=
  let hs := handles w in
  match op with
  | OpDefault =>
      lift w (ret Ptr.Default) (fun p => hs ++ [Some p])
  | OpCopy src =>
      with_handle w src (fun s =>
        lift w (Ptr.CopyCtor s) (fun p => hs ++ [Some p]))
  | OpMove src =>
      with_handle w src (fun s =>
        lift w (Ptr.MoveCtor s) (fun '(p, s') => <[src := Some s']> hs ++ [Some p]))
  | OpFromRaw a track =>
      lift w (Ptr.FromRaw a track) (fun p => hs ++ [Some p])
  | OpFromArray sz a n track =>
      lift w (Ptr.FromArray sz a n track) (fun p => hs ++ [Some p])
  | OpDtor h =>
      with_handle w h (fun p =>
        lift w (Ptr.Dtor p) (fun _ => <[h := None]> hs))
  | OpNew h mem =>
      with_handle w h (fun p =>
        lift w (Ptr.New p mem) (fun p' => <[h := Some p']> hs))
  | OpNewArray sz h mem n =>
      with_handle w h (fun p =>
        lift w (Ptr.NewArray sz p mem n) (fun p' => <[h := Some p']> hs))
  | OpDelete h =>
      with_handle w h (fun p => lift w (Ptr.Delete p) (fun _ => hs))
  | OpDeleteArray h =>
      with_handle w h (fun p => lift w (Ptr.DeleteArray p) (fun _ => hs))
  | OpAssignCopy dst src =>
      with_handle w dst (fun d => with_handle w src (fun s =>
        lift w (Ptr.assign_copy d s) (fun d' => <[dst := Some d']> hs)))
  | OpAssignMove dst src =>
      with_handle w dst (fun d => with_handle w src (fun s =>
        lift w (Ptr.assign_move d s)
          (fun '(d', s') => <[dst := Some d']> (<[src := Some s']> hs))))
  | OpAssignRaw dst a =>
      with_handle w dst (fun d =>
        lift w (Ptr.assign_raw d a) (fun d' => <[dst := Some d']> hs))
  end.

Fixpoint run (ops : list Op) (w : World) : Step :=
  match ops with
  | [] => Next w
  | op :: rest =>
    match step op w with
    | Next w' => run rest w'
    | other => other
    end
  end.

(** The same for a client of the tracker alone. *)
Inductive TrackerOp : Type :=
| TNew (p : N)
| TNewArray (p bytes : N)
| TIncID (id : N)
| TDecID (id : N)
| TMarkDeleted (id : N).

Definition tstep (op : TrackerOp) : M unit :=
  match op with
  | TNew p => Tracker.New p >> ret tt
  | TNewArray p bytes => Tracker.NewArray p bytes >> ret tt
  | TIncID i => Tracker.IncID i
  | TDecID i => Tracker.DecID i
  | TMarkDeleted i => Tracker.MarkDeleted i
  end.

Fixpoint trun (ops : list TrackerOp) : M unit :=
  match ops with
  | [] => ret tt
  | op :: rest => tstep op >> trun rest
  end.

(** How many live handles hold id [i]. *)
Definition holds (i : N) (o : option Ptr.t) : bool :=
  match o with
  | Some p => Ptr.id p =? i
  | None => false
  end.

Definition refs (hs : list (option Ptr.t)) (i : N) : Z :=
  Z.of_nat (length (filter (fun o => holds i o = true) hs)).

(** How many records are still active. *)
Definition num_active (v : list PtrInfo.t) : N :=
  N.of_nat (length (filter (fun r => PtrInfo.IsActive r = true) v)).

(** ** Predicates used in the statements *)

(** [upd tr i r]: the tracker with record [i] replaced by [r]. *)
Definition upd (tr : PtrTracker) (i : N) (r : PtrInfo.t) : PtrTracker :=
  {| ptr_id := ptr_id tr; id_info := vec_set (id_info tr) i r |}.

(** [size()] fits a [size_t], so no record has the id [(size_t) -1]. *)
Definition size_ok (tr : PtrTracker) : Prop :=
  N.of_nat (length (id_info tr)) <= UNTRACKED.

(** One record as it was ([r]) and as it is later ([r']): the address it
    describes is fixed, and deleted is final. *)
Definition later_record (r r' : PtrInfo.t) : Prop :=
  PtrInfo.ptr r' = PtrInfo.ptr r /\
  (PtrInfo.status r = DELETED -> PtrInfo.status r' = DELETED).

(** [tr'] is a later tracker than [tr]: no record was removed or moved, and
    each one is a later version of itself. *)
Definition grows (tr tr' : PtrTracker) : Prop :=
  (length (id_info tr) <= length (id_info tr'))%nat /\
  forall i r, vec_at (id_info tr) i = Some r ->
    exists r', vec_at (id_info tr') i = Some r' /\ later_record r r'.

Definition counts_nonneg (tr : PtrTracker) : Prop :=
  forall i r, vec_at (id_info tr) i = Some r -> (0 <= PtrInfo.count r)%Z.

(** [push tr p]: the tracker after [id_info.emplace_back(p); ptr_id[p] = id]. *)
Definition push (tr : PtrTracker) (p : N) : PtrTracker :=
  {| ptr_id := <[p := N.of_nat (length (id_info tr))]> (ptr_id tr);
     id_info := id_info tr ++ [PtrInfo.New p] |}.

(** The condition under which [New p] passes its second assertion: the
    address is not stored, or its current record is deleted. *)
Definition reusable (tr : PtrTracker) (p : N) : Prop :=
  forall i, ptr_id tr !! p = Some i ->
    i <> UNTRACKED /\
    exists r, vec_at (id_info tr) i = Some r /\ PtrInfo.IsActive r = false.

(** The elementary changes the tracker's member functions make. *)
Inductive prim : PtrTracker -> PtrTracker -> Prop :=
| prim_inc tr i r r' :
    vec_at (id_info tr) i = Some r ->
    PtrInfo.Inc r = Done r' ->
    prim tr (upd tr i r')
| prim_dec tr i r r' :
    vec_at (id_info tr) i = Some r ->
    (0 < PtrInfo.count r)%Z ->
    PtrInfo.Dec r = Done r' ->
    prim tr (upd tr i r')
| prim_del tr i r r' :
    vec_at (id_info tr) i = Some r ->
    PtrInfo.MarkDeleted r = Done r' ->
    prim tr (upd tr i r')
| prim_arr tr i r bytes :
    vec_at (id_info tr) i = Some r ->
    PtrInfo.IsActive r = true ->
    prim tr (upd tr i (PtrInfo.SetArray bytes r))
| prim_new tr p :
    p <> 0 ->
    reusable tr p ->
    prim tr (push tr p).

Definition reach : PtrTracker -> PtrTracker -> Prop := rtc prim.

(** A computation whose every run, finished or stopped, leaves a tracker
    reachable by elementary changes. *)
Definition steady {A} (m : M A) : Prop :=
  forall tr, reach tr (final (m tr)).

(** Record [i] exists and is deleted. *)
Definition deleted_at (tr : PtrTracker) (i : N) : Prop :=
  exists r, vec_at (id_info tr) i = Some r /\ PtrInfo.status r = DELETED.

(** [P] holds of the tracker a program leaves behind, whether it ran to the
    end or was stopped. *)
Definition holds_after (s : Step) (P : PtrTracker -> Prop) : Prop :=
  match s with
  | Next w' => P (tracker w')
  | Stop _ tr => P tr
  | NoHandle => True
  end.

(** The record [r] once [MarkDeleted] has run on it. *)
Definition mark (r : PtrInfo.t) : PtrInfo.t :=
  PtrInfo.Build (PtrInfo.ptr r) (PtrInfo.count r) DELETED (PtrInfo.array_bytes r).

(** How many records have a count that is not zero (the second number of
    the summary line). *)
Definition num_held (v : list PtrInfo.t) : N :=
  N.of_nat (length (filter (fun r => PtrInfo.GetCount r <> 0%Z) v)).

(** The leak scenario: one tracked handle per address, then [Delete()] on
    some of the handles. *)
Definition register_all (addrs : list N) : list Op :=
  map (fun p => OpFromRaw p true) addrs.

Definition release_all (hs : list nat) : list Op := map OpDelete hs.

(** The program state once [done] has been registered from [start]: record
    and slot [i] belong to the [i]-th address. *)
Definition registered (done : list N) (w : World) : Prop :=
  id_info (tracker w) = map PtrInfo.New done /\
  (forall p, is_Some (ptr_id (tracker w) !! p) -> p ∈ done) /\
  length (handles w) = length done /\
  (forall i p, done !! i = Some p ->
     handles w !! i = Some (Some (Ptr.Build p (N.of_nat i)))).

(** Handle [h] can be released with [Delete()]. *)
Definition releasable (w : World) (h : nat) : Prop :=
  exists p r, handle_at w h = Some (Ptr.Build p (N.of_nat h)) /\ p <> 0 /\
              vec_at (id_info (tracker w)) (N.of_nat h) = Some r /\
              PtrInfo.status r = ACTIVE.

(** The well-formedness a tracker has in every run: a stored address leads
    to a record for that address, and an active record is the current one of
    its address (so an address has at most one active record). *)
Definition wf_tracker (tr : PtrTracker) : Prop :=
  (forall p i, ptr_id tr !! p = Some i ->
     exists r, vec_at (id_info tr) i = Some r /\ PtrInfo.ptr r = p) /\
  (forall i r, vec_at (id_info tr) i = Some r -> PtrInfo.IsActive r = true ->
     ptr_id tr !! PtrInfo.ptr r = Some i).

(** A handle is untracked, or its id names a record for its address. *)
Definition valid_handle (tr : PtrTracker) (p : Ptr.t) : Prop :=
  Ptr.id p = UNTRACKED \/
  exists r, vec_at (id_info tr) (Ptr.id p) = Some r /\ PtrInfo.ptr r = Ptr.ptr p.

Definition handles_valid (tr : PtrTracker) (hs : list (option Ptr.t)) : Prop :=
  forall h p, hs !! h = Some (Some p) -> valid_handle tr p.

(** The count of record [i] ([0] where there is none). *)
Definition count_at (tr : PtrTracker) (i : N) : Z :=
  match vec_at (id_info tr) i with
  | Some r => PtrInfo.count r
  | None => 0%Z
  end.

(** Every record counts the live handles that hold its id, as an [int]. *)
Definition balanced (tr : PtrTracker) (hs : list (option Ptr.t)) : Prop :=
  forall i, i < N.of_nat (length (id_info tr)) -> count_at tr i = int_wrap (refs hs i).

(** Every active record is held by a live handle. *)
Definition held (tr : PtrTracker) (hs : list (option Ptr.t)) : Prop :=
  forall i r, vec_at (id_info tr) i = Some r -> PtrInfo.IsActive r = true ->
    (1 <= refs hs i)%Z.

Definition wf_world (w : World) : Prop :=
  wf_tracker (tracker w) /\
  handles_valid (tracker w) (handles w) /\
  balanced (tracker w) (handles w) /\
  held (tracker w) (handles w).

(** Every count lies between [0] and [b]. *)
Definition counts_within (b : Z) (tr : PtrTracker) : Prop :=
  forall i r, vec_at (id_info tr) i = Some r -> (0 <= PtrInfo.count r <= b)%Z.

(** A computation that raises no count by more than [n] and, below
    [INT_MAX], takes none out of the range, whether it returns or stops. *)
Definition raises {A} (n : Z) (m : M A) : Prop :=
  forall b tr, (1 <= b)%Z -> (b + n <= INT_MAX)%Z ->
    counts_within b tr -> counts_within (b + n) (final (m tr)).

Definition ind (b : bool) : Z := if b then 1%Z else 0%Z.

(** ** The rest of [Ptr.h] *)

(** [Log2], the anonymous [constexpr] helper of the hash: on the binary
    digits of [x], dropping the last digit is [x/2].  [Log2_unfold] below
    shows that this is the source's recursion. *)
Fixpoint Log2_pos (p : positive) : N :=
  match p with
  | xH => 0
  | xO q | xI q => Log2_pos q + 1
  end.

Definition Log2 (x : N) : N :=
  match x with
  | N0 => 0
  | Npos p => Log2_pos p
  end.

Module Handle.

(** [Ptr<TYPE>::Hash()], with [sizeof(TYPE)] as an argument. *)
Definition Hash (sizeof_T : N) (self : Ptr.t) : N :=
  N.shiftr (Ptr.ptr self) (Log2 (1 + sizeof_T)).

(** [Cast<T2>()]: [cast] is the C-style cast to [T2*] on addresses.  The
    returned raw pointer becomes a [Ptr<T2>] through the raw-pointer
    constructor, whose [track] defaults to [false]. *)
Definition Cast (cast : N -> N) (self : Ptr.t) : M Ptr.t :=
  let* d := Tracker.IsDeleted (Ptr.id self) in
  emp_assert (negb d) "Do not cast deleted pointers." >>
  Ptr.FromRaw (cast (Ptr.ptr self)) false.

(** [DynamicCast<T2>()]; [castable] says whether [dynamic_cast<T2*>(ptr)]
    is not null.  What is returned is again the C-style cast. *)
Definition DynamicCast (castable : bool) (cast : N -> N) (self : Ptr.t) : M Ptr.t :=
  emp_assert castable "dynamic_cast<T2*>(ptr) != nullptr" >>
  let* d := Tracker.IsDeleted (Ptr.id self) in
  emp_assert (negb d) "Do not cast deleted pointers." >>
  Ptr.FromRaw (cast (Ptr.ptr self)) false.

(** [Ptr(Ptr<T2> _in)] called on an lvalue: the by-value parameter is a copy
    of [src], which goes away when the constructor is done.  [conv] is the
    implicit conversion from [T2*] to [TYPE*] on addresses. *)
Definition ConvertCtor (conv : N -> N) (src : Ptr.t) : M Ptr.t :=
  let* _in := Ptr.CopyCtor src in
  let* raw := Ptr.Raw _in in                (* ptr(_in.Raw()) *)
  let* _chk := Ptr.Raw _in in               (* PtrIsConvertable(_in.Raw()) *)
  Tracker.IncID (Ptr.GetID _in) >>
  Ptr.Dtor _in >>
  ret {| Ptr.ptr := conv raw; Ptr.id := Ptr.GetID _in |}.

(** [operator=(Ptr<T2> _in)] called on an lvalue: [self] afterwards. *)
Definition assign_convert (conv : N -> N) (self src : Ptr.t) : M Ptr.t :=
  let* _in := Ptr.CopyCtor src in
  let* _chk := Ptr.Raw _in in               (* PtrIsConvertable(_in.Raw()) *)
  let* d := Tracker.IsDeleted (Ptr.id _in) in
  emp_assert (negb d) "Do not copy deleted pointers." >>
  Tracker.DecID (Ptr.id self) >>
  let* raw := Ptr.Raw _in in                (* ptr = _in.Raw() *)
  Tracker.IncID (Ptr.GetID _in) >>
  Ptr.Dtor _in >>
  ret {| Ptr.ptr := conv raw; Ptr.id := Ptr.GetID _in |}.

(** [operator TYPE *()] *)
Definition to_raw (self : Ptr.t) : M N :=
  let* d := Tracker.IsDeleted (Ptr.id self) in
  emp_assert (negb d) "Tracker().IsDeleted(id) == false" >>
  emp_assert (Ptr.id self =? UNTRACKED) "id == (size_t) -1" >>
  ret (Ptr.ptr self).

(** [operator bool()] *)
Definition to_bool (self : Ptr.t) : bool := negb (Ptr.ptr self =? 0).

End Handle.

(** The helpers that replace [&] and [new]; [mem] is the address that [new]
    returned. *)
Definition ToPtr (_in : N) (own : bool) : M Ptr.t := Ptr.FromRaw _in own.
Definition TrackPtr (_in : N) (own : bool) : M Ptr.t := Ptr.FromRaw _in own.
Definition NewPtr (mem : N) : M Ptr.t := Ptr.FromRaw mem true.
Definition NewArrayPtr (sizeof_T mem array_size : N) : M Ptr.t :=
  Ptr.FromArray sizeof_T mem array_size true.

(** *** Further predicates *)

(** What holds of the address map in every run: the null address is never
    stored, no record is about the null address, and the id stored for an
    address is the newest record of that address. *)
Definition map_ok (tr : PtrTracker) : Prop :=
  ptr_id tr !! 0 = None /\
  (forall i r, vec_at (id_info tr) i = Some r ->
     PtrInfo.ptr r <> 0 /\
     exists j, ptr_id tr !! PtrInfo.ptr r = Some j /\ i <= j).

(** No address is active. *)
Definition quiet (tr : PtrTracker) : Prop :=
  forall p, Tracker.IsActive p tr = Ok false tr.

Definition all_untracked (hs : list (option Ptr.t)) : Prop :=
  forall h p, hs !! h = Some (Some p) -> Ptr.id p = UNTRACKED.

(** Operations that neither ask for tracking nor release anything. *)
Definition untracking (op : Op) : bool :=
  match op with
  | OpDefault | OpCopy _ | OpMove _ | OpDtor _
  | OpAssignCopy _ _ | OpAssignMove _ _ | OpAssignRaw _ _ => true
  | OpFromRaw _ track => negb track
  | OpFromArray _ _ _ track => negb track
  | OpNew _ _ | OpNewArray _ _ _ _ | OpDelete _ | OpDeleteArray _ => false
  end.

(** The record [r] with its count changed by [d], as an [int]. *)
Definition bump (r : PtrInfo.t) (d : Z) : PtrInfo.t :=
  PtrInfo.Build (PtrInfo.ptr r) (int_wrap (PtrInfo.count r + d)) (PtrInfo.status r)
    (PtrInfo.array_bytes r).

(* ===== Properties ===== *)

(** * Properties *)

(** ** The record vector *)

Lemma vec_at_lookup (v : list PtrInfo.t) (i : N) :
  vec_at v i = v !! N.to_nat i.
Proof.
  unfold vec_at. destruct (N.ltb_spec i (N.of_nat (length v))) as [H|H]; [done|].
  symmetry. apply lookup_ge_None. lia.
Qed.

Lemma vec_at_lt (v : list PtrInfo.t) (i : N) (r : PtrInfo.t) :
  vec_at v i = Some r -> i < N.of_nat (length v).
Proof.
  unfold vec_at. destruct (N.ltb_spec i (N.of_nat (length v))); [done|discriminate].
Qed.

Lemma vec_at_in_range (v : list PtrInfo.t) (i : N) :
  i < N.of_nat (length v) -> exists r, vec_at v i = Some r.
Proof.
  intros H. rewrite vec_at_lookup.
  destruct (lookup_lt_is_Some_2 v (N.to_nat i)) as [r Hr]; [lia|eauto].
Qed.

Lemma vec_at_none (v : list PtrInfo.t) (i : N) :
  N.of_nat (length v) <= i -> vec_at v i = None.
Proof.
  intros H. unfold vec_at.
  destruct (N.ltb_spec i (N.of_nat (length v))); [lia|done].
Qed.

Lemma vec_set_length (v : list PtrInfo.t) (i : N) (r : PtrInfo.t) :
  length (vec_set v i r) = length v.
Proof. unfold vec_set. destruct (_ <? _); [apply length_insert|done]. Qed.

Lemma vec_set_insert (v : list PtrInfo.t) (i : N) (r : PtrInfo.t) :
  vec_set v i r = <[N.to_nat i := r]> v.
Proof.
  unfold vec_set. destruct (N.ltb_spec i (N.of_nat (length v))); [done|].
  symmetry. apply list_insert_ge. lia.
Qed.

Lemma vec_at_set_eq (v : list PtrInfo.t) (i : N) (r : PtrInfo.t) :
  i < N.of_nat (length v) -> vec_at (vec_set v i r) i = Some r.
Proof.
  intros H. rewrite vec_at_lookup, vec_set_insert.
  apply list_lookup_insert_eq. lia.
Qed.

Lemma vec_at_set_ne (v : list PtrInfo.t) (i j : N) (r : PtrInfo.t) :
  i <> j -> vec_at (vec_set v i r) j = vec_at v j.
Proof.
  intros H. rewrite !vec_at_lookup, vec_set_insert.
  apply list_lookup_insert_ne. lia.
Qed.

Lemma vec_at_set (v : list PtrInfo.t) (i j : N) (r : PtrInfo.t) :
  vec_at (vec_set v i r) j =
  if decide (i = j /\ i < N.of_nat (length v)) then Some r else vec_at v j.
Proof.
  case_decide as H.
  - destruct H as [-> H]. by apply vec_at_set_eq.
  - destruct (decide (i = j)) as [->|Hne]; [|by apply vec_at_set_ne].
    unfold vec_set. destruct (N.ltb_spec j (N.of_nat (length v))); [|done].
    exfalso. apply H. done.
Qed.

Lemma vec_at_app_l (v w : list PtrInfo.t) (i : N) :
  i < N.of_nat (length v) -> vec_at (v ++ w) i = vec_at v i.
Proof.
  intros H. rewrite !vec_at_lookup. apply lookup_app_l. lia.
Qed.

Lemma vec_at_app_new (v : list PtrInfo.t) (r : PtrInfo.t) :
  vec_at (v ++ [r]) (N.of_nat (length v)) = Some r.
Proof.
  rewrite vec_at_lookup, Nat2N.id. by apply list_lookup_middle.
Qed.

Lemma vec_at_app_Some (v w : list PtrInfo.t) (i : N) (r : PtrInfo.t) :
  vec_at v i = Some r -> vec_at (v ++ w) i = Some r.
Proof.
  intros H. rewrite vec_at_app_l; [done|]. by eapply vec_at_lt.
Qed.

(** ** Inversion of runs *)

Lemma bind_Ok {A B} (m : M A) (k : A -> M B) tr b tr' :
  bind m k tr = Ok b tr' <-> exists a tr1, m tr = Ok a tr1 /\ k a tr1 = Ok b tr'.
Proof.
  unfold bind. destruct (m tr) as [a tr1|e tr1]; split.
  - eauto.
  - by intros (? & ? & [= -> ->] & ?).
  - discriminate.
  - by intros (? & ? & ? & ?).
Qed.

Lemma bind_Abort {A B} (m : M A) (k : A -> M B) tr e tr' :
  bind m k tr = Abort e tr' <->
  m tr = Abort e tr' \/ exists a tr1, m tr = Ok a tr1 /\ k a tr1 = Abort e tr'.
Proof.
  unfold bind. destruct (m tr) as [a tr1|e1 tr1]; split.
  - intros ?. right. eauto.
  - intros [?|(? & ? & [= -> ->] & ?)]; done.
  - intros [= -> ->]. by left.
  - intros [[= -> ->]|(? & ? & ? & ?)]; done.
Qed.

Lemma ret_Ok {A} (a b : A) tr tr' : ret a tr = Ok b tr' <-> b = a /\ tr' = tr.
Proof. unfold ret. split; [by intros [= -> ->]|by intros [-> ->]]. Qed.

Lemma assert_Ok b msg tr u tr' :
  emp_assert b msg tr = Ok u tr' <-> b = true /\ tr' = tr.
Proof.
  unfold emp_assert. destruct b, u; split; try done.
  - by intros [= ->].
  - by intros [_ ->].
  - by intros [? _].
Qed.

Lemma assert_Abort b msg tr e tr' :
  emp_assert b msg tr = Abort e tr' <-> b = false /\ e = AssertFail msg /\ tr' = tr.
Proof.
  unfold emp_assert. destruct b; split; try done.
  - by intros (? & _).
  - by intros [= <- <-].
  - by intros (_ & -> & ->).
Qed.

Lemma info_at_Ok i tr r tr' :
  info_at i tr = Ok r tr' <-> vec_at (id_info tr) i = Some r /\ tr' = tr.
Proof.
  unfold info_at. destruct (vec_at _ _); split; try done.
  - by intros [= -> ->].
  - by intros [[= ->] ->].
  - by intros [? _].
Qed.

Lemma info_at_Abort i tr e tr' :
  info_at i tr = Abort e tr' <->
  vec_at (id_info tr) i = None /\ e = OutOfRange i /\ tr' = tr.
Proof.
  unfold info_at. destruct (vec_at _ _); split; try done.
  - by intros (? & _).
  - by intros [= <- <-].
  - by intros (_ & -> & ->).
Qed.

Lemma info_call_Ok i f tr u tr' :
  info_call i f tr = Ok u tr' <->
  exists r r', vec_at (id_info tr) i = Some r /\ f r = Done r' /\ tr' = upd tr i r'.
Proof.
  unfold info_call. destruct (vec_at _ _) as [r|]; [destruct (f r) as [r'|e] eqn:Hf|];
    split; try done.
  - intros [= <-]. by exists r, r'.
  - intros (? & ? & [= <-] & Hf' & ->). rewrite Hf in Hf'. injection Hf' as <-.
    by destruct u.
  - intros (? & ? & [= <-] & Hf' & _). congruence.
  - by intros (? & ? & ? & _).
Qed.

Lemma info_call_Abort i f tr e tr' :
  info_call i f tr = Abort e tr' -> tr' = tr.
Proof.
  unfold info_call. destruct (vec_at _ _) as [r|]; [destruct (f r)|]; congruence.
Qed.

(** ** Every operation moves the tracker by elementary changes *)

Lemma steady_ret {A} (a : A) : steady (ret a).
Proof. intros tr. apply rtc_refl. Qed.

Lemma steady_bind {A B} (m : M A) (k : A -> M B) :
  steady m -> (forall a, steady (k a)) -> steady (bind m k).
Proof.
  intros Hm Hk tr. unfold bind. specialize (Hm tr).
  destruct (m tr) as [a tr1|e tr1]; simpl in *; [|done].
  etrans; [exact Hm|apply Hk].
Qed.

Lemma steady_assert b msg : steady (emp_assert b msg).
Proof. intros tr. unfold emp_assert. destruct b; apply rtc_refl. Qed.

Lemma steady_info_at i : steady (info_at i).
Proof. intros tr. unfold info_at. destruct (vec_at _ _); apply rtc_refl. Qed.

Lemma steady_HasPtr p : steady (Tracker.HasPtr p).
Proof. intros tr. apply rtc_refl. Qed.

Lemma steady_GetNumIDs : steady Tracker.GetNumIDs.
Proof. intros tr. apply rtc_refl. Qed.

Lemma steady_read {A} (f : PtrTracker -> A) : steady (fun tr => Ok (f tr) tr).
Proof. intros tr. apply rtc_refl. Qed.

Lemma steady_if {A} (b : bool) (m1 m2 : M A) :
  steady m1 -> steady m2 -> steady (if b then m1 else m2).
Proof. by destruct b. Qed.

Ltac steady_step :=
  lazymatch goal with
  | |- steady (ret _) => apply steady_ret
  | |- steady (emp_assert _ _) => apply steady_assert
  | |- steady (info_at _) => apply steady_info_at
  | |- steady (Tracker.HasPtr _) => apply steady_HasPtr
  | |- steady Tracker.GetNumIDs => apply steady_GetNumIDs
  | |- steady (if _ then _ else _) => apply steady_if
  | |- steady (bind _ _) => apply steady_bind; [|intros ?]
  | |- steady (fun tr => Ok _ tr) => apply steady_read
  end.

Lemma steady_GetCurID p : steady (Tracker.GetCurID p).
Proof. unfold Tracker.GetCurID. repeat steady_step. Qed.

Lemma steady_GetArrayBytes i : steady (Tracker.GetArrayBytes i).
Proof. unfold Tracker.GetArrayBytes. repeat steady_step. Qed.

Lemma steady_IsDeleted i : steady (Tracker.IsDeleted i).
Proof. unfold Tracker.IsDeleted. repeat steady_step. Qed.

Lemma steady_IsActive p : steady (Tracker.IsActive p).
Proof.
  intros tr. unfold Tracker.IsActive, Tracker.GetInfo, bind, info_at, ret.
  destruct (ptr_id tr !! p); [|apply rtc_refl].
  simpl. destruct (vec_at _ _); apply rtc_refl.
Qed.

(** ** What each tracker function does when it returns *)

Lemma HasPtr_Ok p tr b tr' :
  Tracker.HasPtr p tr = Ok b tr' <->
  b = bool_decide (is_Some (ptr_id tr !! p)) /\ tr' = tr.
Proof. unfold Tracker.HasPtr. split; [by intros [= <- <-]|by intros [-> ->]]. Qed.

Lemma GetNumIDs_Ok tr n tr' :
  Tracker.GetNumIDs tr = Ok n tr' <-> n = N.of_nat (length (id_info tr)) /\ tr' = tr.
Proof. unfold Tracker.GetNumIDs. split; [by intros [= <- <-]|by intros [-> ->]]. Qed.

Ltac inv_run :=
  repeat match goal with
  | H : bind _ _ _ = Ok _ _ |- _ =>
      let a := fresh "a" in let tr := fresh "tr" in
      let H1 := fresh "Hrun" in
      apply bind_Ok in H as (a & tr & H1 & H)
  | H : ret _ _ = Ok _ _ |- _ => apply ret_Ok in H as [? ?]; subst
  | H : emp_assert _ _ _ = Ok _ _ |- _ => apply assert_Ok in H as [? ?]; subst
  | H : info_at _ _ = Ok _ _ |- _ => apply info_at_Ok in H as [H ?]; subst
  | H : Tracker.HasPtr _ _ = Ok _ _ |- _ => apply HasPtr_Ok in H as [? ?]; subst
  | H : Tracker.GetNumIDs _ = Ok _ _ |- _ => apply GetNumIDs_Ok in H as [? ?]; subst
  end.

Lemma GetCurID_Ok p tr i tr' :
  Tracker.GetCurID p tr = Ok i tr' <-> ptr_id tr !! p = Some i /\ tr' = tr.
Proof.
  unfold Tracker.GetCurID. split.
  - intros H. inv_run. injection H as <- <-.
    match goal with
    | H : true = bool_decide _ |- _ =>
        symmetry in H; apply bool_decide_eq_true in H as [j Hj]
    end.
    by rewrite Hj.
  - intros [Hp ->]. unfold bind, Tracker.HasPtr, emp_assert.
    rewrite bool_decide_eq_true_2 by eauto. by rewrite Hp.
Qed.

Lemma IsDeleted_Ok i tr b tr' :
  Tracker.IsDeleted i tr = Ok b tr' <->
  tr' = tr /\
  (i = UNTRACKED /\ b = false \/
   i <> UNTRACKED /\ exists r, vec_at (id_info tr) i = Some r /\ b = negb (PtrInfo.IsActive r)).
Proof.
  unfold Tracker.IsDeleted. destruct (N.eqb_spec i UNTRACKED) as [->|Hne]; split.
  - intros H. inv_run. split; [done|]. by left.
  - intros [-> [[_ ->]|[? _]]]; done.
  - intros H. inv_run. split; [done|]. right. eauto.
  - intros [-> [[? _]|[_ (r & Hr & ->)]]]; [done|].
    unfold bind, info_at. by rewrite Hr.
Qed.

Lemma IsActive_Ok p tr b tr' :
  Tracker.IsActive p tr = Ok b tr' <->
  tr' = tr /\
  (ptr_id tr !! p = None /\ b = false \/
   exists i r, ptr_id tr !! p = Some i /\ vec_at (id_info tr) i = Some r /\
               b = PtrInfo.IsActive r).
Proof.
  unfold Tracker.IsActive, Tracker.GetInfo, bind, info_at, ret.
  destruct (ptr_id tr !! p) as [i|] eqn:Hp; simpl.
  - destruct (vec_at (id_info tr) i) as [r|] eqn:Hr; split.
    + intros [= <- <-]. split; [done|]. right. eauto.
    + intros [-> [[? _]|(i' & r' & [= <-] & Hr' & ->)]]; [done|].
      rewrite Hr in Hr'. by injection Hr' as <-.
    + done.
    + intros [-> [[? _]|(i' & r' & [= <-] & Hr' & _)]]; [done|]. congruence.
  - split.
    + intros [= <- <-]. split; [done|]. by left.
    + intros [-> [[_ ->]|(? & ? & ? & _)]]; done.
Qed.

Lemma reuse_check_Ok p tr b tr' :
  (if negb (bool_decide (is_Some (ptr_id tr !! p))) then ret true
   else let* cur := Tracker.GetCurID p in Tracker.IsDeleted cur) tr = Ok b tr' ->
  tr' = tr /\ (b = true -> reusable tr p).
Proof.
  destruct (ptr_id tr !! p) as [j|] eqn:Hj.
  - rewrite bool_decide_eq_true_2 by eauto. simpl. intros H. inv_run.
    apply GetCurID_Ok in Hrun as [Hp ->].
    apply IsDeleted_Ok in H as [-> Hd]. split; [done|].
    intros -> k Hk. rewrite Hj in Hp. injection Hp as <-.
    rewrite Hj in Hk. injection Hk as <-.
    destruct Hd as [[_ ?]|[Hne (r & Hr & Hb)]]; [done|].
    split; [done|]. exists r. split; [done|]. by destruct (PtrInfo.IsActive r).
  - rewrite bool_decide_eq_false_2 by (intros [? ?]; done). simpl.
    intros H. inv_run. split; [done|]. intros _ k Hk. congruence.
Qed.

Lemma New_Ok p tr i tr' :
  Tracker.New p tr = Ok i tr' <->
  p <> 0 /\ reusable tr p /\ i = N.of_nat (length (id_info tr)) /\ tr' = push tr p.
Proof.
  unfold Tracker.New. split.
  - intros H. inv_run. unfold Tracker.store_new in *.
    apply reuse_check_Ok in Hrun2 as [-> Hre].
    match goal with H : Ok _ _ = Ok _ _ |- _ => injection H as <- end.
    split; [|split; [by apply Hre|done]].
    match goal with H : negb (p =? 0) = true |- _ =>
      apply negb_true_iff, N.eqb_neq in H end. done.
  - intros (Hp & Hre & -> & ->).
    unfold bind at 1. unfold emp_assert at 1.
    apply N.eqb_neq in Hp. rewrite Hp. simpl.
    unfold bind at 1. unfold Tracker.GetNumIDs at 1.
    unfold bind at 1. unfold Tracker.HasPtr at 1.
    destruct (ptr_id tr !! p) as [j|] eqn:Hj.
    + rewrite bool_decide_eq_true_2 by eauto. simpl.
      destruct (Hre j Hj) as (Hne & r & Hr & Hact).
      assert (Hcur : Tracker.GetCurID p tr = Ok j tr) by by apply GetCurID_Ok.
      assert (Hdel : Tracker.IsDeleted j tr = Ok true tr).
      { apply IsDeleted_Ok. split; [done|]. right. split; [done|].
        exists r. by rewrite Hact. }
      unfold bind. rewrite Hcur, Hdel. done.
    + rewrite bool_decide_eq_false_2 by (intros [? ?]; done). done.
Qed.

Lemma New_Abort p tr e tr' : Tracker.New p tr = Abort e tr' -> tr' = tr.
Proof.
  unfold Tracker.New, bind, emp_assert, Tracker.GetNumIDs, Tracker.HasPtr,
    Tracker.GetCurID, Tracker.IsDeleted, Tracker.store_new, info_at, ret, bind,
    emp_assert, Tracker.HasPtr.
  repeat (match goal with
          | |- context [if ?b then _ else _] => destruct b eqn:?
          | |- context [match vec_at ?v ?i with _ => _ end] => destruct (vec_at v i) eqn:?
          end; simpl); congruence.
Qed.

Lemma IncID_Ok i tr u tr' :
  Tracker.IncID i tr = Ok u tr' <->
  i = UNTRACKED /\ tr' = tr \/
  i <> UNTRACKED /\
  exists r r', vec_at (id_info tr) i = Some r /\ PtrInfo.Inc r = Done r' /\
               tr' = upd tr i r'.
Proof.
  unfold Tracker.IncID. destruct (N.eqb_spec i UNTRACKED) as [->|Hne].
  - rewrite ret_Ok. split; [intros [_ ->]; by left|].
    intros [[_ ->]|[? _]]; [by destruct u|done].
  - rewrite info_call_Ok. split; [intros ?; by right|].
    intros [[? _]|[_ ?]]; done.
Qed.

Lemma IncID_Abort i tr e tr' : Tracker.IncID i tr = Abort e tr' -> tr' = tr.
Proof.
  unfold Tracker.IncID. destruct (i =? UNTRACKED); [done|]. apply info_call_Abort.
Qed.

Lemma DecID_Ok i tr u tr' :
  Tracker.DecID i tr = Ok u tr' <->
  i = UNTRACKED /\ tr' = tr \/
  i <> UNTRACKED /\
  exists r r', vec_at (id_info tr) i = Some r /\ (0 < PtrInfo.count r)%Z /\
               PtrInfo.Dec r = Done r' /\ tr' = upd tr i r'.
Proof.
  unfold Tracker.DecID. destruct (N.eqb_spec i UNTRACKED) as [->|Hne].
  - rewrite ret_Ok. split; [intros [_ ->]; by left|].
    intros [[_ ->]|[? _]]; [by destruct u|done].
  - split.
    + intros H. inv_run. apply info_call_Ok in H as (r & r' & Hr & Hd & ->).
      right. split; [done|]. exists r, r'.
      match goal with H : vec_at _ _ = Some ?x |- _ =>
        rewrite Hr in H; injection H as <- end.
      match goal with H : (0 <? _)%Z = true |- _ => apply Z.ltb_lt in H end.
      done.
    + intros [[? _]|[_ (r & r' & Hr & Hc & Hd & ->)]]; [done|].
      unfold bind, info_at, emp_assert, info_call. rewrite Hr.
      apply Z.ltb_lt in Hc. unfold PtrInfo.GetCount. rewrite Hc, Hr, Hd.
      by destruct u.
Qed.

Lemma DecID_Abort i tr e tr' : Tracker.DecID i tr = Abort e tr' -> tr' = tr.
Proof.
  unfold Tracker.DecID. destruct (i =? UNTRACKED); [done|].
  unfold bind, info_at, emp_assert. destruct (vec_at _ _); [|congruence].
  destruct (_ <? _)%Z; [|congruence]. apply info_call_Abort.
Qed.

Lemma MarkDeleted_Ok i tr u tr' :
  Tracker.MarkDeleted i tr = Ok u tr' <->
  exists r r', vec_at (id_info tr) i = Some r /\ PtrInfo.MarkDeleted r = Done r' /\
               tr' = upd tr i r'.
Proof. apply info_call_Ok. Qed.

Lemma MarkDeleted_Abort i tr e tr' :
  Tracker.MarkDeleted i tr = Abort e tr' -> tr' = tr.
Proof. apply info_call_Abort. Qed.

Lemma push_at_new tr p :
  vec_at (id_info (push tr p)) (N.of_nat (length (id_info tr))) = Some (PtrInfo.New p).
Proof. apply vec_at_app_new. Qed.

Lemma NewArray_Ok p bytes tr i tr' :
  Tracker.NewArray p bytes tr = Ok i tr' <->
  p <> 0 /\ reusable tr p /\ i = N.of_nat (length (id_info tr)) /\
  tr' = upd (push tr p) i (PtrInfo.SetArray bytes (PtrInfo.New p)).
Proof.
  unfold Tracker.NewArray. split.
  - intros H. inv_run. apply New_Ok in Hrun as (Hp & Hre & -> & ->).
    apply info_call_Ok in Hrun0 as (r & r' & Hr & [= <-] & ->).
    rewrite push_at_new in Hr. injection Hr as <-. done.
  - intros (Hp & Hre & -> & ->).
    assert (Hnew : Tracker.New p tr = Ok (N.of_nat (length (id_info tr))) (push tr p))
      by by apply New_Ok.
    unfold bind. rewrite Hnew. unfold info_call. by rewrite push_at_new.
Qed.

Lemma NewArray_Abort p bytes tr e tr' :
  Tracker.NewArray p bytes tr = Abort e tr' -> tr' = tr.
Proof.
  unfold Tracker.NewArray. intros H. apply bind_Abort in H as [H|(i & tr1 & Hn & H)].
  - by apply New_Abort in H.
  - apply New_Ok in Hn as (_ & _ & -> & ->).
    apply bind_Abort in H as [H|(? & ? & _ & H)]; [|done].
    unfold info_call in H. by rewrite push_at_new in H.
Qed.

(** Writes, one by one. *)

Lemma steady_New p : steady (Tracker.New p).
Proof.
  intros tr. destruct (Tracker.New p tr) as [i tr'|e tr'] eqn:H; simpl.
  - apply New_Ok in H as (Hp & Hre & _ & ->). apply rtc_once. by constructor.
  - apply New_Abort in H as ->. apply rtc_refl.
Qed.

Lemma steady_NewArray p bytes : steady (Tracker.NewArray p bytes).
Proof.
  intros tr. destruct (Tracker.NewArray p bytes tr) as [i tr'|e tr'] eqn:H; simpl.
  - apply NewArray_Ok in H as (Hp & Hre & -> & ->).
    eapply rtc_l; [by apply prim_new|]. apply rtc_once.
    eapply prim_arr; [apply push_at_new|done].
  - apply NewArray_Abort in H as ->. apply rtc_refl.
Qed.

Lemma steady_IncID i : steady (Tracker.IncID i).
Proof.
  intros tr. destruct (Tracker.IncID i tr) as [u tr'|e tr'] eqn:H; simpl.
  - apply IncID_Ok in H as [[_ ->]|(_ & r & r' & Hr & Hi & ->)]; [apply rtc_refl|].
    apply rtc_once. by eapply prim_inc.
  - apply IncID_Abort in H as ->. apply rtc_refl.
Qed.

Lemma steady_DecID i : steady (Tracker.DecID i).
Proof.
  intros tr. destruct (Tracker.DecID i tr) as [u tr'|e tr'] eqn:H; simpl.
  - apply DecID_Ok in H as [[_ ->]|(_ & r & r' & Hr & Hc & Hd & ->)]; [apply rtc_refl|].
    apply rtc_once. by eapply prim_dec.
  - apply DecID_Abort in H as ->. apply rtc_refl.
Qed.

Lemma steady_MarkDeleted i : steady (Tracker.MarkDeleted i).
Proof.
  intros tr. destruct (Tracker.MarkDeleted i tr) as [u tr'|e tr'] eqn:H; simpl.
  - apply MarkDeleted_Ok in H as (r & r' & Hr & Hd & ->).
    apply rtc_once. by eapply prim_del.
  - apply MarkDeleted_Abort in H as ->. apply rtc_refl.
Qed.

Lemma steady_IsArrayID i : steady (Tracker.IsArrayID i).
Proof. unfold Tracker.IsArrayID. repeat steady_step. Qed.

Lemma steady_GetIDCount i : steady (Tracker.GetIDCount i).
Proof. unfold Tracker.GetIDCount. repeat steady_step. Qed.

Ltac steady_auto :=
  repeat first
    [ steady_step
    | apply steady_GetCurID | apply steady_GetArrayBytes | apply steady_IsDeleted
    | apply steady_IsActive | apply steady_New | apply steady_NewArray
    | apply steady_IncID | apply steady_DecID | apply steady_MarkDeleted
    | apply steady_IsArrayID | apply steady_GetIDCount
    | match goal with |- steady (match ?x with _ => _ end) => destruct x end ].

Lemma steady_tstep op : steady (tstep op).
Proof. destruct op; simpl; steady_auto. Qed.

Lemma steady_trun ops : steady (trun ops).
Proof. induction ops as [|op ops IH]; simpl; [steady_auto|]. apply steady_bind; [apply steady_tstep|done]. Qed.

Lemma steady_CopyCtor p : steady (Ptr.CopyCtor p).
Proof. unfold Ptr.CopyCtor. steady_auto. Qed.

Lemma steady_MoveCtor p : steady (Ptr.MoveCtor p).
Proof. unfold Ptr.MoveCtor. steady_auto. Qed.

Lemma steady_FromRaw a track : steady (Ptr.FromRaw a track).
Proof. unfold Ptr.FromRaw. steady_auto. Qed.

Lemma steady_FromArray sz a n track : steady (Ptr.FromArray sz a n track).
Proof. unfold Ptr.FromArray. steady_auto. Qed.

Lemma steady_Dtor p : steady (Ptr.Dtor p).
Proof. unfold Ptr.Dtor. steady_auto. Qed.

Lemma steady_PtrNew p mem : steady (Ptr.New p mem).
Proof. unfold Ptr.New. steady_auto. Qed.

Lemma steady_PtrNewArray sz p mem n : steady (Ptr.NewArray sz p mem n).
Proof. unfold Ptr.NewArray. steady_auto. Qed.

Lemma steady_Delete p : steady (Ptr.Delete p).
Proof. unfold Ptr.Delete. steady_auto. Qed.

Lemma steady_DeleteArray p : steady (Ptr.DeleteArray p).
Proof. unfold Ptr.DeleteArray. steady_auto. Qed.

Lemma steady_assign_copy d s : steady (Ptr.assign_copy d s).
Proof. unfold Ptr.assign_copy. steady_auto. Qed.

Lemma steady_assign_move d s : steady (Ptr.assign_move d s).
Proof. unfold Ptr.assign_move. steady_auto. Qed.

Lemma steady_assign_raw d a : steady (Ptr.assign_raw d a).
Proof. unfold Ptr.assign_raw. steady_auto. Qed.

(** The tracker a step leaves behind. *)
Lemma lift_reach {A} (w : World) (m : M A) k :
  steady m ->
  match lift w m k with
  | Next w' => reach (tracker w) (tracker w')
  | Stop _ tr => reach (tracker w) tr
  | NoHandle => True
  end.
Proof.
  intros Hm. unfold lift. specialize (Hm (tracker w)).
  by destruct (m (tracker w)).
Qed.

Lemma step_reach op w :
  match step op w with
  | Next w' => reach (tracker w) (tracker w')
  | Stop _ tr => reach (tracker w) tr
  | NoHandle => True
  end.
Proof.
  destruct op; unfold step, with_handle;
    repeat match goal with
           | |- context [handle_at ?w ?h] => destruct (handle_at w h)
           end; try done; apply lift_reach.
  - apply steady_ret.
  - apply steady_CopyCtor.
  - apply steady_MoveCtor.
  - apply steady_FromRaw.
  - apply steady_FromArray.
  - apply steady_Dtor.
  - apply steady_PtrNew.
  - apply steady_PtrNewArray.
  - apply steady_Delete.
  - apply steady_DeleteArray.
  - apply steady_assign_copy.
  - apply steady_assign_move.
  - apply steady_assign_raw.
Qed.

Lemma run_reach ops : forall w,
  match run ops w with
  | Next w' => reach (tracker w) (tracker w')
  | Stop _ tr => reach (tracker w) tr
  | NoHandle => True
  end.
Proof.
  induction ops as [|op ops IH]; intros w; simpl; [apply rtc_refl|].
  pose proof (step_reach op w) as Hs.
  destruct (step op w) as [w1| |]; [|done|done].
  specialize (IH w1). destruct (run ops w1); [|by etrans|done].
  by etrans.
Qed.

(** ** Records *)

Lemma status_eqb_eq a b : PtrStatus_eqb a b = true <-> a = b.
Proof. destruct a, b; simpl; split; congruence. Qed.

Lemma IsActive_false r : PtrInfo.IsActive r = false <-> PtrInfo.status r = DELETED.
Proof.
  unfold PtrInfo.IsActive. rewrite negb_false_iff. apply status_eqb_eq.
Qed.

Lemma IsActive_true r : PtrInfo.IsActive r = true <-> PtrInfo.status r <> DELETED.
Proof.
  rewrite <- IsActive_false. destruct (PtrInfo.IsActive r); split; congruence.
Qed.

(** [int] arithmetic *)

Lemma int_wrap_range z : (INT_MIN <= int_wrap z <= INT_MAX)%Z.
Proof.
  unfold int_wrap, INT_MIN, INT_MAX.
  pose proof (Z.mod_pos_bound (z + 2147483648) 4294967296). lia.
Qed.

Lemma int_wrap_small z : (INT_MIN <= z <= INT_MAX)%Z -> int_wrap z = z.
Proof.
  unfold int_wrap, INT_MIN, INT_MAX. intros H. rewrite Z.mod_small by lia. lia.
Qed.

Lemma int_wrap_add a b : int_wrap (int_wrap a + b) = int_wrap (a + b).
Proof.
  unfold int_wrap. f_equal.
  replace ((a + 2147483648) mod 4294967296 - 2147483648 + b + 2147483648)%Z
    with ((a + 2147483648) mod 4294967296 + b)%Z by lia.
  rewrite Z.add_mod_idemp_l by lia. f_equal. lia.
Qed.

Lemma int_wrap_idem a : int_wrap (int_wrap a) = int_wrap a.
Proof. apply int_wrap_small, int_wrap_range. Qed.

Lemma Inc_Done r r' :
  PtrInfo.Inc r = Done r' <-> PtrInfo.status r <> DELETED /\ r' = bump r 1.
Proof.
  unfold PtrInfo.Inc. fold (PtrInfo.IsActive r).
  destruct (PtrInfo.IsActive r) eqn:Ha.
  - apply IsActive_true in Ha. split; [by intros [= <-]|by intros [_ ->]].
  - apply IsActive_false in Ha. split; [done|]. by intros [? _].
Qed.

Lemma Dec_Done r r' :
  PtrInfo.Dec r = Done r' <->
  ((1 < PtrInfo.count r)%Z \/ PtrInfo.status r = DELETED) /\ r' = bump r (-1).
Proof.
  unfold PtrInfo.Dec.
  destruct (Z.ltb_spec 1 (PtrInfo.count r)) as [Hc|Hc]; simpl.
  - split; [intros [= <-]; split; [by left|done]|by intros [_ ->]].
  - destruct (PtrStatus_eqb (PtrInfo.status r) DELETED) eqn:Hs.
    + apply status_eqb_eq in Hs.
      split; [intros [= <-]; split; [by right|done]|by intros [_ ->]].
    + split; [done|]. intros [[?|Hd] _]; [lia|].
      apply status_eqb_eq in Hd. congruence.
Qed.

Lemma MarkDeleted_Done r r' :
  PtrInfo.MarkDeleted r = Done r' <->
  PtrInfo.status r <> DELETED /\
  r' = PtrInfo.Build (PtrInfo.ptr r) (PtrInfo.count r) DELETED (PtrInfo.array_bytes r).
Proof.
  unfold PtrInfo.MarkDeleted. fold (PtrInfo.IsActive r).
  destruct (PtrInfo.IsActive r) eqn:Ha.
  - apply IsActive_true in Ha. split; [by intros [= <-]|by intros [_ ->]].
  - apply IsActive_false in Ha. split; [done|]. by intros [? _].
Qed.

(** ** Append-only records, and deleted is final *)

Lemma later_record_refl r : later_record r r.
Proof. by split. Qed.

Lemma later_record_trans r1 r2 r3 :
  later_record r1 r2 -> later_record r2 r3 -> later_record r1 r3.
Proof. intros [? ?] [? ?]. split; [congruence|auto]. Qed.

Lemma grows_refl tr : grows tr tr.
Proof. split; [done|]. intros i r Hr. exists r. split; [done|apply later_record_refl]. Qed.

Lemma grows_trans tr1 tr2 tr3 : grows tr1 tr2 -> grows tr2 tr3 -> grows tr1 tr3.
Proof.
  intros [Hl1 H1] [Hl2 H2]. split; [lia|].
  intros i r Hr. destruct (H1 i r Hr) as (r' & Hr' & L1).
  destruct (H2 i r' Hr') as (r'' & Hr'' & L2).
  exists r''. split; [done|]. by eapply later_record_trans.
Qed.

Lemma upd_grows tr i r r' :
  vec_at (id_info tr) i = Some r -> later_record r r' -> grows tr (upd tr i r').
Proof.
  intros Hr L. split; simpl; [by rewrite vec_set_length|].
  intros j rj Hj. rewrite vec_at_set. case_decide as Hd.
  - destruct Hd as [-> _]. rewrite Hr in Hj. injection Hj as <-. eauto.
  - exists rj. split; [done|apply later_record_refl].
Qed.

Lemma push_grows tr p : grows tr (push tr p).
Proof.
  split; simpl; [rewrite length_app; lia|].
  intros i r Hr. exists r. split; [by apply vec_at_app_Some|apply later_record_refl].
Qed.

Lemma prim_grows tr tr' : prim tr tr' -> grows tr tr'.
Proof.
  destruct 1 as [tr i r r' Hr Hf|tr i r r' Hr Hc Hf|tr i r r' Hr Hf|tr i r b Hr Ha|tr p Hp Hre].
  - apply Inc_Done in Hf as [_ ->]. by eapply upd_grows.
  - apply Dec_Done in Hf as [_ ->]. by eapply upd_grows.
  - apply MarkDeleted_Done in Hf as [_ ->]. by eapply upd_grows.
  - eapply upd_grows; [done|]. split; [done|].
    apply IsActive_true in Ha. simpl. intros ?. done.
  - apply push_grows.
Qed.

Lemma reach_grows tr tr' : reach tr tr' -> grows tr tr'.
Proof.
  induction 1 as [|tr1 tr2 tr3 Hp _ IH]; [apply grows_refl|].
  eapply grows_trans; [by apply prim_grows|done].
Qed.

(** ** Reference counts within bounds *)

Lemma counts_within_le b b' tr : (b <= b')%Z -> counts_within b tr -> counts_within b' tr.
Proof. intros Hle Hc i r Hr. specialize (Hc i r Hr). lia. Qed.

Lemma counts_within_nonneg b tr : counts_within b tr -> counts_nonneg tr.
Proof. intros Hc i r Hr. specialize (Hc i r Hr). lia. Qed.

Lemma empty_counts_within b : counts_within b Tracker.empty.
Proof. intros i r. unfold vec_at. simpl. by destruct (_ <? _). Qed.

Lemma upd_counts_within b tr i r' :
  counts_within b tr -> (0 <= PtrInfo.count r' <= b)%Z -> counts_within b (upd tr i r').
Proof.
  intros Hn Hc j rj. simpl. rewrite vec_at_set. case_decide; [by intros [= <-]|apply Hn].
Qed.

Lemma push_counts_within b tr p :
  (1 <= b)%Z -> counts_within b tr -> counts_within b (push tr p).
Proof.
  intros Hb Hn j rj. simpl. intros Hj.
  destruct (N.lt_ge_cases j (N.of_nat (length (id_info tr)))) as [Hlt|Hge].
  - rewrite vec_at_app_l in Hj by done. by eapply Hn.
  - pose proof (vec_at_lt _ _ _ Hj) as Hlt. rewrite length_app in Hlt. simpl in Hlt.
    assert (j = N.of_nat (length (id_info tr))) as -> by lia.
    rewrite vec_at_app_new in Hj. injection Hj as <-. simpl. lia.
Qed.

Lemma raises_le {A} n n' (m : M A) : (n <= n')%Z -> raises n m -> raises n' m.
Proof.
  intros Hle Hm b tr Hb Hmax Hc.
  eapply (counts_within_le (b + n)); [lia|]. apply Hm; [done|lia|done].
Qed.

Lemma raises_same {A} (m : M A) : (forall tr, final (m tr) = tr) -> raises 0 m.
Proof. intros Hm b tr _ _ Hc. rewrite Hm. by rewrite Z.add_0_r. Qed.

Lemma raises_ret {A} (a : A) : raises 0 (ret a).
Proof. by apply raises_same. Qed.

Lemma raises_assert c msg : raises 0 (emp_assert c msg).
Proof. apply raises_same. intros tr. unfold emp_assert. by destruct c. Qed.

Lemma raises_bind {A B} n k (m : M A) (f : A -> M B) :
  (0 <= n)%Z -> (0 <= k)%Z -> raises n m -> (forall a, raises k (f a)) ->
  raises (n + k) (bind m f).
Proof.
  intros Hn Hk Hm Hf b tr Hb Hmax Hc. unfold bind.
  assert (H1 : counts_within (b + n) (final (m tr))) by (apply Hm; [done|lia|done]).
  destruct (m tr) as [a tr1|e tr1]; simpl in *.
  - rewrite Z.add_assoc. apply Hf; [lia|lia|done].
  - eapply counts_within_le; [|done]. lia.
Qed.

Lemma raises_if {A} n (c : bool) (m1 m2 : M A) :
  raises n m1 -> raises n m2 -> raises n (if c then m1 else m2).
Proof. by destruct c. Qed.

Ltac final_same :=
  intros;
  repeat (match goal with
          | |- context [match ?x with _ => _ end] =>
              lazymatch x with
              | context [match _ with _ => _ end] => fail
              | _ => destruct x eqn:?
              end
          end; simpl);
  reflexivity.

Lemma GetCurID_final p tr : final (Tracker.GetCurID p tr) = tr.
Proof. unfold Tracker.GetCurID, Tracker.HasPtr, bind, emp_assert. final_same. Qed.

Lemma IsDeleted_final i tr : final (Tracker.IsDeleted i tr) = tr.
Proof. unfold Tracker.IsDeleted, bind, info_at, ret. final_same. Qed.

Lemma IsActive_final p tr : final (Tracker.IsActive p tr) = tr.
Proof. unfold Tracker.IsActive, Tracker.GetInfo, bind, info_at, ret. final_same. Qed.

Lemma IsArrayID_final i tr : final (Tracker.IsArrayID i tr) = tr.
Proof. unfold Tracker.IsArrayID, bind, info_at, ret. final_same. Qed.

Lemma GetArrayBytes_final i tr : final (Tracker.GetArrayBytes i tr) = tr.
Proof. unfold Tracker.GetArrayBytes, bind, info_at, ret. final_same. Qed.

Lemma raises_IncID i : raises 1 (Tracker.IncID i).
Proof.
  intros b tr Hb Hmax Hc.
  destruct (Tracker.IncID i tr) as [[] tr'|e tr'] eqn:H; simpl.
  - apply IncID_Ok in H as [[_ ->]|(_ & r & r' & Hr & Hi & ->)].
    + eapply counts_within_le; [|done]. lia.
    + apply Inc_Done in Hi as [_ ->]. specialize (Hc i r Hr) as Hcr.
      apply upd_counts_within; [eapply counts_within_le; [|done]; lia|].
      simpl. unfold INT_MAX in Hmax. rewrite int_wrap_small by (unfold INT_MIN, INT_MAX; lia).
      lia.
  - apply IncID_Abort in H as ->. eapply counts_within_le; [|done]. lia.
Qed.

Lemma raises_DecID i : raises 0 (Tracker.DecID i).
Proof.
  intros b tr Hb Hmax Hc. rewrite Z.add_0_r in *.
  destruct (Tracker.DecID i tr) as [[] tr'|e tr'] eqn:H; simpl.
  - apply DecID_Ok in H as [[_ ->]|(_ & r & r' & Hr & Hpos & Hd & ->)]; [done|].
    apply Dec_Done in Hd as [_ ->]. specialize (Hc i r Hr) as Hcr.
    apply upd_counts_within; [done|].
    simpl. unfold INT_MAX in Hmax. rewrite int_wrap_small by (unfold INT_MIN, INT_MAX; lia).
    lia.
  - by apply DecID_Abort in H as ->.
Qed.

Lemma raises_MarkDeleted i : raises 0 (Tracker.MarkDeleted i).
Proof.
  intros b tr Hb Hmax Hc. rewrite Z.add_0_r in *.
  destruct (Tracker.MarkDeleted i tr) as [[] tr'|e tr'] eqn:H; simpl.
  - apply MarkDeleted_Ok in H as (r & r' & Hr & Hd & ->).
    apply MarkDeleted_Done in Hd as [_ ->]. specialize (Hc i r Hr) as Hcr.
    by apply upd_counts_within.
  - by apply MarkDeleted_Abort in H as ->.
Qed.

Lemma raises_New p : raises 0 (Tracker.New p).
Proof.
  intros b tr Hb Hmax Hc. rewrite Z.add_0_r in *.
  destruct (Tracker.New p tr) as [i tr'|e tr'] eqn:H; simpl.
  - apply New_Ok in H as (_ & _ & _ & ->). by apply push_counts_within.
  - by apply New_Abort in H as ->.
Qed.

Lemma raises_NewArray p bytes : raises 0 (Tracker.NewArray p bytes).
Proof.
  intros b tr Hb Hmax Hc. rewrite Z.add_0_r in *.
  destruct (Tracker.NewArray p bytes tr) as [i tr'|e tr'] eqn:H; simpl.
  - apply NewArray_Ok in H as (_ & _ & _ & ->).
    apply upd_counts_within; [by apply push_counts_within|]. simpl. lia.
  - by apply NewArray_Abort in H as ->.
Qed.

Lemma raises_tstep op : raises 1 (tstep op).
Proof.
  destruct op; simpl.
  - apply (raises_le 0); [lia|]. apply (raises_bind 0 0); [lia|lia|apply raises_New|].
    intros _. apply raises_ret.
  - apply (raises_le 0); [lia|]. apply (raises_bind 0 0); [lia|lia|apply raises_NewArray|].
    intros _. apply raises_ret.
  - apply raises_IncID.
  - apply (raises_le 0); [lia|]. apply raises_DecID.
  - apply (raises_le 0); [lia|]. apply raises_MarkDeleted.
Qed.

Lemma raises_trun ops : raises (Z.of_nat (length ops)) (trun ops).
Proof.
  induction ops as [|op ops IH]; [apply raises_ret|].
  cbn [trun length]. rewrite Nat2Z.inj_succ, <- Z.add_1_l.
  apply raises_bind; [lia|lia|apply raises_tstep|by intros _].
Qed.

(** The handle operations: each raises a count at most once. *)

Lemma raises_link a : raises 1
  (let* i := Tracker.GetCurID a in Tracker.IncID i >> ret (Ptr.Build a i)).
Proof.
  apply (raises_bind 0 1); [lia|lia|apply raises_same, GetCurID_final|].
  intros i. apply (raises_bind 1 0); [lia|lia|apply raises_IncID|].
  intros _. apply raises_ret.
Qed.

Lemma raises_CopyCtor p : raises 1 (Ptr.CopyCtor p).
Proof.
  apply (raises_bind 1 0); [lia|lia|apply raises_IncID|]. intros _. apply raises_ret.
Qed.

Lemma raises_FromRaw a track : raises 1 (Ptr.FromRaw a track).
Proof.
  apply (raises_bind 0 1); [lia|lia|apply raises_same, IsActive_final|].
  intros act. apply raises_if; [apply raises_link|]. apply (raises_le 0); [lia|].
  apply raises_if; [|apply raises_ret].
  apply (raises_bind 0 0); [lia|lia|apply raises_New|]. intros i. apply raises_ret.
Qed.

Lemma raises_FromArray sz a n track : raises 1 (Ptr.FromArray sz a n track).
Proof.
  apply (raises_bind 0 1); [lia|lia|apply raises_same, IsActive_final|].
  intros act. apply raises_if.
  - apply (raises_bind 0 1); [lia|lia|apply raises_same, GetCurID_final|].
    intros i. apply (raises_bind 1 0); [lia|lia|apply raises_IncID|].
    intros _. apply (raises_bind 0 0); [lia|lia|apply raises_same, GetArrayBytes_final|].
    intros bytes. apply (raises_bind 0 0); [lia|lia|apply raises_assert|].
    intros _. apply raises_ret.
  - apply (raises_le 0); [lia|]. apply raises_if; [|apply raises_ret].
    apply (raises_bind 0 0); [lia|lia|apply raises_NewArray|]. intros i. apply raises_ret.
Qed.

Lemma raises_PtrNew p mem : raises 0 (Ptr.New p mem).
Proof.
  apply (raises_bind 0 0); [lia|lia|apply raises_DecID|]. intros _.
  apply (raises_bind 0 0); [lia|lia|apply raises_New|]. intros i. apply raises_ret.
Qed.

Lemma raises_PtrNewArray sz p mem n : raises 0 (Ptr.NewArray sz p mem n).
Proof.
  apply (raises_bind 0 0); [lia|lia|apply raises_DecID|]. intros _.
  apply (raises_bind 0 0); [lia|lia|apply raises_NewArray|]. intros i. apply raises_ret.
Qed.

Lemma raises_Delete p : raises 0 (Ptr.Delete p).
Proof.
  apply (raises_bind 0 0); [lia|lia|by apply raises_same|]. intros n.
  apply (raises_bind 0 0); [lia|lia|apply raises_assert|]. intros _.
  apply (raises_bind 0 0); [lia|lia|apply raises_assert|]. intros _.
  apply (raises_bind 0 0); [lia|lia|apply raises_same, IsArrayID_final|]. intros arr.
  apply (raises_bind 0 0); [lia|lia|apply raises_assert|]. intros _.
  apply raises_MarkDeleted.
Qed.

Lemma raises_DeleteArray p : raises 0 (Ptr.DeleteArray p).
Proof.
  apply (raises_bind 0 0); [lia|lia|by apply raises_same|]. intros n.
  apply (raises_bind 0 0); [lia|lia|apply raises_assert|]. intros _.
  apply (raises_bind 0 0); [lia|lia|apply raises_assert|]. intros _.
  apply (raises_bind 0 0); [lia|lia|apply raises_same, IsArrayID_final|]. intros arr.
  apply (raises_bind 0 0); [lia|lia|apply raises_assert|]. intros _.
  apply raises_MarkDeleted.
Qed.

Lemma raises_assign_copy d s : raises 1 (Ptr.assign_copy d s).
Proof.
  apply (raises_bind 0 1); [lia|lia|apply raises_same, IsDeleted_final|]. intros del.
  apply (raises_bind 0 1); [lia|lia|apply raises_assert|]. intros _.
  apply raises_if; [|apply (raises_le 0); [lia|apply raises_ret]].
  apply (raises_bind 0 1); [lia|lia|apply raises_DecID|]. intros _.
  apply (raises_bind 1 0); [lia|lia|apply raises_IncID|]. intros _. apply raises_ret.
Qed.

Lemma raises_assign_move d s : raises 0 (Ptr.assign_move d s).
Proof.
  apply (raises_bind 0 0); [lia|lia|apply raises_same, IsDeleted_final|]. intros del.
  apply (raises_bind 0 0); [lia|lia|apply raises_assert|]. intros _.
  apply raises_if; [|apply raises_ret].
  apply (raises_bind 0 0); [lia|lia|apply raises_DecID|]. intros _. apply raises_ret.
Qed.

Lemma raises_assign_raw d a : raises 1 (Ptr.assign_raw d a).
Proof.
  apply (raises_bind 0 1); [lia|lia|apply raises_DecID|]. intros _.
  apply (raises_bind 0 1); [lia|lia|apply raises_same, IsActive_final|]. intros act.
  apply raises_if; [apply raises_link|]. apply (raises_le 0); [lia|apply raises_ret].
Qed.

Lemma lift_holds_after {A} w (m : M A) k (P : PtrTracker -> Prop) :
  P (final (m (tracker w))) -> holds_after (lift w m k) P.
Proof. unfold lift. by destruct (m (tracker w)). Qed.

Lemma with_handle_holds_after w h k (P : PtrTracker -> Prop) :
  (forall p, holds_after (k p) P) -> holds_after (with_handle w h k) P.
Proof. intros Hk. unfold with_handle. by destruct (handle_at w h). Qed.

Lemma step_counts_within op w b :
  (1 <= b)%Z -> (b + 1 <= INT_MAX)%Z -> counts_within b (tracker w) ->
  holds_after (step op w) (counts_within (b + 1)).
Proof.
  intros Hb Hmax Hc.
  assert (H0 : forall A (m : M A), raises 0 m ->
            counts_within (b + 1) (final (m (tracker w)))).
  { intros A m Hm. eapply (counts_within_le (b + 0)); [lia|]. apply Hm; [done|lia|done]. }
  assert (H1 : forall A (m : M A), raises 1 m ->
            counts_within (b + 1) (final (m (tracker w)))).
  { intros A m Hm. by apply Hm. }
  destruct op; unfold step;
    repeat (apply with_handle_holds_after; intros ?); apply lift_holds_after.
  - apply H0, raises_ret.
  - apply H1, raises_CopyCtor.
  - apply H0, raises_ret.
  - apply H1, raises_FromRaw.
  - apply H1, raises_FromArray.
  - apply H0, raises_DecID.
  - apply H0, raises_PtrNew.
  - apply H0, raises_PtrNewArray.
  - apply H0, raises_Delete.
  - apply H0, raises_DeleteArray.
  - apply H1, raises_assign_copy.
  - apply H0, raises_assign_move.
  - apply H1, raises_assign_raw.
Qed.

Lemma run_counts_within ops : forall w b,
  (1 <= b)%Z -> (b + Z.of_nat (length ops) <= INT_MAX)%Z -> counts_within b (tracker w) ->
  holds_after (run ops w) (counts_within (b + Z.of_nat (length ops))).
Proof.
  induction ops as [|op ops IH]; intros w b Hb Hmax Hc.
  - simpl. by rewrite Z.add_0_r.
  - cbn [run length] in *. rewrite Nat2Z.inj_succ in *.
    pose proof (step_counts_within op w b Hb ltac:(lia) Hc) as Hs.
    destruct (step op w) as [w1|e tr1|]; simpl in Hs; [| |done].
    + replace (b + Z.succ (Z.of_nat (length ops)))%Z
        with (b + 1 + Z.of_nat (length ops))%Z by lia.
      apply IH; [lia|lia|done].
    + simpl. eapply counts_within_le; [|done]. lia.
Qed.

Lemma run_holds_after ops w (P : PtrTracker -> Prop) :
  (forall tr', reach (tracker w) tr' -> P tr') -> holds_after (run ops w) P.
Proof.
  intros HP. pose proof (run_reach ops w) as H. unfold holds_after.
  destruct (run ops w); auto.
Qed.

Lemma grows_deleted_at tr tr' i : grows tr tr' -> deleted_at tr i -> deleted_at tr' i.
Proof.
  intros [_ Hg] (r & Hr & Hd). destruct (Hg i r Hr) as (r' & Hr' & _ & Hs).
  exists r'. auto.
Qed.

(** ** C1: once deleted, never active again *)

(** C1, as the code has it.  For the record operations [Inc], [Dec] and
    [MarkDeleted]: on a deleted record [MarkDeleted] and [Inc] fail, and [Dec]
    leaves the status alone.  For the registry: whatever sequence of tracker
    calls, and whatever program over handles, runs next, a record that is
    deleted stays in place and stays deleted.  ([PtrInfo::SetArray] is not in
    this list: it overwrites the status, and the tracker applies it only to
    the record [NewArray] has just created.) *)
Theorem deleted_is_final :
  (forall r, PtrInfo.status r = DELETED ->
     PtrInfo.MarkDeleted r = Failed (AssertFail "Deleting same emp::Ptr a second time!") /\
     PtrInfo.Inc r = Failed (AssertFail "Incrementing deleted pointer!") /\
     (forall r', PtrInfo.Dec r = Done r' -> PtrInfo.status r' = DELETED)) /\
  (forall r r', PtrInfo.Inc r = Done r' \/ PtrInfo.Dec r = Done r' ->
     PtrInfo.status r' = PtrInfo.status r) /\
  (forall ops tr i, deleted_at tr i -> deleted_at (final (trun ops tr)) i) /\
  (forall ops w i, deleted_at (tracker w) i ->
     holds_after (run ops w) (fun tr' => deleted_at tr' i)).
Proof.
  split; [|split; [|split]].
  - intros r Hd. split; [|split].
    + unfold PtrInfo.MarkDeleted. by rewrite Hd.
    + unfold PtrInfo.Inc. by rewrite Hd.
    + intros r' H. apply Dec_Done in H as [_ ->]. done.
  - intros r r' [H|H].
    + apply Inc_Done in H as [_ ->]. done.
    + apply Dec_Done in H as [_ ->]. done.
  - intros ops tr i Hd. eapply grows_deleted_at; [|done].
    apply reach_grows, steady_trun.
  - intros ops w i Hd. apply run_holds_after. intros tr' Hr.
    eapply grows_deleted_at; [|done]. by apply reach_grows.
Qed.

(** C1 as stated fails at the record level: [SetArray] on a deleted record
    makes it active again. *)
Lemma SetArray_revives_deleted :
  PtrInfo.MarkDeleted (PtrInfo.New 256) = Done (PtrInfo.Build 256 1 DELETED 0) /\
  PtrInfo.IsActive (PtrInfo.Build 256 1 DELETED 0) = false /\
  PtrInfo.IsActive (PtrInfo.SetArray 8 (PtrInfo.Build 256 1 DELETED 0)) = true.
Proof. repeat split. Qed.

Lemma deleted_is_final_witness :
  deleted_at
    (final (trun [TNew 256; TIncID 1; TDecID 0]
              {| ptr_id := {[ 256 := 0 ]};
                 id_info := [PtrInfo.Build 256 1 DELETED 0] |})) 0.
Proof.
  apply (proj1 (proj2 (proj2 deleted_is_final))).
  exists (PtrInfo.Build 256 1 DELETED 0). split; reflexivity.
Defined.

(** ** C3: address reuse, and the append-only record vector *)

(** C3.  Registering an address, marking the record deleted and registering
    the address again gives a second id different from the first; the first
    record is still there, for the same address, deleted, and stays so under
    any further tracker calls.  A registration always takes an id that no
    record has yet.  Over any sequence of tracker calls and any program over
    handles the record vector only grows: no record is removed or moved, and
    the number of records never decreases. *)
Theorem reuse_gets_new_id :
  (forall tr A id1 tr1,
     Tracker.New A tr = Ok id1 tr1 -> size_ok tr1 ->
     exists tr2 tr3 id2 r,
       Tracker.MarkDeleted id1 tr1 = Ok tt tr2 /\
       Tracker.New A tr2 = Ok id2 tr3 /\
       id2 <> id1 /\
       vec_at (id_info tr3) id1 = Some r /\
       PtrInfo.ptr r = A /\ PtrInfo.status r = DELETED /\
       forall ops, deleted_at (final (trun ops tr3)) id1) /\
  (forall tr A i tr',
     Tracker.New A tr = Ok i tr' ->
     vec_at (id_info tr) i = None /\ vec_at (id_info tr') i = Some (PtrInfo.New A)) /\
  (forall ops tr, grows tr (final (trun ops tr))) /\
  (forall ops w, holds_after (run ops w) (grows (tracker w))).
Proof.
  split; [|split; [|split]].
  - intros tr A id1 tr1 Hnew Hsz.
    apply New_Ok in Hnew as (HA & Hre & -> & ->).
    set (n := N.of_nat (length (id_info tr))).
    set (d := PtrInfo.Build A 1 DELETED 0).
    assert (Hn : n < UNTRACKED).
    { unfold size_ok in Hsz. simpl in Hsz. rewrite length_app in Hsz. simpl in Hsz. lia. }
    assert (Hmd : Tracker.MarkDeleted n (push tr A) = Ok tt (upd (push tr A) n d)).
    { apply MarkDeleted_Ok. exists (PtrInfo.New A), d. split; [apply push_at_new|done]. }
    assert (Hat : vec_at (id_info (upd (push tr A) n d)) n = Some d).
    { simpl. apply vec_at_set_eq. rewrite length_app. simpl. lia. }
    exists (upd (push tr A) n d), (push (upd (push tr A) n d) A),
      (N.of_nat (length (id_info (upd (push tr A) n d)))), d.
    split; [done|]. split.
    { apply New_Ok. split; [done|]. split; [|done].
      intros i Hi. simpl in Hi. rewrite lookup_insert_eq in Hi. injection Hi as <-.
      split; [lia|]. exists d. done. }
    split.
    { simpl. rewrite vec_set_length, length_app. simpl. lia. }
    assert (Hat3 : vec_at (id_info (push (upd (push tr A) n d) A)) n = Some d)
      by by apply vec_at_app_Some.
    split; [done|]. split; [done|]. split; [done|].
    intros ops. eapply grows_deleted_at; [apply reach_grows, steady_trun|].
    by exists d.
  - intros tr A i tr' Hnew. apply New_Ok in Hnew as (_ & _ & -> & ->).
    split; [by apply vec_at_none|apply push_at_new].
  - intros ops tr. apply reach_grows, steady_trun.
  - intros ops w. apply run_holds_after. intros tr'. apply reach_grows.
Qed.

Lemma reuse_gets_new_id_witness :
  exists tr2 tr3 id2 r,
    Tracker.MarkDeleted 0 (push Tracker.empty 256) = Ok tt tr2 /\
    Tracker.New 256 tr2 = Ok id2 tr3 /\
    id2 <> 0 /\
    vec_at (id_info tr3) 0 = Some r /\
    PtrInfo.ptr r = 256 /\ PtrInfo.status r = DELETED /\
    forall ops, deleted_at (final (trun ops tr3)) 0.
Proof.
  apply (proj1 reuse_gets_new_id Tracker.empty 256 0 (push Tracker.empty 256)).
  - reflexivity.
  - unfold size_ok. simpl. unfold UNTRACKED. lia.
Defined.

(** ** C4: the decrement guard *)

(** C4.  [Dec] on a record succeeds exactly when the count is above one or
    the record is deleted, and fails otherwise with its message; where it
    succeeds on a count that [count--] does not overflow, it lowers the
    count by exactly one.  [DecID] does nothing for the untracked id.  For
    any other id with a record it stops without a change when the count is
    not positive, it stops whenever [Dec] on that record fails (with [Dec]'s
    message when the count is positive), and it returns exactly when the
    count is positive and [Dec] succeeds: the record is then replaced by the
    result of [Dec], whose count is one less and not negative.  Through
    tracker calls and through programs over handles no count becomes
    negative as long as no [count++] overflows: from counts between [0] and
    [b], [n] operations with [b + n <= INT_MAX] leave every count between
    [0] and [b + n], whether the run returns or is stopped. *)
Theorem decrement_guard :
  (forall r, (exists r', PtrInfo.Dec r = Done r') <->
             ((1 < PtrInfo.count r)%Z \/ PtrInfo.status r = DELETED)) /\
  (forall r, ~ ((1 < PtrInfo.count r)%Z \/ PtrInfo.status r = DELETED) ->
             PtrInfo.Dec r = Failed (AssertFail "Removing last reference to owned Ptr!")) /\
  (forall r r', PtrInfo.Dec r = Done r' ->
             (INT_MIN < PtrInfo.count r <= INT_MAX)%Z ->
             PtrInfo.count r' = (PtrInfo.count r - 1)%Z) /\
  (forall tr, Tracker.DecID UNTRACKED tr = Ok tt tr) /\
  (forall tr i r, i <> UNTRACKED -> vec_at (id_info tr) i = Some r ->
     ((PtrInfo.count r <= 0)%Z ->
        Tracker.DecID i tr = Abort (AssertFail "Decrementing Ptr, but already zero!") tr) /\
     (forall e, PtrInfo.Dec r = Failed e -> exists e', Tracker.DecID i tr = Abort e' tr) /\
     (forall e, (0 < PtrInfo.count r)%Z -> PtrInfo.Dec r = Failed e ->
                Tracker.DecID i tr = Abort e tr) /\
     (forall r', (0 < PtrInfo.count r)%Z -> PtrInfo.Dec r = Done r' ->
                Tracker.DecID i tr = Ok tt (upd tr i r')) /\
     (forall tr', Tracker.DecID i tr = Ok tt tr' ->
                (0 < PtrInfo.count r)%Z /\
                exists r', PtrInfo.Dec r = Done r' /\ tr' = upd tr i r' /\
                  ((PtrInfo.count r <= INT_MAX)%Z ->
                   PtrInfo.count r' = (PtrInfo.count r - 1)%Z /\
                   (0 <= PtrInfo.count r')%Z))) /\
  (forall ops b tr,
     (1 <= b)%Z -> (b + Z.of_nat (length ops) <= INT_MAX)%Z -> counts_within b tr ->
     counts_within (b + Z.of_nat (length ops)) (final (trun ops tr))) /\
  (forall ops,
     (1 + Z.of_nat (length ops) <= INT_MAX)%Z ->
     holds_after (run ops start) (counts_within (1 + Z.of_nat (length ops)))).
Proof.
  split; [|split; [|split; [|split; [|split; [|split]]]]].
  - intros r. split.
    + intros [r' H]. by apply Dec_Done in H as [? _].
    + intros H. eexists. apply Dec_Done. done.
  - intros r Hn. unfold PtrInfo.Dec.
    destruct (Z.ltb_spec 1 (PtrInfo.count r)) as [?|_]; [exfalso; auto|].
    destruct (PtrStatus_eqb _ _) eqn:Hs; [|done].
    apply status_eqb_eq in Hs. exfalso. auto.
  - intros r r' H Hc. apply Dec_Done in H as [_ ->]. simpl.
    apply int_wrap_small. unfold INT_MIN, INT_MAX in *. lia.
  - done.
  - intros tr i r Hi Hr.
    assert (Hrun : Tracker.DecID i tr =
              if (0 <? PtrInfo.count r)%Z then
                match PtrInfo.Dec r with
                | Done r' => Ok tt (upd tr i r')
                | Failed e => Abort e tr
                end
              else Abort (AssertFail "Decrementing Ptr, but already zero!") tr).
    { unfold Tracker.DecID. apply N.eqb_neq in Hi. rewrite Hi.
      unfold bind, info_at, emp_assert, info_call, PtrInfo.GetCount. rewrite Hr.
      destruct (0 <? _)%Z; [|done]. rewrite Hr. by destruct (PtrInfo.Dec r). }
    split; [|split; [|split; [|split]]].
    + intros Hc. rewrite Hrun. apply Z.ltb_ge in Hc. by rewrite Hc.
    + intros e He. rewrite Hrun, He. destruct (0 <? _)%Z; eauto.
    + intros e Hc He. rewrite Hrun, He. apply Z.ltb_lt in Hc. by rewrite Hc.
    + intros r' Hc Hd. rewrite Hrun, Hd. apply Z.ltb_lt in Hc. by rewrite Hc.
    + intros tr' H. rewrite Hrun in H.
      destruct (Z.ltb_spec 0 (PtrInfo.count r)) as [Hc|Hc]; [|done].
      split; [done|]. destruct (PtrInfo.Dec r) as [r'|e] eqn:Hd; [|done].
      injection H as <-. exists r'. split; [done|]. split; [done|].
      intros Hmax. apply Dec_Done in Hd as [_ ->]. simpl.
      rewrite int_wrap_small by (unfold INT_MIN, INT_MAX in *; lia). lia.
  - intros ops b tr. apply raises_trun.
  - intros ops Hmax. apply run_counts_within; [lia|done|apply empty_counts_within].
Qed.

Lemma decrement_guard_witness :
  counts_within (1 + Z.of_nat 5)
    (final (trun [TNew 256; TIncID 0; TDecID 0; TMarkDeleted 0; TDecID 0] Tracker.empty)).
Proof.
  apply (proj1 (proj2 (proj2 (proj2 (proj2 (proj2 decrement_guard)))))
           [TNew 256; TIncID 0; TDecID 0; TMarkDeleted 0; TDecID 0] 1%Z Tracker.empty).
  - lia.
  - unfold INT_MAX. simpl. lia.
  - intros i r. unfold vec_at. simpl. destruct (_ <? _); discriminate.
Defined.

(** ** C8: scalar and array release *)

Ltac abort_same :=
  repeat (match goal with
          | |- context [if ?b then _ else _] => destruct b eqn:?
          | |- context [match vec_at ?v ?i with _ => _ end] => destruct (vec_at v i) eqn:?
          | |- context [match PtrInfo.MarkDeleted ?r with _ => _ end] =>
              destruct (PtrInfo.MarkDeleted r) eqn:?
          end; simpl); congruence.

Lemma Delete_Abort self tr e tr' : Ptr.Delete self tr = Abort e tr' -> tr' = tr.
Proof.
  unfold Ptr.Delete, bind, Tracker.GetNumIDs, emp_assert, Tracker.IsArrayID, bind,
    info_at, ret, Tracker.MarkDeleted, info_call.
  abort_same.
Qed.

Lemma DeleteArray_Abort self tr e tr' : Ptr.DeleteArray self tr = Abort e tr' -> tr' = tr.
Proof.
  unfold Ptr.DeleteArray, bind, Tracker.GetNumIDs, emp_assert, Tracker.IsArrayID, bind,
    info_at, ret, Tracker.MarkDeleted, info_call.
  abort_same.
Qed.

Lemma IsArrayID_Ok i tr b tr' :
  Tracker.IsArrayID i tr = Ok b tr' <->
  tr' = tr /\ exists r, vec_at (id_info tr) i = Some r /\ b = PtrInfo.IsArray r.
Proof.
  unfold Tracker.IsArrayID, bind, info_at, ret.
  destruct (vec_at _ _) as [r|]; split.
  - intros [= <- <-]. eauto.
  - by intros [-> (? & [= <-] & ->)].
  - done.
  - by intros [_ (? & ? & _)].
Qed.

Lemma GetArrayBytes_Ok i tr b tr' :
  Tracker.GetArrayBytes i tr = Ok b tr' <->
  tr' = tr /\ exists r, vec_at (id_info tr) i = Some r /\ b = PtrInfo.array_bytes r.
Proof.
  unfold Tracker.GetArrayBytes, bind, info_at, ret.
  destruct (vec_at _ _) as [r|]; split.
  - intros [= <- <-]. eauto.
  - by intros [-> (? & [= <-] & ->)].
  - done.
  - by intros [_ (? & ? & _)].
Qed.

Lemma Delete_Ok self tr u tr' :
  Ptr.Delete self tr = Ok u tr' <->
  Ptr.ptr self <> 0 /\
  exists r, vec_at (id_info tr) (Ptr.id self) = Some r /\
            PtrInfo.status r = ACTIVE /\ tr' = upd tr (Ptr.id self) (mark r).
Proof.
  unfold Ptr.Delete. split.
  - intros H. inv_run.
    apply IsArrayID_Ok in Hrun2 as [-> (r & Hr & ->)].
    apply MarkDeleted_Ok in H as (r0 & r' & Hr0 & Hm & ->).
    rewrite Hr in Hr0. injection Hr0 as <-.
    apply MarkDeleted_Done in Hm as [Hs ->].
    match goal with H : negb (Ptr.ptr self =? 0) = true |- _ =>
      apply negb_true_iff, N.eqb_neq in H end.
    split; [done|]. exists r. split; [done|]. split; [|done].
    unfold PtrInfo.IsArray in *. by destruct (PtrInfo.status r).
  - intros (Hp & r & Hr & Hs & ->).
    pose proof (vec_at_lt _ _ _ Hr) as Hlt. apply N.ltb_lt in Hlt.
    apply N.eqb_neq in Hp.
    unfold bind, Tracker.GetNumIDs, emp_assert, Tracker.IsArrayID, bind, info_at, ret,
      Tracker.MarkDeleted, info_call.
    rewrite Hlt, Hp. simpl. rewrite Hr. unfold PtrInfo.IsArray, PtrInfo.MarkDeleted.
    rewrite Hs. simpl. rewrite Hr, Hs. by destruct u.
Qed.

Lemma DeleteArray_Ok self tr u tr' :
  Ptr.DeleteArray self tr = Ok u tr' <->
  Ptr.ptr self <> 0 /\
  exists r, vec_at (id_info tr) (Ptr.id self) = Some r /\
            PtrInfo.status r = ARRAY /\ tr' = upd tr (Ptr.id self) (mark r).
Proof.
  unfold Ptr.DeleteArray. split.
  - intros H. inv_run.
    apply IsArrayID_Ok in Hrun2 as [-> (r & Hr & Harr)].
    apply MarkDeleted_Ok in H as (r0 & r' & Hr0 & Hm & ->).
    rewrite Hr in Hr0. injection Hr0 as <-.
    apply MarkDeleted_Done in Hm as [Hs ->].
    match goal with H : negb (Ptr.ptr self =? 0) = true |- _ =>
      apply negb_true_iff, N.eqb_neq in H end.
    split; [done|]. exists r. split; [done|]. split; [|done].
    symmetry in Harr. by apply status_eqb_eq in Harr.
  - intros (Hp & r & Hr & Hs & ->).
    pose proof (vec_at_lt _ _ _ Hr) as Hlt. apply N.ltb_lt in Hlt.
    apply N.eqb_neq in Hp.
    unfold bind, Tracker.GetNumIDs, emp_assert, Tracker.IsArrayID, bind, info_at, ret,
      Tracker.MarkDeleted, info_call.
    rewrite Hlt, Hp. simpl. rewrite Hr. unfold PtrInfo.IsArray, PtrInfo.MarkDeleted.
    rewrite Hs. simpl. rewrite Hr, Hs. by destruct u.
Qed.

(** C8.  [Delete()] returns exactly when the handle's address is not null and
    its id has a record whose status is [ACTIVE] (tracked, active, not an
    array); [DeleteArray()] exactly when the address is not null and the
    record's status is [ARRAY].  So [Delete()] on an array record and
    [DeleteArray()] on a record that is not an array both fail.  Whenever
    either call fails, the tracker is exactly as it was before the call: no
    status and no count has changed.  When a call returns, the record has
    become deleted and its count is unchanged. *)
Theorem release_mismatch_rejected (self : Ptr.t) (tr : PtrTracker) :
  (forall r, vec_at (id_info tr) (Ptr.id self) = Some r -> PtrInfo.IsArray r = true ->
     exists e, Ptr.Delete self tr = Abort e tr) /\
  (forall r, vec_at (id_info tr) (Ptr.id self) = Some r -> PtrInfo.IsArray r = false ->
     exists e, Ptr.DeleteArray self tr = Abort e tr) /\
  (forall e tr', Ptr.Delete self tr = Abort e tr' -> tr' = tr) /\
  (forall e tr', Ptr.DeleteArray self tr = Abort e tr' -> tr' = tr) /\
  (forall tr', Ptr.Delete self tr = Ok tt tr' <->
     Ptr.ptr self <> 0 /\
     exists r, vec_at (id_info tr) (Ptr.id self) = Some r /\
               PtrInfo.status r = ACTIVE /\ tr' = upd tr (Ptr.id self) (mark r)) /\
  (forall tr', Ptr.DeleteArray self tr = Ok tt tr' <->
     Ptr.ptr self <> 0 /\
     exists r, vec_at (id_info tr) (Ptr.id self) = Some r /\
               PtrInfo.status r = ARRAY /\ tr' = upd tr (Ptr.id self) (mark r)).
Proof.
  split; [|split; [|split; [|split; [|split]]]].
  - intros r Hr Ha. destruct (Ptr.Delete self tr) as [[] tr'|e tr'] eqn:H.
    + apply Delete_Ok in H as (_ & r0 & Hr0 & Hs & _).
      rewrite Hr in Hr0. injection Hr0 as <-.
      unfold PtrInfo.IsArray in Ha. by rewrite Hs in Ha.
    + pose proof (Delete_Abort _ _ _ _ H) as ->. eauto.
  - intros r Hr Ha. destruct (Ptr.DeleteArray self tr) as [[] tr'|e tr'] eqn:H.
    + apply DeleteArray_Ok in H as (_ & r0 & Hr0 & Hs & _).
      rewrite Hr in Hr0. injection Hr0 as <-.
      unfold PtrInfo.IsArray in Ha. by rewrite Hs in Ha.
    + pose proof (DeleteArray_Abort _ _ _ _ H) as ->. eauto.
  - apply Delete_Abort.
  - apply DeleteArray_Abort.
  - intros tr'. apply Delete_Ok.
  - intros tr'. apply DeleteArray_Ok.
Qed.

Lemma release_mismatch_rejected_witness :
  (exists e, Ptr.Delete (Ptr.Build 256 0)
               {| ptr_id := {[ 256 := 0 ]}; id_info := [PtrInfo.Build 256 1 ARRAY 8] |}
             = Abort e {| ptr_id := {[ 256 := 0 ]}; id_info := [PtrInfo.Build 256 1 ARRAY 8] |}) /\
  (exists e, Ptr.DeleteArray (Ptr.Build 256 0)
               {| ptr_id := {[ 256 := 0 ]}; id_info := [PtrInfo.Build 256 1 ACTIVE 0] |}
             = Abort e {| ptr_id := {[ 256 := 0 ]}; id_info := [PtrInfo.Build 256 1 ACTIVE 0] |}).
Proof.
  split.
  - apply (proj1 (release_mismatch_rejected (Ptr.Build 256 0)
             {| ptr_id := {[ 256 := 0 ]}; id_info := [PtrInfo.Build 256 1 ARRAY 8] |})
             (PtrInfo.Build 256 1 ARRAY 8)); reflexivity.
  - apply (proj1 (proj2 (release_mismatch_rejected (Ptr.Build 256 0)
             {| ptr_id := {[ 256 := 0 ]}; id_info := [PtrInfo.Build 256 1 ACTIVE 0] |}))
             (PtrInfo.Build 256 1 ACTIVE 0)); reflexivity.
Defined.

(** ** C9: indexing *)







(** Outside the theorem above: the product [pos * sizeof(TYPE)] is computed
    in [size_t], so for an array of two 4-byte elements the position [2^62]
    has byte offset [0] and passes the range assertion. *)
Lemma index_offset_overflow :
  Ptr.index 4 (Ptr.Build 256 0) (2 ^ 62)
    {| ptr_id := {[ 256 := 0 ]}; id_info := [PtrInfo.Build 256 1 ARRAY 8] |}
  = Ok tt {| ptr_id := {[ 256 := 0 ]}; id_info := [PtrInfo.Build 256 1 ARRAY 8] |}.
Proof. vm_compute. reflexivity. Qed.

(** ** C10: the untracked id in the id-based queries *)

(** C10.  In a tracker whose size fits a [size_t], [IsArrayID],
    [GetArrayBytes], [GetIDCount] and [MarkDeleted] called with the untracked
    id read the record vector out of range, whereas [IncID] and [DecID] do
    nothing and [IsDeleted] answers [false].  Indexing through an untracked
    handle passes the [IsDeleted] check and then reaches that out-of-range
    read in [IsArrayID]. *)
Theorem untracked_id_out_of_range (tr : PtrTracker) (Hsize : size_ok tr) :
  Tracker.IsArrayID UNTRACKED tr = Abort (OutOfRange UNTRACKED) tr /\
  Tracker.GetArrayBytes UNTRACKED tr = Abort (OutOfRange UNTRACKED) tr /\
  Tracker.GetIDCount UNTRACKED tr = Abort (OutOfRange UNTRACKED) tr /\
  Tracker.MarkDeleted UNTRACKED tr = Abort (OutOfRange UNTRACKED) tr /\
  Tracker.IncID UNTRACKED tr = Ok tt tr /\
  Tracker.DecID UNTRACKED tr = Ok tt tr /\
  Tracker.IsDeleted UNTRACKED tr = Ok false tr /\
  (forall sz p pos,
     Ptr.index sz (Ptr.Build p UNTRACKED) pos tr = Abort (OutOfRange UNTRACKED) tr).
Proof.
  assert (Hnone : vec_at (id_info tr) UNTRACKED = None) by by apply vec_at_none.
  unfold Tracker.IsArrayID, Tracker.GetArrayBytes, Tracker.GetIDCount,
    Tracker.MarkDeleted, Ptr.index, Tracker.IsDeleted, Tracker.IsArrayID,
    bind, info_at, info_call, emp_assert, ret.
  simpl. rewrite Hnone. repeat split.
Qed.

Lemma untracked_id_out_of_range_witness :
  Tracker.IsArrayID UNTRACKED (push Tracker.empty 256)
    = Abort (OutOfRange UNTRACKED) (push Tracker.empty 256) /\
  Ptr.index 4 (Ptr.Build 512 UNTRACKED) 0 (push Tracker.empty 256)
    = Abort (OutOfRange UNTRACKED) (push Tracker.empty 256).
Proof.
  assert (Hsize : size_ok (push Tracker.empty 256)).
  { unfold size_ok, UNTRACKED. simpl. lia. }
  split.
  - apply (proj1 (untracked_id_out_of_range _ Hsize)).
  - apply (untracked_id_out_of_range _ Hsize).
Defined.

(** ** C6 and C7: assignment and move *)

(** C6, at the failing input: copy assignment between two untracked handles
    compares the ids, finds them equal and returns without copying the
    address. *)
Theorem assign_copy_untracked_keeps_address (a b : N) (tr : PtrTracker) :
  Ptr.assign_copy (Ptr.Build a UNTRACKED) (Ptr.Build b UNTRACKED) tr
  = Ok (Ptr.Build a UNTRACKED) tr.
Proof. reflexivity. Qed.

(** C7, at the failing inputs: the move constructor resets the id of its
    source but leaves the address in place, and move assignment between two
    untracked handles changes neither handle. *)
Theorem move_leaves_source_address (a b i : N) (tr : PtrTracker) :
  Ptr.MoveCtor (Ptr.Build a i) tr
  = Ok (Ptr.Build a i, Ptr.Build a UNTRACKED) tr /\
  Ptr.assign_move (Ptr.Build a UNTRACKED) (Ptr.Build b UNTRACKED) tr
  = Ok (Ptr.Build a UNTRACKED, Ptr.Build b UNTRACKED) tr.
Proof. split; reflexivity. Qed.

(** ** C2: the shutdown scan *)

Lemma filter_insert_length {A} (P : A -> Prop) `{!forall x, Decision (P x)}
    (l : list A) (i : nat) (x y : A) :
  l !! i = Some x ->
  (length (filter P (<[i := y]> l)) + (if decide (P x) then 1 else 0)
   = length (filter P l) + (if decide (P y) then 1 else 0))%nat.
Proof.
  revert i. induction l as [|a l IH]; intros [|i] Hi; try done.
  - injection Hi as ->. simpl. rewrite !filter_cons.
    destruct (decide (P x)), (decide (P y)); simpl; lia.
  - simpl in *. rewrite !filter_cons. specialize (IH i Hi).
    destruct (decide (P a)); simpl; lia.
Qed.

Lemma run_app ops1 ops2 w :
  run (ops1 ++ ops2) w =
  match run ops1 w with
  | Next w' => run ops2 w'
  | other => other
  end.
Proof.
  revert w. induction ops1 as [|op ops1 IH]; intros w; simpl; [done|].
  destruct (step op w); [apply IH|done|done].
Qed.

Lemma scan_spec v : forall total remain,
  Tracker.scan v total remain =
  if decide (num_active v = 0)
  then Done (total + N.of_nat (length v), remain + num_held v)
  else Failed (AssertFail "info.IsActive() == false").
Proof.
  unfold num_active, num_held.
  induction v as [|r v IH]; intros total remain.
  - simpl. rewrite !N.add_0_r. done.
  - simpl Tracker.scan. rewrite !filter_cons.
    destruct (PtrInfo.IsActive r) eqn:Ha.
    + rewrite (decide_True (P := true = true)) by done. simpl negb. cbv iota.
      match goal with
      | |- context [decide (N.of_nat (length (?x :: ?l)) = 0)] =>
          destruct (decide (N.of_nat (length (x :: l)) = 0)) as [Hz|Hz]
      end; [|done].
      exfalso. cbn [length] in Hz. lia.
    + rewrite (decide_False (P := false = true)) by congruence.
      simpl negb. cbv iota. rewrite IH.
      destruct (decide (N.of_nat (length (filter _ v)) = 0)) as [_|_]; [|done].
      f_equal. f_equal; [simpl; lia|].
      destruct (Z.eqb_spec (PtrInfo.GetCount r) 0) as [Hc|Hc].
      * rewrite decide_False by (intros ?; done). lia.
      * rewrite decide_True by done. simpl. lia.
Qed.

Lemma Destroy_spec tr :
  Tracker.Destroy tr =
  if decide (num_active (id_info tr) = 0)
  then Ok (N.of_nat (length (id_info tr)), num_held (id_info tr)) tr
  else Abort (AssertFail "info.IsActive() == false") tr.
Proof.
  unfold Tracker.Destroy. rewrite scan_spec. by destruct (decide _).
Qed.

Lemma num_active_New addrs : num_active (map PtrInfo.New addrs) = N.of_nat (length addrs).
Proof.
  unfold num_active. f_equal. induction addrs as [|p addrs IH]; [done|].
  cbn [map]. rewrite filter_cons. rewrite decide_True by done. simpl. by rewrite IH.
Qed.

Lemma num_held_New addrs : num_held (map PtrInfo.New addrs) = N.of_nat (length addrs).
Proof.
  unfold num_held. f_equal. induction addrs as [|p addrs IH]; [done|].
  cbn [map]. rewrite filter_cons. rewrite decide_True by done. simpl. by rewrite IH.
Qed.

Lemma registered_start : registered [] start.
Proof.
  split; [done|]. split; [|split; [done|]].
  - intros p [i Hi]. simpl in Hi. by rewrite lookup_empty in Hi.
  - intros i p Hi. done.
Qed.

Lemma register_one done p w :
  registered done w -> p <> 0 -> p ∉ done ->
  exists w', step (OpFromRaw p true) w = Next w' /\ registered (done ++ [p]) w'.
Proof.
  intros (Hinfo & Hdom & Hlen & Hh) Hp Hnew.
  assert (Hnone : ptr_id (tracker w) !! p = None).
  { destruct (ptr_id (tracker w) !! p) eqn:E; [|done].
    exfalso. apply Hnew, Hdom. eauto. }
  assert (Hact : Tracker.IsActive p (tracker w) = Ok false (tracker w)).
  { apply IsActive_Ok. split; [done|]. by left. }
  assert (HN : Tracker.New p (tracker w)
               = Ok (N.of_nat (length (id_info (tracker w)))) (push (tracker w) p)).
  { apply New_Ok. split; [done|]. split; [|done]. intros i Hi. congruence. }
  eexists. split.
  { unfold step, lift, Ptr.FromRaw. unfold bind at 1. rewrite Hact.
    unfold bind. rewrite HN. unfold ret. reflexivity. }
  split; [|split; [|split]]; simpl.
  - rewrite Hinfo, map_app. done.
  - intros q [i Hi]. destruct (decide (p = q)) as [->|Hne].
    + apply elem_of_app. right. by apply list_elem_of_singleton.
    + rewrite lookup_insert_ne in Hi by done. apply elem_of_app. left.
      apply Hdom. eauto.
  - rewrite !length_app. simpl. lia.
  - intros i q Hi. rewrite Hinfo, length_map.
    destruct (decide (i < length done)%nat) as [Hlt|Hge].
    + rewrite lookup_app_l in Hi by done. rewrite lookup_app_l by lia. by apply Hh.
    + rewrite lookup_app_r in Hi by lia. rewrite lookup_app_r by lia.
      rewrite Hlen. destruct (i - length done)%nat as [|k] eqn:E; [|done].
      simpl in *. injection Hi as <-. assert (i = length done) as -> by lia. done.
Qed.

Lemma run_register_all todo : forall done w,
  registered done w -> NoDup (done ++ todo) -> 0 ∉ todo ->
  exists w', run (register_all todo) w = Next w' /\ registered (done ++ todo) w'.
Proof.
  induction todo as [|p todo IH]; intros done w Hreg Hnd H0.
  - exists w. rewrite app_nil_r. done.
  - assert (Hp : p <> 0) by (intros ->; apply H0; left).
    assert (Hnew : p ∉ done).
    { apply NoDup_app in Hnd as (_ & Hdis & _). intros Hin. apply (Hdis p Hin). left. }
    destruct (register_one done p w Hreg Hp Hnew) as (w1 & Hs & Hreg1).
    destruct (IH (done ++ [p]) w1 Hreg1) as (w' & Hr & Hreg').
    { by rewrite <- app_assoc. }
    { intros Hin. apply H0. by right. }
    exists w'. unfold register_all. cbn [map run]. rewrite Hs.
    split; [done|]. by rewrite <- app_assoc in Hreg'.
Qed.

Lemma release_one w h p r :
  handle_at w h = Some (Ptr.Build p (N.of_nat h)) -> p <> 0 ->
  vec_at (id_info (tracker w)) (N.of_nat h) = Some r ->
  PtrInfo.status r = ACTIVE ->
  step (OpDelete h) w
  = Next {| tracker := upd (tracker w) (N.of_nat h) (mark r); handles := handles w |}.
Proof.
  intros Hh Hp Hr Hs. unfold step, with_handle. rewrite Hh. unfold lift.
  assert (Hd : Ptr.Delete (Ptr.Build p (N.of_nat h)) (tracker w)
               = Ok tt (upd (tracker w) (N.of_nat h) (mark r))).
  { apply Delete_Ok. split; [done|]. by exists r. }
  by rewrite Hd.
Qed.

Lemma num_active_mark v i r :
  vec_at v i = Some r -> PtrInfo.IsActive r = true ->
  num_active (vec_set v i (mark r)) + 1 = num_active v.
Proof.
  intros Hr Ha. unfold num_active. rewrite vec_set_insert. rewrite vec_at_lookup in Hr.
  pose proof (filter_insert_length (fun r => PtrInfo.IsActive r = true) v (N.to_nat i)
                r (mark r) Hr) as H.
  cbv beta in H. rewrite decide_True in H by done. rewrite decide_False in H by done. lia.
Qed.

Lemma num_held_mark v i r :
  vec_at v i = Some r -> num_held (vec_set v i (mark r)) = num_held v.
Proof.
  intros Hr. unfold num_held. rewrite vec_set_insert. rewrite vec_at_lookup in Hr.
  pose proof (filter_insert_length (fun r => PtrInfo.GetCount r <> 0%Z) v (N.to_nat i)
                r (mark r) Hr) as H.
  cbv beta in H. change (PtrInfo.GetCount (mark r)) with (PtrInfo.GetCount r) in H.
  destruct (decide (PtrInfo.GetCount r <> 0%Z)); lia.
Qed.

Lemma run_release_all hs : forall w,
  NoDup hs -> (forall h, h ∈ hs -> releasable w h) ->
  exists w', run (release_all hs) w = Next w' /\
    length (id_info (tracker w')) = length (id_info (tracker w)) /\
    num_active (id_info (tracker w')) + N.of_nat (length hs)
      = num_active (id_info (tracker w)) /\
    num_held (id_info (tracker w')) = num_held (id_info (tracker w)).
Proof.
  induction hs as [|h hs IH]; intros w Hnd Hrel.
  - exists w. simpl. repeat split; lia.
  - apply NoDup_cons in Hnd as [Hnotin Hnd].
    destruct (Hrel h) as (p & r & Hh & Hp & Hr & Hs); [left|].
    pose proof (release_one w h p r Hh Hp Hr Hs) as Hstep.
    set (w1 := {| tracker := upd (tracker w) (N.of_nat h) (mark r);
                  handles := handles w |}) in *.
    destruct (IH w1 Hnd) as (w' & Hrun & Hlen & Hact & Hheld).
    { intros h' Hin. destruct (Hrel h') as (p' & r' & Hh' & Hp' & Hr' & Hs'); [by right|].
      exists p', r'. split; [done|]. split; [done|]. split; [|done].
      simpl. rewrite vec_at_set_ne; [done|].
      intros Heq. apply Nat2N.inj in Heq. subst h'. done. }
    exists w'. unfold release_all. cbn [map run]. rewrite Hstep.
    split; [done|]. simpl in Hlen, Hact, Hheld.
    rewrite vec_set_length in Hlen. rewrite num_held_mark in Hheld by done.
    assert (Ha : PtrInfo.IsActive r = true) by (apply IsActive_true; by rewrite Hs).
    pose proof (num_active_mark _ _ _ Hr Ha) as Hm.
    split; [done|]. split; [|done]. cbn [length]. lia.
Qed.

Lemma registered_releasable addrs w h :
  registered addrs w -> 0 ∉ addrs -> (h < length addrs)%nat -> releasable w h.
Proof.
  intros (Hinfo & _ & _ & Hh) H0 Hlt.
  destruct (lookup_lt_is_Some_2 addrs h Hlt) as [p Hp].
  exists p, (PtrInfo.New p). split; [|split; [|split; [|done]]].
  - unfold handle_at. by rewrite (Hh h p Hp).
  - intros ->. apply H0. by eapply list_elem_of_lookup_2.
  - rewrite Hinfo, vec_at_lookup, Nat2N.id, list_lookup_fmap, Hp. done.
Qed.

(** C2, as the code has it.  The scan walks over every record ever created.
    It asserts of each record that it is no longer active, so it completes
    exactly when no record is active, and then reports the number of records
    and the number of records whose count is not zero; otherwise it stops at
    the assertion.  After [N] distinct non-null addresses have been
    registered through tracked handles and [M] of those handles released, the
    tracker holds [N] records of which [N - M] are active and all [N] still
    have a non-zero count: with [M < N] the scan fails, with [M = N] it
    reports [N] and [N]. *)
Theorem shutdown_scan :
  (forall tr,
     Tracker.Destroy tr =
     if decide (num_active (id_info tr) = 0)
     then Ok (N.of_nat (length (id_info tr)), num_held (id_info tr)) tr
     else Abort (AssertFail "info.IsActive() == false") tr) /\
  (forall addrs hs,
     NoDup addrs -> 0 ∉ addrs -> NoDup hs ->
     (forall h, h ∈ hs -> (h < length addrs)%nat) ->
     exists w',
       run (register_all addrs ++ release_all hs) start = Next w' /\
       Tracker.GetNumIDs (tracker w') = Ok (N.of_nat (length addrs)) (tracker w') /\
       num_active (id_info (tracker w')) = N.of_nat (length addrs - length hs) /\
       num_held (id_info (tracker w')) = N.of_nat (length addrs) /\
       ((length hs < length addrs)%nat ->
          Tracker.Destroy (tracker w')
          = Abort (AssertFail "info.IsActive() == false") (tracker w')) /\
       (length hs = length addrs ->
          Tracker.Destroy (tracker w')
          = Ok (N.of_nat (length addrs), N.of_nat (length addrs)) (tracker w'))).
Proof.
  split; [apply Destroy_spec|].
  intros addrs hs Hnd H0 Hndh Hin.
  destruct (run_register_all addrs [] start registered_start) as (w1 & Hr1 & Hreg);
    [done|done|]. simpl in Hreg.
  destruct (run_release_all hs w1 Hndh) as (w' & Hr2 & Hlen & Hact & Hheld).
  { intros h Hh. eapply registered_releasable; eauto. }
  pose proof Hreg as (Hinfo & _).
  rewrite Hinfo in Hlen, Hact, Hheld.
  rewrite length_map in Hlen. rewrite num_active_New in Hact. rewrite num_held_New in Hheld.
  assert (HM : (length hs <= length addrs)%nat).
  { pose proof (submseteq_length hs (seq 0%nat (length addrs))) as Hle.
    rewrite length_seq in Hle. apply Hle.
    apply NoDup_submseteq; [done|]. intros h Hh. apply elem_of_seq.
    specialize (Hin h Hh). lia. }
  exists w'. split; [by rewrite run_app, Hr1|].
  split; [unfold Tracker.GetNumIDs; by rewrite Hlen|].
  split; [lia|]. split; [done|]. split.
  - intros Hlt. rewrite Destroy_spec. rewrite decide_False by lia. done.
  - intros Heq. rewrite Destroy_spec. rewrite decide_True by lia.
    by rewrite Hlen, Hheld.
Qed.

(** ** C5: aliases share a record, and the count is the number of handles *)

(** *** The tracker stays well formed *)

Lemma prim_wf tr tr' : prim tr tr' -> wf_tracker tr -> wf_tracker tr'.
Proof.
  assert (Hupd : forall tr i r r',
            vec_at (id_info tr) i = Some r -> PtrInfo.ptr r' = PtrInfo.ptr r ->
            (PtrInfo.IsActive r' = true -> PtrInfo.IsActive r = true) ->
            wf_tracker tr -> wf_tracker (upd tr i r')).
  { clear. intros tr i r r' Hr Hptr Hact [W1 W2]. split; simpl.
    - intros p j Hj. destruct (W1 p j Hj) as (rj & Hrj & Hp).
      rewrite vec_at_set. case_decide as Hd; [|eauto].
      destruct Hd as [-> _]. rewrite Hr in Hrj. injection Hrj as <-.
      exists r'. split; [done|congruence].
    - intros j rj. rewrite vec_at_set. case_decide as Hd; [|apply W2].
      destruct Hd as [-> _]. intros [= <-] Ha. rewrite Hptr. apply W2; auto. }
  destruct 1 as [tr i r r' Hr Hf|tr i r r' Hr Hc Hf|tr i r r' Hr Hf|tr i r b Hr Ha|tr p Hp Hre].
  - apply Inc_Done in Hf as [_ ->]. by eapply Hupd.
  - apply Dec_Done in Hf as [_ ->]. by eapply Hupd.
  - apply MarkDeleted_Done in Hf as [_ ->]. by eapply Hupd.
  - by eapply Hupd.
  - intros [W1 W2]. split; simpl.
    + intros q j Hj. destruct (decide (p = q)) as [->|Hne].
      * rewrite lookup_insert_eq in Hj. injection Hj as <-.
        exists (PtrInfo.New q). split; [apply vec_at_app_new|done].
      * rewrite lookup_insert_ne in Hj by done.
        destruct (W1 q j Hj) as (rj & Hrj & Hq). exists rj.
        split; [by apply vec_at_app_Some|done].
    + intros j rj Hj Ha.
      destruct (N.lt_ge_cases j (N.of_nat (length (id_info tr)))) as [Hlt|Hge].
      * rewrite vec_at_app_l in Hj by done. pose proof (W2 j rj Hj Ha) as Hcur.
        destruct (decide (p = PtrInfo.ptr rj)) as [->|Hne].
        -- destruct (Hre j Hcur) as (_ & r0 & Hr0 & Hina).
           rewrite Hj in Hr0. injection Hr0 as <-. congruence.
        -- by rewrite lookup_insert_ne.
      * pose proof (vec_at_lt _ _ _ Hj) as Hlt. rewrite length_app in Hlt. simpl in Hlt.
        assert (j = N.of_nat (length (id_info tr))) as -> by lia.
        rewrite vec_at_app_new in Hj. injection Hj as <-. simpl.
        apply lookup_insert_eq.
Qed.

Lemma reach_wf tr tr' : reach tr tr' -> wf_tracker tr -> wf_tracker tr'.
Proof.
  induction 1 as [|tr1 tr2 tr3 Hp _ IH]; [done|].
  intros Hw. apply IH. by eapply prim_wf.
Qed.

Lemma empty_wf : wf_tracker Tracker.empty.
Proof.
  split.
  - intros p i Hi. simpl in Hi. by rewrite lookup_empty in Hi.
  - intros i r Hr. unfold vec_at in Hr. simpl in Hr. by destruct (_ <? _).
Qed.

Lemma grows_size_ok tr tr' : grows tr tr' -> size_ok tr' -> size_ok tr.
Proof. intros [Hl _]. unfold size_ok. lia. Qed.

Lemma grows_valid_handle tr tr' p :
  grows tr tr' -> valid_handle tr p -> valid_handle tr' p.
Proof.
  intros [_ Hg] [Hu|(r & Hr & Hp)]; [by left|right].
  destruct (Hg _ _ Hr) as (r' & Hr' & Hptr & _). exists r'. split; [done|congruence].
Qed.

Lemma grows_handles_valid tr tr' hs :
  grows tr tr' -> handles_valid tr hs -> handles_valid tr' hs.
Proof. intros Hg Hv h p Hh. eapply grows_valid_handle; eauto. Qed.

(** *** Counting handles *)

Lemma refs_app hs o i : refs (hs ++ [o]) i = (refs hs i + ind (holds i o))%Z.
Proof.
  unfold refs. rewrite filter_app, length_app, filter_cons, filter_nil.
  destruct (holds i o); simpl; lia.
Qed.

Lemma refs_insert hs h o o' i :
  hs !! h = Some o ->
  refs (<[h := o']> hs) i = (refs hs i - ind (holds i o) + ind (holds i o'))%Z.
Proof.
  intros Hh. unfold refs.
  pose proof (filter_insert_length (fun o => holds i o = true) hs h o o' Hh) as H.
  cbv beta in H.
  destruct (holds i o), (holds i o'); simpl;
    repeat (first [rewrite decide_True in H by done | rewrite decide_False in H by done]);
    lia.
Qed.

Lemma filter_none {A} (P : A -> Prop) `{!forall x, Decision (P x)} (l : list A) :
  (forall x, x ∈ l -> ~ P x) -> filter P l = [].
Proof.
  induction l as [|a l IH]; intros Hno; [done|].
  rewrite filter_cons_False by (apply Hno; left). apply IH.
  intros x Hx. apply Hno. by right.
Qed.

Lemma refs_fresh tr hs i :
  handles_valid tr hs -> N.of_nat (length (id_info tr)) <= i -> i <> UNTRACKED ->
  refs hs i = 0%Z.
Proof.
  intros Hv Hge Hne. unfold refs.
  rewrite filter_none; [done|]. intros o Ho.
  apply list_elem_of_lookup in Ho as [h Hh].
  destruct o as [p|]; [|done]. simpl. intros Heq. apply N.eqb_eq in Heq.
  destruct (Hv h p Hh) as [Hu|(r & Hr & _)]; [congruence|].
  apply vec_at_lt in Hr. lia.
Qed.

Lemma holds_valid_fresh tr p i :
  valid_handle tr p -> N.of_nat (length (id_info tr)) <= i -> i <> UNTRACKED ->
  holds i (Some p) = false.
Proof.
  intros [Hu|(r & Hr & _)] Hge Hne; simpl; apply N.eqb_neq.
  - congruence.
  - apply vec_at_lt in Hr. lia.
Qed.

(** *** Counts under the tracker's writes *)

Lemma count_at_upd tr j r' i :
  count_at (upd tr j r') i =
  if decide (j = i /\ j < N.of_nat (length (id_info tr))) then PtrInfo.count r'
  else count_at tr i.
Proof. unfold count_at. simpl. rewrite vec_at_set. by case_decide. Qed.

Lemma count_at_push tr p i :
  i <= N.of_nat (length (id_info tr)) ->
  count_at (push tr p) i =
  if decide (i = N.of_nat (length (id_info tr))) then 1%Z else count_at tr i.
Proof.
  intros Hle. unfold count_at. simpl. case_decide as Hd.
  - subst i. by rewrite vec_at_app_new.
  - rewrite vec_at_app_l by lia. done.
Qed.

Lemma IncID_count j tr tr' :
  Tracker.IncID j tr = Ok tt tr' -> size_ok tr ->
  length (id_info tr') = length (id_info tr) /\
  forall i, i < N.of_nat (length (id_info tr)) ->
    forall c, count_at tr i = int_wrap c ->
      count_at tr' i = int_wrap (c + ind (N.eqb j i)).
Proof.
  intros H Hsz. apply IncID_Ok in H as [[-> ->]|(Hne & r & r' & Hr & Hi & ->)].
  - split; [done|]. intros i Hi c ->. unfold size_ok in Hsz.
    destruct (N.eqb_spec UNTRACKED i); [lia|]. simpl. f_equal. lia.
  - apply Inc_Done in Hi as [_ ->]. split; [simpl; by rewrite vec_set_length|].
    intros i Hi c Hc. rewrite count_at_upd. pose proof (vec_at_lt _ _ _ Hr).
    destruct (N.eqb_spec j i) as [<-|Hji].
    + rewrite decide_True by done. unfold count_at in Hc. rewrite Hr in Hc.
      simpl. rewrite Hc. apply int_wrap_add.
    + rewrite decide_False by (intros [? _]; done). rewrite Hc. simpl. f_equal. lia.
Qed.

Lemma DecID_count j tr tr' :
  Tracker.DecID j tr = Ok tt tr' -> size_ok tr ->
  length (id_info tr') = length (id_info tr) /\
  (forall i, i < N.of_nat (length (id_info tr)) ->
     forall c, count_at tr i = int_wrap c ->
       count_at tr' i = int_wrap (c + - ind (N.eqb j i))) /\
  (forall r, vec_at (id_info tr) j = Some r -> PtrInfo.IsActive r = true ->
     (1 < PtrInfo.count r)%Z).
Proof.
  intros H Hsz. apply DecID_Ok in H as [[-> ->]|(Hne & r & r' & Hr & _ & Hd & ->)].
  - split; [done|]. unfold size_ok in Hsz. split.
    + intros i Hi c ->. destruct (N.eqb_spec UNTRACKED i); [lia|]. simpl. f_equal. lia.
    + intros r Hr. apply vec_at_lt in Hr. lia.
  - apply Dec_Done in Hd as [Hd ->]. split; [simpl; by rewrite vec_set_length|]. split.
    + intros i Hi c Hc. rewrite count_at_upd. pose proof (vec_at_lt _ _ _ Hr).
      destruct (N.eqb_spec j i) as [<-|Hji].
      * rewrite decide_True by done. unfold count_at in Hc. rewrite Hr in Hc.
        simpl. rewrite Hc. apply int_wrap_add.
      * rewrite decide_False by (intros [? _]; done). rewrite Hc. simpl. f_equal. lia.
    + intros r0 Hr0 Ha. rewrite Hr in Hr0. injection Hr0 as <-.
      apply IsActive_true in Ha. by destruct Hd.
Qed.

Lemma New_count p tr j tr' :
  Tracker.New p tr = Ok j tr' ->
  j = N.of_nat (length (id_info tr)) /\
  length (id_info tr') = S (length (id_info tr)) /\
  vec_at (id_info tr') j = Some (PtrInfo.New p) /\
  forall i, i <= N.of_nat (length (id_info tr)) ->
    count_at tr' i = if decide (i = j) then 1%Z else count_at tr i.
Proof.
  intros H. apply New_Ok in H as (_ & _ & -> & ->).
  split; [done|]. split; [simpl; rewrite length_app; simpl; lia|].
  split; [apply push_at_new|]. intros i Hi. by apply count_at_push.
Qed.

Lemma NewArray_count p bytes tr j tr' :
  Tracker.NewArray p bytes tr = Ok j tr' ->
  j = N.of_nat (length (id_info tr)) /\
  length (id_info tr') = S (length (id_info tr)) /\
  vec_at (id_info tr') j = Some (PtrInfo.SetArray bytes (PtrInfo.New p)) /\
  forall i, i <= N.of_nat (length (id_info tr)) ->
    count_at tr' i = if decide (i = j) then 1%Z else count_at tr i.
Proof.
  intros H. apply NewArray_Ok in H as (_ & _ & -> & ->).
  assert (Hlen : length (id_info (push tr p)) = S (length (id_info tr))).
  { simpl. rewrite length_app. simpl. lia. }
  split; [done|]. split; [simpl; rewrite vec_set_length, length_app; simpl; lia|].
  split.
  { simpl. apply vec_at_set_eq. rewrite length_app. simpl. lia. }
  intros i Hi. rewrite count_at_upd. case_decide as Hd.
  - destruct Hd as [<- _]. rewrite decide_True by done. done.
  - destruct (decide (i = N.of_nat (length (id_info tr)))) as [->|Hne].
    + exfalso. apply Hd. split; [done|]. rewrite Hlen. lia.
    + rewrite count_at_push by done. by rewrite decide_False.
Qed.

(** *** What each handle operation does when it returns *)

Ltac no_units := repeat match goal with u : unit |- _ => destruct u end.

Lemma CopyCtor_Ok s tr p tr' :
  Ptr.CopyCtor s tr = Ok p tr' ->
  p = Ptr.Build (Ptr.ptr s) (Ptr.id s) /\ Tracker.IncID (Ptr.id s) tr = Ok tt tr'.
Proof. unfold Ptr.CopyCtor. intros H. inv_run. no_units. done. Qed.

Lemma link_Ok a tr p tr' :
  (let* i := Tracker.GetCurID a in
   Tracker.IncID i >> ret (Ptr.Build a i)) tr = Ok p tr' ->
  exists i, ptr_id tr !! a = Some i /\ Tracker.IncID i tr = Ok tt tr' /\ p = Ptr.Build a i.
Proof.
  intros H. inv_run. no_units. apply GetCurID_Ok in Hrun as [Hi ->]. eauto.
Qed.

Lemma FromRaw_Ok a track tr p tr' :
  Ptr.FromRaw a track tr = Ok p tr' ->
  (exists i, ptr_id tr !! a = Some i /\ Tracker.IncID i tr = Ok tt tr' /\ p = Ptr.Build a i) \/
  (Tracker.New a tr = Ok (Ptr.id p) tr' /\ Ptr.ptr p = a) \/
  (tr' = tr /\ p = Ptr.Build a UNTRACKED).
Proof.
  unfold Ptr.FromRaw. intros H. apply bind_Ok in H as (act & tr1 & Hact & H).
  apply IsActive_Ok in Hact as [-> _]. destruct act.
  - left. by apply link_Ok.
  - destruct track.
    + right. left. inv_run. done.
    + right. right. inv_run. done.
Qed.

Lemma FromArray_Ok sz a n track tr p tr' :
  Ptr.FromArray sz a n track tr = Ok p tr' ->
  (exists i, ptr_id tr !! a = Some i /\ Tracker.IncID i tr = Ok tt tr' /\ p = Ptr.Build a i) \/
  (Tracker.NewArray a (size_t_mul n sz) tr = Ok (Ptr.id p) tr' /\ Ptr.ptr p = a) \/
  (tr' = tr /\ p = Ptr.Build a UNTRACKED).
Proof.
  unfold Ptr.FromArray. intros H. apply bind_Ok in H as (act & tr1 & Hact & H).
  apply IsActive_Ok in Hact as [-> _]. destruct act.
  - left. inv_run. no_units. apply GetCurID_Ok in Hrun as [Hi ->].
    apply GetArrayBytes_Ok in Hrun1 as [-> _]. eauto.
  - destruct track.
    + right. left. inv_run. done.
    + right. right. inv_run. done.
Qed.

Lemma PtrNew_Ok self mem tr p tr' :
  Ptr.New self mem tr = Ok p tr' ->
  exists tr1, Tracker.DecID (Ptr.id self) tr = Ok tt tr1 /\
              Tracker.New mem tr1 = Ok (Ptr.id p) tr' /\ Ptr.ptr p = mem.
Proof.
  unfold Ptr.New. intros H. inv_run. no_units. eauto.
Qed.

Lemma PtrNewArray_Ok sz self mem n tr p tr' :
  Ptr.NewArray sz self mem n tr = Ok p tr' ->
  exists tr1, Tracker.DecID (Ptr.id self) tr = Ok tt tr1 /\
              Tracker.NewArray mem (size_t_mul n sz) tr1 = Ok (Ptr.id p) tr' /\
              Ptr.ptr p = mem.
Proof.
  unfold Ptr.NewArray. intros H. inv_run. no_units. eauto.
Qed.

Lemma assign_copy_Ok d s tr p tr' :
  Ptr.assign_copy d s tr = Ok p tr' ->
  (Ptr.id d <> Ptr.id s /\
   exists tr1, Tracker.DecID (Ptr.id d) tr = Ok tt tr1 /\
               Tracker.IncID (Ptr.id s) tr1 = Ok tt tr' /\
               p = Ptr.Build (Ptr.ptr s) (Ptr.id s)) \/
  (Ptr.id d = Ptr.id s /\ tr' = tr /\ p = d).
Proof.
  unfold Ptr.assign_copy. intros H. inv_run.
  apply IsDeleted_Ok in Hrun as [-> _].
  destruct (N.eqb_spec (Ptr.id d) (Ptr.id s)) as [He|Hne]; simpl in H; inv_run.
  - by right.
  - left. no_units. eauto.
Qed.

Lemma assign_move_Ok d s tr d' s' tr' :
  Ptr.assign_move d s tr = Ok (d', s') tr' ->
  (Ptr.id d <> Ptr.id s /\ Tracker.DecID (Ptr.id d) tr = Ok tt tr' /\
   d' = Ptr.Build (Ptr.ptr s) (Ptr.id s) /\ s' = Ptr.Default) \/
  (Ptr.id d = Ptr.id s /\ tr' = tr /\ d' = d /\ s' = s).
Proof.
  unfold Ptr.assign_move. intros H. inv_run.
  apply IsDeleted_Ok in Hrun as [-> _].
  destruct (N.eqb_spec (Ptr.id d) (Ptr.id s)) as [He|Hne]; simpl in H; inv_run.
  - right. match goal with E : (_, _) = (_, _) |- _ => injection E as -> -> end. done.
  - left. no_units.
    match goal with E : (_, _) = (_, _) |- _ => injection E as -> -> end. done.
Qed.

Lemma assign_raw_Ok d a tr p tr' :
  Ptr.assign_raw d a tr = Ok p tr' ->
  exists tr1, Tracker.DecID (Ptr.id d) tr = Ok tt tr1 /\
    ((exists i, ptr_id tr1 !! a = Some i /\ Tracker.IncID i tr1 = Ok tt tr' /\
                p = Ptr.Build a i) \/
     (tr' = tr1 /\ p = Ptr.Build a UNTRACKED)).
Proof.
  unfold Ptr.assign_raw. intros H. apply bind_Ok in H as ([] & tr1 & Hdec & H).
  exists tr1. split; [done|].
  apply bind_Ok in H as (act & tr2 & Hact & H).
  apply IsActive_Ok in Hact as [-> _]. destruct act.
  - left. by apply link_Ok.
  - right. inv_run. done.
Qed.

(** *** One step of a program keeps the world well formed *)

Lemma lift_Next {A} tr hs (m : M A) k tr' hs' :
  lift (mkWorld tr hs) m k = Next (mkWorld tr' hs') ->
  exists a, m tr = Ok a tr' /\ hs' = k a.
Proof.
  unfold lift. simpl. destruct (m tr) as [a tr1|e tr1]; [|done].
  intros [= <- <-]. eauto.
Qed.

Lemma with_handle_Next tr hs h k w' :
  with_handle (mkWorld tr hs) h k = Next w' ->
  exists p, hs !! h = Some (Some p) /\ k p = Next w'.
Proof.
  unfold with_handle, handle_at. simpl.
  destruct (hs !! h) as [[p|]|]; [|done|done]. eauto.
Qed.

Lemma valid_handle_fields tr p q :
  Ptr.id q = Ptr.id p -> Ptr.ptr q = Ptr.ptr p -> valid_handle tr p -> valid_handle tr q.
Proof. unfold valid_handle. intros -> ->. done. Qed.

Lemma handles_valid_app tr hs o :
  handles_valid tr hs -> (forall p, o = Some p -> valid_handle tr p) ->
  handles_valid tr (hs ++ [o]).
Proof.
  intros Hv Ho h p Hh. apply lookup_app_Some in Hh as [Hh|[_ Hh]]; [by eapply Hv|].
  destruct (h - length hs)%nat; [|done]. simpl in Hh. injection Hh as ->. by apply Ho.
Qed.

Lemma handles_valid_insert tr hs k o :
  handles_valid tr hs -> (forall p, o = Some p -> valid_handle tr p) ->
  handles_valid tr (<[k := o]> hs).
Proof.
  intros Hv Ho h p Hh. apply list_lookup_insert_Some in Hh as [(-> & Heq & _)|[_ Hh]].
  - by apply Ho.
  - by eapply Hv.
Qed.

Ltac ind_cases :=
  unfold ind, holds, Ptr.Default in *; cbn [Ptr.id Ptr.ptr] in *;
  repeat match goal with
         | |- context [N.eqb ?a ?b] => destruct (N.eqb_spec a b)
         end;
  subst; cbn [Ptr.id Ptr.ptr] in *; try lia; try congruence.

Lemma in_range_tracked tr i :
  size_ok tr -> i < N.of_nat (length (id_info tr)) -> i <> UNTRACKED.
Proof. unfold size_ok. lia. Qed.

Lemma grows_active tr tr' i r r' :
  grows tr tr' -> vec_at (id_info tr) i = Some r -> vec_at (id_info tr') i = Some r' ->
  PtrInfo.IsActive r' = true -> PtrInfo.IsActive r = true.
Proof.
  intros [_ Hg] Hr Hr' Ha. destruct (Hg i r Hr) as (r'' & Hr'' & _ & Hs).
  rewrite Hr' in Hr''. injection Hr'' as <-.
  destruct (PtrInfo.IsActive r) eqn:E; [done|].
  apply IsActive_false in E. apply Hs in E. by apply IsActive_true in Ha.
Qed.

(** From one program state to the next: [d i] is the change in the number
    of handles that hold id [i]; records past the old end are new, with
    count [1] and one holder. *)
Lemma world_next tr tr' hs hs' (d : N -> Z) :
  size_ok tr' -> grows tr tr' ->
  (forall i, i < N.of_nat (length (id_info tr)) -> i <> UNTRACKED ->
     forall c, count_at tr i = int_wrap c -> count_at tr' i = int_wrap (c + d i)) ->
  (forall i, i < N.of_nat (length (id_info tr)) -> i <> UNTRACKED ->
     refs hs' i = (refs hs i + d i)%Z) ->
  (forall i r, vec_at (id_info tr) i = Some r -> PtrInfo.IsActive r = true ->
     (d i < 0)%Z -> d i = (-1)%Z /\ (1 < PtrInfo.count r)%Z) ->
  (forall i, N.of_nat (length (id_info tr)) <= i -> i < N.of_nat (length (id_info tr')) ->
     count_at tr' i = 1%Z /\ refs hs' i = 1%Z) ->
  balanced tr hs -> held tr hs -> balanced tr' hs' /\ held tr' hs'.
Proof.
  intros Hsz Hg Hc Hr Hneg Hnew Hb Hh.
  assert (Hne : forall i, i < N.of_nat (length (id_info tr')) -> i <> UNTRACKED)
    by (unfold size_ok in Hsz; lia).
  split.
  - intros i Hi. destruct (N.lt_ge_cases i (N.of_nat (length (id_info tr)))) as [Hlt|Hge].
    + rewrite (Hc i Hlt (Hne i Hi) _ (Hb i Hlt)). by rewrite (Hr i Hlt (Hne i Hi)).
    + destruct (Hnew i Hge Hi) as [-> ->]. reflexivity.
  - intros i r' Hr' Ha. pose proof (vec_at_lt _ _ _ Hr') as Hi.
    destruct (N.lt_ge_cases i (N.of_nat (length (id_info tr)))) as [Hlt|Hge].
    + destruct (vec_at_in_range _ _ Hlt) as [r Hr0].
      pose proof (grows_active _ _ _ _ _ Hg Hr0 Hr' Ha) as Har.
      pose proof (Hh i r Hr0 Har) as H1. rewrite (Hr i Hlt (Hne i Hi)).
      destruct (Z.lt_ge_cases (d i) 0) as [Hn|Hn]; [|lia].
      destruct (Hneg i r Hr0 Har Hn) as [Hd Hcnt].
      specialize (Hb i Hlt). unfold count_at in Hb. rewrite Hr0 in Hb.
      assert (refs hs i <> 1%Z).
      { intros E. rewrite E in Hb. change (int_wrap 1) with 1%Z in Hb. lia. }
      lia.
    + destruct (Hnew i Hge Hi) as [_ ->]. lia.
Qed.

(** A tracker that has changed without a new record: the handles [hs']
    replace [hs]. *)
Lemma world_same_length tr tr' hs hs' (d : N -> Z) :
  size_ok tr ->
  length (id_info tr') = length (id_info tr) ->
  grows tr tr' ->
  (forall i, i < N.of_nat (length (id_info tr)) -> i <> UNTRACKED ->
     forall c, count_at tr i = int_wrap c -> count_at tr' i = int_wrap (c + d i)) ->
  (forall i, i <> UNTRACKED -> refs hs' i = (refs hs i + d i)%Z) ->
  (forall i r, vec_at (id_info tr) i = Some r -> PtrInfo.IsActive r = true ->
     (d i < 0)%Z -> d i = (-1)%Z /\ (1 < PtrInfo.count r)%Z) ->
  balanced tr hs -> held tr hs -> balanced tr' hs' /\ held tr' hs'.
Proof.
  intros Hsz Hlen Hg Hc Hr Hneg. apply (world_next tr tr' hs hs' d); try done.
  - unfold size_ok. by rewrite Hlen.
  - intros i _ Hi. by apply Hr.
  - intros i H1 H2. rewrite Hlen in H2. lia.
Qed.

(** A tracker that has gained the record [j] with count [1], held by exactly
    one of the handles [hs']. *)
Lemma world_one_more tr tr' hs hs' (d : N -> Z) :
  size_ok tr' ->
  length (id_info tr') = S (length (id_info tr)) ->
  grows tr tr' ->
  (forall i, i < N.of_nat (length (id_info tr)) ->
     forall c, count_at tr i = int_wrap c -> count_at tr' i = int_wrap (c + d i)) ->
  count_at tr' (N.of_nat (length (id_info tr))) = 1%Z ->
  (forall i, i < N.of_nat (length (id_info tr)) -> refs hs' i = (refs hs i + d i)%Z) ->
  refs hs' (N.of_nat (length (id_info tr))) = 1%Z ->
  (forall i r, vec_at (id_info tr) i = Some r -> PtrInfo.IsActive r = true ->
     (d i < 0)%Z -> d i = (-1)%Z /\ (1 < PtrInfo.count r)%Z) ->
  balanced tr hs -> held tr hs -> balanced tr' hs' /\ held tr' hs'.
Proof.
  intros Hsz Hlen Hg Hc Hn Hr Hrn Hneg. apply (world_next tr tr' hs hs' d); try done.
  - intros i Hi _. by apply Hc.
  - intros i Hi _. by apply Hr.
  - intros i H1 H2. rewrite Hlen in H2.
    assert (i = N.of_nat (length (id_info tr))) as -> by lia. done.
Qed.

Lemma link_facts tr tr' a i :
  wf_tracker tr -> size_ok tr ->
  ptr_id tr !! a = Some i -> Tracker.IncID i tr = Ok tt tr' ->
  valid_handle tr' (Ptr.Build a i) /\
  length (id_info tr') = length (id_info tr) /\
  forall k, k < N.of_nat (length (id_info tr)) ->
    forall c, count_at tr k = int_wrap c ->
      count_at tr' k = int_wrap (c + ind (N.eqb i k)).
Proof.
  intros [W1 _] Hsz Hi Hinc.
  destruct (W1 a i Hi) as (r & Hr & Hp).
  pose proof (steady_IncID i tr) as Hreach. rewrite Hinc in Hreach. simpl in Hreach.
  apply reach_grows in Hreach.
  destruct (IncID_count _ _ _ Hinc Hsz) as [Hlen Hc].
  split; [|done].
  eapply grows_valid_handle; [done|]. right. exists r. done.
Qed.

(** The side condition of [world_next] on the ids that lose a holder. *)
Ltac lost_holder :=
  let i := fresh "i" in let r := fresh "r" in
  let Hr := fresh "Hr" in let Ha := fresh "Ha" in
  intros i r Hr Ha; unfold ind;
  repeat match goal with
         | |- context [N.eqb ?a ?b] => destruct (N.eqb_spec a b)
         end;
  subst; try lia; try congruence;
  intros _; (split; [lia|]); eauto.

Lemma step_wf op w w' :
  step op w = Next w' -> size_ok (tracker w') -> wf_world w -> wf_world w'.
Proof.
  intros Hstep Hsz' (Hwf & Hv & Hb & Hh).
  pose proof (step_reach op w) as Hreach. rewrite Hstep in Hreach.
  pose proof (reach_grows _ _ Hreach) as Hg.
  pose proof (grows_size_ok _ _ Hg Hsz') as Hsz.
  pose proof (grows_handles_valid _ _ _ Hg Hv) as Hv'.
  split; [by eapply reach_wf|].
  destruct w as [tr hs], w' as [tr' hs']. simpl in *.
  destruct op; unfold step in Hstep; cbn [handles] in Hstep.
  - (* OpDefault *)
    apply lift_Next in Hstep as (p & Hm & ->).
    apply ret_Ok in Hm as [-> <-].
    split; [apply handles_valid_app; [done|]; intros ? [= <-]; by left|].
    eapply (world_same_length _ _ _ _ (fun _ => 0%Z) Hsz eq_refl Hg);
      [| | |exact Hb|exact Hh].
    + intros i _ _ c ->. f_equal. lia.
    + intros i Hi. rewrite refs_app. ind_cases.
    + lost_holder.
  - (* OpCopy *)
    apply with_handle_Next in Hstep as (s & Hs & Hstep).
    apply lift_Next in Hstep as (p & Hm & ->).
    apply CopyCtor_Ok in Hm as [-> Hinc].
    destruct (IncID_count _ _ _ Hinc Hsz) as [Hlen Hc].
    split.
    + apply handles_valid_app; [done|]. intros ? [= <-].
      eapply valid_handle_fields; [| |by eapply Hv']; done.
    + eapply (world_same_length _ _ _ _ (fun i => ind (N.eqb (Ptr.id s) i)) Hsz Hlen Hg);
        [| | |exact Hb|exact Hh].
      * intros i Hi _. by apply Hc.
      * intros i Hi. by rewrite refs_app.
      * lost_holder.
  - (* OpMove *)
    apply with_handle_Next in Hstep as (s & Hs & Hstep).
    apply lift_Next in Hstep as ([p s'] & Hm & ->).
    apply ret_Ok in Hm as [[= -> ->] <-].
    split.
    + apply handles_valid_app.
      * apply handles_valid_insert; [done|]. intros ? [= <-]. by left.
      * intros ? [= <-]. eapply valid_handle_fields; [| |by eapply Hv']; done.
    + eapply (world_same_length _ _ _ _ (fun _ => 0%Z) Hsz eq_refl Hg);
        [| | |exact Hb|exact Hh].
      * intros i _ _ c ->. f_equal. lia.
      * intros i Hi. rewrite refs_app, (refs_insert _ _ _ _ _ Hs). ind_cases.
      * lost_holder.
  - (* OpFromRaw *)
    apply lift_Next in Hstep as (q & Hm & ->).
    apply FromRaw_Ok in Hm as [(i & Hi & Hinc & ->)|[[Hnew Hq]|[-> ->]]].
    + destruct (link_facts _ _ _ _ Hwf Hsz Hi Hinc) as (Hvq & Hlen & Hc).
      split; [apply handles_valid_app; [done|]; by intros ? [= <-]|].
      eapply (world_same_length _ _ _ _ (fun k => ind (N.eqb i k)) Hsz Hlen Hg);
        [| | |exact Hb|exact Hh].
      * intros k Hk _. by apply Hc.
      * intros k Hk. by rewrite refs_app.
      * lost_holder.
    + destruct (New_count _ _ _ _ Hnew) as (Hid & Hlen & Hat & Hc).
      assert (Hfresh : Ptr.id q <> UNTRACKED).
      { unfold size_ok in Hsz'. rewrite Hlen in Hsz'. lia. }
      split.
      * apply handles_valid_app; [done|]. intros ? [= <-]. right.
        exists (PtrInfo.New p). split; [done|]. by rewrite Hq.
      * eapply (world_one_more _ _ _ _ (fun _ => 0%Z) Hsz' Hlen Hg);
          [| | | | |exact Hb|exact Hh].
        -- intros i Hi c Hcc. rewrite Hc by lia. rewrite decide_False by lia.
           rewrite Hcc. f_equal. lia.
        -- rewrite Hc by lia. by rewrite decide_True.
        -- intros i Hi. rewrite refs_app. ind_cases.
        -- rewrite refs_app. rewrite (refs_fresh tr) by (try done; lia).
           rewrite <- Hid. ind_cases.
        -- lost_holder.
    + split; [apply handles_valid_app; [done|]; intros ? [= <-]; by left|].
      eapply (world_same_length _ _ _ _ (fun _ => 0%Z) Hsz eq_refl Hg);
        [| | |exact Hb|exact Hh].
      * intros i _ _ c ->. f_equal. lia.
      * intros i Hi. rewrite refs_app. ind_cases.
      * lost_holder.
  - (* OpFromArray *)
    apply lift_Next in Hstep as (q & Hm & ->).
    apply FromArray_Ok in Hm as [(i & Hi & Hinc & ->)|[[Hnew Hq]|[-> ->]]].
    + destruct (link_facts _ _ _ _ Hwf Hsz Hi Hinc) as (Hvq & Hlen & Hc).
      split; [apply handles_valid_app; [done|]; by intros ? [= <-]|].
      eapply (world_same_length _ _ _ _ (fun k => ind (N.eqb i k)) Hsz Hlen Hg);
        [| | |exact Hb|exact Hh].
      * intros k Hk _. by apply Hc.
      * intros k Hk. by rewrite refs_app.
      * lost_holder.
    + destruct (NewArray_count _ _ _ _ _ Hnew) as (Hid & Hlen & Hat & Hc).
      assert (Hfresh : Ptr.id q <> UNTRACKED).
      { unfold size_ok in Hsz'. rewrite Hlen in Hsz'. lia. }
      split.
      * apply handles_valid_app; [done|]. intros ? [= <-]. right.
        eexists. split; [done|]. by rewrite Hq.
      * eapply (world_one_more _ _ _ _ (fun _ => 0%Z) Hsz' Hlen Hg);
          [| | | | |exact Hb|exact Hh].
        -- intros i Hi c Hcc. rewrite Hc by lia. rewrite decide_False by lia.
           rewrite Hcc. f_equal. lia.
        -- rewrite Hc by lia. by rewrite decide_True.
        -- intros i Hi. rewrite refs_app. ind_cases.
        -- rewrite refs_app. rewrite (refs_fresh tr) by (try done; lia).
           rewrite <- Hid. ind_cases.
        -- lost_holder.
    + split; [apply handles_valid_app; [done|]; intros ? [= <-]; by left|].
      eapply (world_same_length _ _ _ _ (fun _ => 0%Z) Hsz eq_refl Hg);
        [| | |exact Hb|exact Hh].
      * intros i _ _ c ->. f_equal. lia.
      * intros i Hi. rewrite refs_app. ind_cases.
      * lost_holder.
  - (* OpDtor *)
    apply with_handle_Next in Hstep as (s & Hs & Hstep).
    apply lift_Next in Hstep as ([] & Hm & ->). unfold Ptr.Dtor in Hm.
    destruct (DecID_count _ _ _ Hm Hsz) as (Hlen & Hc & Hlast).
    split; [apply handles_valid_insert; [done|]; by intros ? [=]|].
    eapply (world_same_length _ _ _ _ (fun i => (- ind (N.eqb (Ptr.id s) i))%Z)
              Hsz Hlen Hg); [| | |exact Hb|exact Hh].
    + intros i Hi _. by apply Hc.
    + intros i Hi. rewrite (refs_insert _ _ _ _ _ Hs). ind_cases.
    + lost_holder.
  - (* OpNew *)
    apply with_handle_Next in Hstep as (s & Hs & Hstep).
    apply lift_Next in Hstep as (q & Hm & ->).
    apply PtrNew_Ok in Hm as (tr1 & Hdec & Hnew & Hq).
    destruct (DecID_count _ _ _ Hdec Hsz) as (Hlen1 & Hc1 & Hlast).
    destruct (New_count _ _ _ _ Hnew) as (Hid & Hlen & Hat & Hc).
    rewrite Hlen1 in Hid, Hlen, Hc.
    assert (Hfresh : Ptr.id q <> UNTRACKED).
    { unfold size_ok in Hsz'. rewrite Hlen in Hsz'. lia. }
    split.
    + apply handles_valid_insert; [done|]. intros ? [= <-]. right.
      eexists. split; [done|]. by rewrite Hq.
    + eapply (world_one_more _ _ _ _ (fun i => (- ind (N.eqb (Ptr.id s) i))%Z)
                Hsz' Hlen Hg); [| | | | |exact Hb|exact Hh].
      * intros i Hi c Hcc. rewrite Hc by lia. rewrite decide_False by lia.
        by apply Hc1.
      * rewrite Hc by lia. by rewrite decide_True.
      * intros i Hi. rewrite (refs_insert _ _ _ _ _ Hs). ind_cases.
      * rewrite (refs_insert _ _ _ _ _ Hs). rewrite (refs_fresh tr) by (try done; lia).
        rewrite (holds_valid_fresh tr s) by (try done; try lia; by eapply Hv).
        rewrite <- Hid. ind_cases.
      * lost_holder.
  - (* OpNewArray *)
    apply with_handle_Next in Hstep as (s & Hs & Hstep).
    apply lift_Next in Hstep as (q & Hm & ->).
    apply PtrNewArray_Ok in Hm as (tr1 & Hdec & Hnew & Hq).
    destruct (DecID_count _ _ _ Hdec Hsz) as (Hlen1 & Hc1 & Hlast).
    destruct (NewArray_count _ _ _ _ _ Hnew) as (Hid & Hlen & Hat & Hc).
    rewrite Hlen1 in Hid, Hlen, Hc.
    assert (Hfresh : Ptr.id q <> UNTRACKED).
    { unfold size_ok in Hsz'. rewrite Hlen in Hsz'. lia. }
    split.
    + apply handles_valid_insert; [done|]. intros ? [= <-]. right.
      eexists. split; [done|]. by rewrite Hq.
    + eapply (world_one_more _ _ _ _ (fun i => (- ind (N.eqb (Ptr.id s) i))%Z)
                Hsz' Hlen Hg); [| | | | |exact Hb|exact Hh].
      * intros i Hi c Hcc. rewrite Hc by lia. rewrite decide_False by lia.
        by apply Hc1.
      * rewrite Hc by lia. by rewrite decide_True.
      * intros i Hi. rewrite (refs_insert _ _ _ _ _ Hs). ind_cases.
      * rewrite (refs_insert _ _ _ _ _ Hs). rewrite (refs_fresh tr) by (try done; lia).
        rewrite (holds_valid_fresh tr s) by (try done; try lia; by eapply Hv).
        rewrite <- Hid. ind_cases.
      * lost_holder.
  - (* OpDelete *)
    apply with_handle_Next in Hstep as (s & Hs & Hstep).
    apply lift_Next in Hstep as ([] & Hm & ->).
    apply Delete_Ok in Hm as (_ & r & Hr & _ & ->).
    split; [done|].
    assert (Hlen : length (id_info (upd tr (Ptr.id s) (mark r))) = length (id_info tr))
      by (simpl; by rewrite vec_set_length).
    eapply (world_same_length _ _ _ _ (fun _ => 0%Z) Hsz Hlen Hg);
      [| | |exact Hb|exact Hh].
    + intros i Hi _ c Hcc. rewrite Z.add_0_r, <- Hcc. rewrite count_at_upd.
      case_decide as Hd; [|done].
      destruct Hd as [<- _]. unfold count_at. by rewrite Hr.
    + intros i _. lia.
    + lost_holder.
  - (* OpDeleteArray *)
    apply with_handle_Next in Hstep as (s & Hs & Hstep).
    apply lift_Next in Hstep as ([] & Hm & ->).
    apply DeleteArray_Ok in Hm as (_ & r & Hr & _ & ->).
    split; [done|].
    assert (Hlen : length (id_info (upd tr (Ptr.id s) (mark r))) = length (id_info tr))
      by (simpl; by rewrite vec_set_length).
    eapply (world_same_length _ _ _ _ (fun _ => 0%Z) Hsz Hlen Hg);
      [| | |exact Hb|exact Hh].
    + intros i Hi _ c Hcc. rewrite Z.add_0_r, <- Hcc. rewrite count_at_upd.
      case_decide as Hd; [|done].
      destruct Hd as [<- _]. unfold count_at. by rewrite Hr.
    + intros i _. lia.
    + lost_holder.
  - (* OpAssignCopy *)
    apply with_handle_Next in Hstep as (d & Hd & Hstep).
    apply with_handle_Next in Hstep as (s & Hs & Hstep).
    apply lift_Next in Hstep as (q & Hm & ->).
    apply assign_copy_Ok in Hm as [(Hne & tr1 & Hdec & Hinc & ->)|(Heq & -> & ->)].
    + destruct (DecID_count _ _ _ Hdec Hsz) as (Hlen1 & Hc1 & Hlast).
      assert (Hsz1 : size_ok tr1) by (unfold size_ok; by rewrite Hlen1).
      destruct (IncID_count _ _ _ Hinc Hsz1) as [Hlen Hc].
      rewrite Hlen1 in Hlen, Hc.
      split.
      * apply handles_valid_insert; [done|]. intros ? [= <-].
        eapply valid_handle_fields; [| |by eapply Hv']; done.
      * eapply (world_same_length _ _ _ _
                 (fun i => (ind (N.eqb (Ptr.id s) i) - ind (N.eqb (Ptr.id d) i))%Z)
                 Hsz Hlen Hg); [| | |exact Hb|exact Hh].
        -- intros i Hi _ c Hcc. rewrite (Hc i Hi _ (Hc1 i Hi c Hcc)). f_equal. lia.
        -- intros i Hi. rewrite (refs_insert _ _ _ _ _ Hd). ind_cases.
        -- lost_holder.
    + rewrite list_insert_id by done. done.
  - (* OpAssignMove *)
    apply with_handle_Next in Hstep as (d & Hd & Hstep).
    apply with_handle_Next in Hstep as (s & Hs & Hstep).
    apply lift_Next in Hstep as ([d' s'] & Hm & ->).
    apply assign_move_Ok in Hm as [(Hne & Hdec & -> & ->)|(Heq & -> & -> & ->)].
    + destruct (DecID_count _ _ _ Hdec Hsz) as (Hlen & Hc & Hlast).
      assert (Hds : dst <> src) by (intros ->; congruence).
      assert (Hd1 : <[src := Some Ptr.Default]> hs !! dst = Some (Some d))
        by by rewrite list_lookup_insert_ne.
      split.
      * apply handles_valid_insert.
        -- apply handles_valid_insert; [done|]. intros ? [= <-]. by left.
        -- intros ? [= <-]. eapply valid_handle_fields; [| |by eapply Hv']; done.
      * eapply (world_same_length _ _ _ _
                 (fun i => (- ind (N.eqb (Ptr.id d) i))%Z) Hsz Hlen Hg);
          [| | |exact Hb|exact Hh].
        -- intros i Hi _. by apply Hc.
        -- intros i Hi. rewrite (refs_insert _ _ _ _ _ Hd1), (refs_insert _ _ _ _ _ Hs).
           ind_cases.
        -- lost_holder.
    + rewrite (list_insert_id hs src) by done. rewrite list_insert_id by done. done.
  - (* OpAssignRaw *)
    apply with_handle_Next in Hstep as (d & Hd & Hstep).
    apply lift_Next in Hstep as (q & Hm & ->).
    apply assign_raw_Ok in Hm as (tr1 & Hdec & Hcase).
    destruct (DecID_count _ _ _ Hdec Hsz) as (Hlen1 & Hc1 & Hlast).
    assert (Hsz1 : size_ok tr1) by (unfold size_ok; by rewrite Hlen1).
    assert (Hwf1 : wf_tracker tr1).
    { pose proof (steady_DecID (Ptr.id d) tr) as Hr1. rewrite Hdec in Hr1.
      by eapply reach_wf. }
    destruct Hcase as [(i & Hi & Hinc & ->)|[-> ->]].
    + destruct (link_facts _ _ _ _ Hwf1 Hsz1 Hi Hinc) as (Hvq & Hlen & Hc).
      rewrite Hlen1 in Hlen, Hc.
      split; [apply handles_valid_insert; [done|]; by intros ? [= <-]|].
      eapply (world_same_length _ _ _ _
               (fun k => (ind (N.eqb i k) - ind (N.eqb (Ptr.id d) k))%Z) Hsz Hlen Hg);
        [| | |exact Hb|exact Hh].
      * intros k Hk _ c Hcc. rewrite (Hc k Hk _ (Hc1 k Hk c Hcc)). f_equal. lia.
      * intros k Hk. rewrite (refs_insert _ _ _ _ _ Hd). ind_cases.
      * lost_holder.
    + split; [apply handles_valid_insert; [done|]; intros ? [= <-]; by left|].
      eapply (world_same_length _ _ _ _
               (fun k => (- ind (N.eqb (Ptr.id d) k))%Z) Hsz Hlen1 Hg);
        [| | |exact Hb|exact Hh].
      * intros k Hk _. by apply Hc1.
      * intros k Hk. rewrite (refs_insert _ _ _ _ _ Hd). ind_cases.
      * lost_holder.
Qed.

Lemma run_Next_cons op ops w w' :
  run (op :: ops) w = Next w' ->
  exists w1, step op w = Next w1 /\ run ops w1 = Next w'.
Proof. simpl. destruct (step op w) as [w1| |]; [eauto|done|done]. Qed.

Lemma run_wf ops : forall w w',
  run ops w = Next w' -> size_ok (tracker w') -> wf_world w -> wf_world w'.
Proof.
  induction ops as [|op ops IH]; intros w w' Hrun Hsz Hw.
  - simpl in Hrun. by injection Hrun as <-.
  - apply run_Next_cons in Hrun as (w1 & Hstep & Hrun).
    eapply IH; [done|done|]. eapply step_wf; [done| |done].
    pose proof (run_reach ops w1) as Hr. rewrite Hrun in Hr.
    eapply grows_size_ok; [by apply reach_grows|done].
Qed.

Lemma start_wf : wf_world start.
Proof.
  split; [apply empty_wf|]. split; [|split].
  - intros h p Hh. done.
  - intros i Hi. simpl in Hi. lia.
  - intros i r Hr. unfold vec_at in Hr. simpl in Hr. by destruct (_ <? _).
Qed.

Lemma handle_at_Some w h p : handle_at w h = Some p <-> handles w !! h = Some (Some p).
Proof.
  unfold handle_at. destruct (handles w !! h) as [[q|]|]; split; congruence.
Qed.

Lemma bump_small r d :
  (INT_MIN <= PtrInfo.count r + d <= INT_MAX)%Z ->
  bump r d = PtrInfo.Build (PtrInfo.ptr r) (PtrInfo.count r + d) (PtrInfo.status r)
               (PtrInfo.array_bytes r).
Proof. intros H. unfold bump. by rewrite int_wrap_small. Qed.

Lemma FromRaw_active tr a track :
  size_ok tr -> Tracker.IsActive a tr = Ok true tr ->
  exists i r,
    ptr_id tr !! a = Some i /\ vec_at (id_info tr) i = Some r /\
    Ptr.FromRaw a track tr = Ok (Ptr.Build a i) (upd tr i (bump r 1)).
Proof.
  intros Hsz Hact. pose proof Hact as Hact'.
  apply IsActive_Ok in Hact' as [_ [[_ ?]|(i & r & Hi & Hr & Ha)]]; [done|].
  exists i, r. split; [done|]. split; [done|].
  assert (Hne : i <> UNTRACKED).
  { apply vec_at_lt in Hr. unfold size_ok in Hsz. lia. }
  assert (Hcur : Tracker.GetCurID a tr = Ok i tr) by by apply GetCurID_Ok.
  assert (Hinc : Tracker.IncID i tr = Ok tt (upd tr i (bump r 1))).
  { apply IncID_Ok. right. split; [done|]. exists r. eexists. split; [done|].
    split; [|done]. apply Inc_Done. split; [|done]. by apply IsActive_true. }
  unfold Ptr.FromRaw. unfold bind at 1. rewrite Hact.
  unfold bind. rewrite Hcur, Hinc. done.
Qed.

(** The raw-pointer constructor finds the record of an active address. *)
Lemma FromRaw_record tr i r track :
  wf_tracker tr -> size_ok tr ->
  vec_at (id_info tr) i = Some r -> PtrInfo.status r <> DELETED ->
  Ptr.FromRaw (PtrInfo.ptr r) track tr
  = Ok (Ptr.Build (PtrInfo.ptr r) i) (upd tr i (bump r 1)).
Proof.
  intros [_ W2] Hsz Hr Hs. apply IsActive_true in Hs.
  pose proof (W2 i r Hr Hs) as Hcur.
  assert (Hact : Tracker.IsActive (PtrInfo.ptr r) tr = Ok true tr).
  { apply IsActive_Ok. split; [done|]. right. exists i, r. by rewrite Hs. }
  destruct (FromRaw_active tr _ track Hsz Hact) as (i' & r' & Hi & Hr' & Hf).
  rewrite Hcur in Hi. injection Hi as <-. rewrite Hr in Hr'. by injection Hr' as <-.
Qed.





(** C2 as stated fails: with two addresses registered and one released the
    scan does not report two records and one still active; it stops at the
    assertion on the record that is still active.  (The second number it
    would print counts the records with a non-zero count, here both.) *)
Lemma shutdown_scan_stops_on_leak :
  run (register_all [256; 512] ++ release_all [0%nat]) start
  = Next {| tracker := {| ptr_id := {[ 256 := 0; 512 := 1 ]};
                          id_info := [PtrInfo.Build 256 1 DELETED 0;
                                      PtrInfo.Build 512 1 ACTIVE 0] |};
            handles := [Some (Ptr.Build 256 0); Some (Ptr.Build 512 1)] |} /\
  Tracker.Destroy {| ptr_id := {[ 256 := 0; 512 := 1 ]};
                     id_info := [PtrInfo.Build 256 1 DELETED 0;
                                 PtrInfo.Build 512 1 ACTIVE 0] |}
  = Abort (AssertFail "info.IsActive() == false")
          {| ptr_id := {[ 256 := 0; 512 := 1 ]};
             id_info := [PtrInfo.Build 256 1 DELETED 0;
                         PtrInfo.Build 512 1 ACTIVE 0] |} /\
  num_held [PtrInfo.Build 256 1 DELETED 0; PtrInfo.Build 512 1 ACTIVE 0] = 2.
Proof. repeat split; vm_compute; reflexivity. Qed.

Lemma shutdown_scan_witness :
  exists w',
    run (register_all [256; 512] ++ release_all [0%nat]) start = Next w' /\
    Tracker.GetNumIDs (tracker w') = Ok (N.of_nat 2) (tracker w') /\
    num_active (id_info (tracker w')) = N.of_nat (2 - 1) /\
    num_held (id_info (tracker w')) = N.of_nat 2 /\
    ((1 < 2)%nat ->
       Tracker.Destroy (tracker w')
       = Abort (AssertFail "info.IsActive() == false") (tracker w')) /\
    (1%nat = 2%nat ->
       Tracker.Destroy (tracker w') = Ok (N.of_nat 2, N.of_nat 2) (tracker w')).
Proof.
  apply (proj2 shutdown_scan [256; 512] [0%nat]).
  - apply (bool_decide_unpack (NoDup [256; 512])). vm_compute. exact I.
  - apply (bool_decide_unpack (0 ∉ [256; 512])). vm_compute. exact I.
  - apply (bool_decide_unpack (NoDup [0%nat])). vm_compute. exact I.
  - intros h Hh. apply list_elem_of_singleton in Hh. subst h. simpl. lia.
Defined.

(** ** The end-to-end scenario *)

(** [a] is constructed tracked from [0x100], [b] copies it, [a] goes away,
    [b.Delete()], [b] goes away: one record, deleted, count back to zero. *)
Example end_to_end :
  run [OpFromRaw 256 true; OpCopy 0; OpDtor 0; OpDelete 1; OpDtor 1] start
  = Next {| tracker := {| ptr_id := {[ 256 := 0 ]};
                          id_info := [PtrInfo.Build 256 0 DELETED 0] |};
            handles := [None; None] |}.
Proof. vm_compute. reflexivity. Qed.

(** A later dereference through a handle that still holds id [0] fails. *)
Example deref_after_delete :
  Ptr.deref (Ptr.Build 256 0)
    {| ptr_id := {[ 256 := 0 ]}; id_info := [PtrInfo.Build 256 1 DELETED 0] |}
  = Abort (AssertFail "Tracker().IsDeleted(id) == false")
      {| ptr_id := {[ 256 := 0 ]}; id_info := [PtrInfo.Build 256 1 DELETED 0] |}.
Proof. reflexivity. Qed.

(** Three aliases of one allocation share record [0] with count [3];
    destroying one of them leaves count [2]. *)
Example three_aliases :
  run [OpFromRaw 256 true; OpFromRaw 256 false; OpFromRaw 256 false] start
  = Next {| tracker := {| ptr_id := {[ 256 := 0 ]};
                          id_info := [PtrInfo.Build 256 3 ACTIVE 0] |};
            handles := [Some (Ptr.Build 256 0); Some (Ptr.Build 256 0);
                        Some (Ptr.Build 256 0)] |} /\
  run [OpFromRaw 256 true; OpFromRaw 256 false; OpFromRaw 256 false; OpDtor 1] start
  = Next {| tracker := {| ptr_id := {[ 256 := 0 ]};
                          id_info := [PtrInfo.Build 256 2 ACTIVE 0] |};
            handles := [Some (Ptr.Build 256 0); None; Some (Ptr.Build 256 0)] |}.
Proof. split; vm_compute; reflexivity. Qed.

(** The last alias of a record that was never released cannot be dropped. *)
Example last_alias_cannot_be_dropped :
  run [OpFromRaw 256 true; OpDtor 0] start
  = Stop (AssertFail "Removing last reference to owned Ptr!")
         {| ptr_id := {[ 256 := 0 ]}; id_info := [PtrInfo.Build 256 1 ACTIVE 0] |}.
Proof. vm_compute. reflexivity. Qed.

(** * More of [Ptr.h] *)

(** ** [Log2] and [Hash] *)

Lemma Log2_unfold x : Log2 x = if x <=? 1 then 0 else Log2 (x / 2) + 1.
Proof.
  destruct x as [|[q|q|]]; try reflexivity.
  - replace (N.pos q~1 / 2) with (N.pos q); [reflexivity|].
    rewrite <- N.div2_div. reflexivity.
  - replace (N.pos q~0 / 2) with (N.pos q); [reflexivity|].
    rewrite <- N.div2_div. reflexivity.
Qed.

Lemma Log2_pos_size p : Log2_pos p + 1 = N.pos (Pos.size p).
Proof.
  induction p as [q IH|q IH|]; [| |reflexivity];
    cbn [Log2_pos Pos.size]; rewrite IH; lia.
Qed.

Lemma Log2_log2 x : Log2 x = N.log2 x.
Proof.
  destruct x as [|[q|q|]]; simpl; try reflexivity; apply Log2_pos_size.
Qed.

(** X1.  [Log2] is the integer logarithm rounded down: for a positive [x],
    [2^(Log2 x) <= x < 2^(Log2 x + 1)]; it is [0] at [0] and at [1], and it
    satisfies the recursion of the source. *)
Theorem Log2_floor :
  (forall x, 0 < x -> 2 ^ Log2 x <= x < 2 ^ (Log2 x + 1)) /\
  Log2 0 = 0 /\ Log2 1 = 0 /\
  (forall x, Log2 x = if x <=? 1 then 0 else Log2 (x / 2) + 1).
Proof.
  split; [|split; [done|split; [done|apply Log2_unfold]]].
  intros x Hx. rewrite Log2_log2, N.add_1_r. by apply N.log2_spec.
Qed.

Lemma Log2_floor_witness : 2 ^ Log2 24 <= 24 < 2 ^ (Log2 24 + 1).
Proof. apply (proj1 Log2_floor 24). lia. Defined.

Lemma Log2_succ_pow2 k : 1 <= k -> Log2 (1 + 2 ^ k) = k.
Proof.
  intros Hk. rewrite Log2_log2.
  assert (2 ^ 1 <= 2 ^ k) by (apply N.pow_le_mono_r; lia).
  change (2 ^ 1) with 2 in *.
  apply (N.log2_unique' _ k 1); lia.
Qed.

(** X2.  The hash is the address divided by [2^Log2(1 + sizeof(TYPE))] and
    does not look at the id.  For a type whose size is a power of two
    [2^k] with [k >= 1] the shift is exactly [k], so two handles to
    addresses that are multiples of the size hash alike only if the
    addresses are equal.  For a one-byte type the shift is [1], not [0]: the
    even address [2a] and its neighbour [2a + 1] always share a hash. *)
Theorem Hash_aligned :
  (forall sz p i, Handle.Hash sz (Ptr.Build p i) = p / 2 ^ Log2 (1 + sz)) /\
  (forall k a b i j, 1 <= k ->
     Handle.Hash (2 ^ k) (Ptr.Build (a * 2 ^ k) i)
     = Handle.Hash (2 ^ k) (Ptr.Build (b * 2 ^ k) j) ->
     a = b) /\
  (forall a i j,
     Handle.Hash 1 (Ptr.Build (2 * a) i) = Handle.Hash 1 (Ptr.Build (2 * a + 1) j)).
Proof.
  split; [|split].
  - intros sz p i. unfold Handle.Hash. cbn [Ptr.ptr]. apply N.shiftr_div_pow2.
  - intros k a b i j Hk. unfold Handle.Hash. cbn [Ptr.ptr].
    rewrite Log2_succ_pow2 by done. rewrite !N.shiftr_div_pow2.
    assert (2 ^ k <> 0) by (apply N.pow_nonzero; lia).
    by rewrite !N.div_mul.
  - intros a i j. unfold Handle.Hash. cbn [Ptr.ptr].
    change (Log2 (1 + 1)) with 1. rewrite !N.shiftr_div_pow2.
    change (2 ^ 1) with 2.
    rewrite (N.mul_comm 2 a), N.div_mul by lia.
    rewrite N.div_add_l by lia. change (1 / 2) with 0. lia.
Qed.

Lemma Hash_aligned_witness :
  Handle.Hash 4 (Ptr.Build 12 0) = Handle.Hash 4 (Ptr.Build 12 UNTRACKED) /\ 3 = 3.
Proof.
  split; [reflexivity|].
  apply (proj1 (proj2 Hash_aligned) 2 3 3 0 UNTRACKED); [lia|reflexivity].
Defined.

(** ** The address map *)

Lemma upd_map_ok tr i r r' :
  vec_at (id_info tr) i = Some r -> PtrInfo.ptr r' = PtrInfo.ptr r ->
  map_ok tr -> map_ok (upd tr i r').
Proof.
  intros Hr Hptr [H0 Hrec]. split; [done|].
  intros j rj. simpl. rewrite vec_at_set. case_decide as Hd; [|apply Hrec].
  destruct Hd as [-> _]. intros [= <-]. rewrite Hptr. by apply Hrec.
Qed.

Lemma prim_map_ok tr tr' : prim tr tr' -> map_ok tr -> map_ok tr'.
Proof.
  destruct 1 as [tr i r r' Hr Hf|tr i r r' Hr Hc Hf|tr i r r' Hr Hf|tr i r b Hr Ha|tr p Hp Hre].
  - apply Inc_Done in Hf as [_ ->]. by eapply upd_map_ok.
  - apply Dec_Done in Hf as [_ ->]. by eapply upd_map_ok.
  - apply MarkDeleted_Done in Hf as [_ ->]. by eapply upd_map_ok.
  - by eapply upd_map_ok.
  - intros [H0 Hrec]. split; simpl.
    + by rewrite lookup_insert_ne.
    + intros j rj Hj.
      destruct (N.lt_ge_cases j (N.of_nat (length (id_info tr)))) as [Hlt|Hge].
      * rewrite vec_at_app_l in Hj by done.
        destruct (Hrec j rj Hj) as (Hnz & k & Hk & Hle). split; [done|].
        destruct (decide (p = PtrInfo.ptr rj)) as [<-|Hne].
        -- exists (N.of_nat (length (id_info tr))). rewrite lookup_insert_eq.
           split; [done|lia].
        -- exists k. by rewrite lookup_insert_ne.
      * pose proof (vec_at_lt _ _ _ Hj) as Hlt. rewrite length_app in Hlt. simpl in Hlt.
        assert (j = N.of_nat (length (id_info tr))) as -> by lia.
        rewrite vec_at_app_new in Hj. injection Hj as <-. simpl. split; [done|].
        exists (N.of_nat (length (id_info tr))). by rewrite lookup_insert_eq.
Qed.

Lemma reach_map_ok tr tr' : reach tr tr' -> map_ok tr -> map_ok tr'.
Proof.
  induction 1 as [|tr1 tr2 tr3 Hp _ IH]; [done|].
  intros Hm. apply IH. by eapply prim_map_ok.
Qed.

Lemma empty_map_ok : map_ok Tracker.empty.
Proof.
  split; [done|]. intros i r Hr. unfold vec_at in Hr. simpl in Hr.
  by destruct (_ <? _).
Qed.

Lemma prim_keys tr tr' p :
  prim tr tr' -> is_Some (ptr_id tr !! p) -> is_Some (ptr_id tr' !! p).
Proof.
  destruct 1 as [tr i r r' Hr Hf|tr i r r' Hr Hc Hf|tr i r r' Hr Hf|tr i r b Hr Ha|tr q Hq Hre];
    try done.
  intros Hs. simpl. destruct (decide (q = p)) as [->|Hne].
  - rewrite lookup_insert_eq. eauto.
  - by rewrite lookup_insert_ne.
Qed.

Lemma reach_keys tr tr' p :
  reach tr tr' -> is_Some (ptr_id tr !! p) -> is_Some (ptr_id tr' !! p).
Proof.
  induction 1 as [|tr1 tr2 tr3 Hp _ IH]; [done|].
  intros Hs. apply IH. by eapply prim_keys.
Qed.

(** X3.  In every tracker that tracker calls or a program over handles
    produce from the empty one: an address in the map leads to an existing
    record for that address, and an active record is the one its address
    leads to (so no address has two active records); the null address is
    never in the map and no record is about it; every record's address is in
    the map, under an id that is not older than the record.  From any
    tracker, an address that is in the map stays in the map: deleting never
    erases the entry. *)
Theorem address_map_invariants :
  (forall ops, wf_tracker (final (trun ops Tracker.empty)) /\
               map_ok (final (trun ops Tracker.empty))) /\
  (forall ops, holds_after (run ops start) (fun tr => wf_tracker tr /\ map_ok tr)) /\
  (forall ops tr p, is_Some (ptr_id tr !! p) ->
                    is_Some (ptr_id (final (trun ops tr)) !! p)) /\
  (forall ops w p, is_Some (ptr_id (tracker w) !! p) ->
                   holds_after (run ops w) (fun tr => is_Some (ptr_id tr !! p))).
Proof.
  split; [|split; [|split]].
  - intros ops. pose proof (steady_trun ops Tracker.empty) as Hr. split.
    + eapply reach_wf; [done|apply empty_wf].
    + eapply reach_map_ok; [done|apply empty_map_ok].
  - intros ops. apply run_holds_after. intros tr' Hr. split.
    + eapply reach_wf; [done|apply empty_wf].
    + eapply reach_map_ok; [done|apply empty_map_ok].
  - intros ops tr p. apply reach_keys, steady_trun.
  - intros ops w p Hs. apply run_holds_after. intros tr' Hr. by eapply reach_keys.
Qed.

Lemma address_map_invariants_witness :
  is_Some (ptr_id (final (trun [TMarkDeleted 0; TNew 512] (push Tracker.empty 256))) !! 256).
Proof.
  apply (proj1 (proj2 (proj2 address_map_invariants))). by exists 0.
Defined.

(** ** Registration and the queries *)

Lemma run_query_New tr p :
  size_ok (push tr p) ->
  let i := N.of_nat (length (id_info tr)) in
  Tracker.HasPtr p (push tr p) = Ok true (push tr p) /\
  Tracker.GetCurID p (push tr p) = Ok i (push tr p) /\
  Tracker.IsActive p (push tr p) = Ok true (push tr p) /\
  Tracker.IsDeleted i (push tr p) = Ok false (push tr p).
Proof.
  intros Hsz i.
  assert (Hp : ptr_id (push tr p) !! p = Some i) by apply lookup_insert_eq.
  assert (Hr : vec_at (id_info (push tr p)) i = Some (PtrInfo.New p)) by apply push_at_new.
  assert (Hne : i <> UNTRACKED).
  { apply vec_at_lt in Hr. unfold size_ok in Hsz. lia. }
  split; [|split; [|split]].
  - unfold Tracker.HasPtr. by rewrite Hp.
  - by apply GetCurID_Ok.
  - apply IsActive_Ok. split; [done|]. right. by exists i, (PtrInfo.New p).
  - apply IsDeleted_Ok. split; [done|]. right. split; [done|]. by exists (PtrInfo.New p).
Qed.

(** X4.  A registration can be read back.  After [New p] has returned [i]
    (in a tracker whose size still fits a [size_t]): [p] is in the map with
    current id [i], [p] is active, [i] is not deleted, not an array, has
    count [1] and byte size [0], and [i + 1] ids exist.  After
    [NewArray p bytes] the same holds with [i] an array of [bytes] bytes.
    In both cases the entry of every other address is as before. *)
Theorem New_then_lookup :
  (forall tr p i tr',
     Tracker.New p tr = Ok i tr' -> size_ok tr' ->
     Tracker.HasPtr p tr' = Ok true tr' /\
     Tracker.GetCurID p tr' = Ok i tr' /\
     Tracker.IsActive p tr' = Ok true tr' /\
     Tracker.IsDeleted i tr' = Ok false tr' /\
     Tracker.IsArrayID i tr' = Ok false tr' /\
     Tracker.GetIDCount i tr' = Ok 1%Z tr' /\
     Tracker.GetArrayBytes i tr' = Ok 0 tr' /\
     Tracker.GetNumIDs tr' = Ok (i + 1) tr' /\
     forall q, q <> p -> ptr_id tr' !! q = ptr_id tr !! q) /\
  (forall tr p bytes i tr',
     Tracker.NewArray p bytes tr = Ok i tr' -> size_ok tr' ->
     Tracker.HasPtr p tr' = Ok true tr' /\
     Tracker.GetCurID p tr' = Ok i tr' /\
     Tracker.IsActive p tr' = Ok true tr' /\
     Tracker.IsDeleted i tr' = Ok false tr' /\
     Tracker.IsArrayID i tr' = Ok true tr' /\
     Tracker.GetIDCount i tr' = Ok 1%Z tr' /\
     Tracker.GetArrayBytes i tr' = Ok bytes tr' /\
     Tracker.GetNumIDs tr' = Ok (i + 1) tr' /\
     forall q, q <> p -> ptr_id tr' !! q = ptr_id tr !! q).
Proof.
  split.
  - intros tr p i tr' Hnew Hsz. apply New_Ok in Hnew as (_ & _ & -> & ->).
    destruct (run_query_New tr p Hsz) as (H1 & H2 & H3 & H4).
    pose proof (push_at_new tr p) as Hr.
    repeat split; try done.
    + unfold Tracker.IsArrayID, bind, info_at. by rewrite Hr.
    + unfold Tracker.GetIDCount, bind, info_at. by rewrite Hr.
    + unfold Tracker.GetArrayBytes, bind, info_at. by rewrite Hr.
    + unfold Tracker.GetNumIDs. simpl. rewrite length_app. simpl. do 2 f_equal. lia.
    + intros q Hq. simpl. by rewrite lookup_insert_ne.
  - intros tr p bytes i tr' Hnew Hsz. apply NewArray_Ok in Hnew as (_ & _ & -> & ->).
    set (i := N.of_nat (length (id_info tr))) in *.
    set (a := PtrInfo.SetArray bytes (PtrInfo.New p)) in *.
    assert (Hp : ptr_id (upd (push tr p) i a) !! p = Some i) by apply lookup_insert_eq.
    assert (Hr : vec_at (id_info (upd (push tr p) i a)) i = Some a).
    { simpl. apply vec_at_set_eq. rewrite length_app. simpl. lia. }
    assert (Hne : i <> UNTRACKED).
    { apply vec_at_lt in Hr. unfold size_ok in Hsz. lia. }
    repeat split.
    + unfold Tracker.HasPtr. by rewrite Hp.
    + by apply GetCurID_Ok.
    + apply IsActive_Ok. split; [done|]. right. by exists i, a.
    + apply IsDeleted_Ok. split; [done|]. right. split; [done|]. by exists a.
    + unfold Tracker.IsArrayID, bind, info_at. by rewrite Hr.
    + unfold Tracker.GetIDCount, bind, info_at. by rewrite Hr.
    + unfold Tracker.GetArrayBytes, bind, info_at. by rewrite Hr.
    + unfold Tracker.GetNumIDs. simpl. rewrite vec_set_length, length_app. simpl.
      do 2 f_equal. lia.
    + intros q Hq. simpl. by rewrite lookup_insert_ne.
Qed.

Lemma New_then_lookup_witness :
  Tracker.GetCurID 256 (push Tracker.empty 256) = Ok 0 (push Tracker.empty 256) /\
  Tracker.GetIDCount 0 (push Tracker.empty 256) = Ok 1%Z (push Tracker.empty 256).
Proof.
  assert (Hsz : size_ok (push Tracker.empty 256)).
  { unfold size_ok, UNTRACKED. simpl. lia. }
  pose proof (proj1 New_then_lookup Tracker.empty 256 0 (push Tracker.empty 256)
                eq_refl Hsz) as H.
  split; [apply H|apply H].
Defined.

(** X5.  In a tracker whose size fits a [size_t], [New p] returns exactly
    when [p] is not null and [IsActive p] answers [false]: an address can be
    registered when it was never stored or when its current record is
    deleted, and never while it is active.  A registration that fails leaves
    the tracker as it was. *)
Theorem New_when_not_active (tr : PtrTracker) (p : N) (Hsize : size_ok tr) :
  ((exists i tr', Tracker.New p tr = Ok i tr') <->
   p <> 0 /\ Tracker.IsActive p tr = Ok false tr) /\
  (Tracker.IsActive p tr = Ok true tr ->
   Tracker.New p tr
   = Abort (AssertFail "!HasPtr(ptr) || IsDeleted(GetCurID(ptr))") tr \/
   Tracker.New p tr = Abort (AssertFail "ptr") tr) /\
  (forall e tr', Tracker.New p tr = Abort e tr' -> tr' = tr).
Proof.
  split; [|split].
  - split.
    + intros (i & tr' & Hnew). apply New_Ok in Hnew as (Hp & Hre & _). split; [done|].
      apply IsActive_Ok. split; [done|].
      destruct (ptr_id tr !! p) as [j|] eqn:Hj; [right|by left].
      destruct (Hre j Hj) as (_ & r & Hr & Ha). exists j, r. by rewrite Ha.
    + intros [Hp Hact]. exists (N.of_nat (length (id_info tr))), (push tr p).
      apply New_Ok. split; [done|]. split; [|done]. intros j Hj.
      apply IsActive_Ok in Hact as [_ [[Hnone _]|(j' & r & Hj' & Hr & Ha)]]; [congruence|].
      rewrite Hj in Hj'. injection Hj' as <-. split.
      * apply vec_at_lt in Hr. unfold size_ok in Hsize. lia.
      * exists r. by rewrite Ha.
  - intros Hact. apply IsActive_Ok in Hact as [_ [[_ ?]|(j & r & Hj & Hr & Ha)]]; [done|].
    assert (Hne : j <> UNTRACKED).
    { apply vec_at_lt in Hr. unfold size_ok in Hsize. lia. }
    unfold Tracker.New, bind, emp_assert, Tracker.GetNumIDs, Tracker.HasPtr.
    destruct (p =? 0); simpl; [by right|left].
    rewrite bool_decide_eq_true_2 by eauto. simpl.
    assert (Hcur : Tracker.GetCurID p tr = Ok j tr) by by apply GetCurID_Ok.
    assert (Hdel : Tracker.IsDeleted j tr = Ok false tr).
    { apply IsDeleted_Ok. split; [done|]. right. split; [done|]. exists r.
      by rewrite <- Ha. }
    unfold bind. rewrite Hcur, Hdel. done.
  - apply New_Abort.
Qed.

Lemma New_when_not_active_witness :
  (exists i tr', Tracker.New 256 Tracker.empty = Ok i tr') <->
  256 <> 0 /\ Tracker.IsActive 256 Tracker.empty = Ok false Tracker.empty.
Proof.
  apply (New_when_not_active Tracker.empty 256).
  unfold size_ok, UNTRACKED. simpl. lia.
Defined.

(** ** Handles to a deleted record *)

Lemma IsDeleted_run i tr r :
  i <> UNTRACKED -> vec_at (id_info tr) i = Some r ->
  Tracker.IsDeleted i tr = Ok (negb (PtrInfo.IsActive r)) tr.
Proof.
  intros Hne Hr. apply IsDeleted_Ok. split; [done|]. right. split; [done|]. by exists r.
Qed.

Lemma IncID_run i tr r :
  i <> UNTRACKED -> vec_at (id_info tr) i = Some r -> PtrInfo.status r <> DELETED ->
  Tracker.IncID i tr = Ok tt (upd tr i (bump r 1)).
Proof.
  intros Hne Hr Hs. apply IncID_Ok. right. split; [done|]. exists r, (bump r 1).
  split; [done|]. split; [|done]. by apply Inc_Done.
Qed.

Lemma IncID_deleted i tr r :
  i <> UNTRACKED -> vec_at (id_info tr) i = Some r -> PtrInfo.status r = DELETED ->
  Tracker.IncID i tr = Abort (AssertFail "Incrementing deleted pointer!") tr.
Proof.
  intros Hne Hr Hs. unfold Tracker.IncID. apply N.eqb_neq in Hne. rewrite Hne.
  unfold info_call. rewrite Hr. unfold PtrInfo.Inc. by rewrite Hs.
Qed.

Lemma DecID_run i tr r :
  i <> UNTRACKED -> vec_at (id_info tr) i = Some r -> (0 < PtrInfo.count r)%Z ->
  (1 < PtrInfo.count r)%Z \/ PtrInfo.status r = DELETED ->
  Tracker.DecID i tr = Ok tt (upd tr i (bump r (-1))).
Proof.
  intros Hne Hr Hc Hd. apply DecID_Ok. right. split; [done|]. exists r, (bump r (-1)).
  split; [done|]. split; [done|]. split; [|done]. by apply Dec_Done.
Qed.

Lemma in_range_not_untracked tr i r :
  size_ok tr -> vec_at (id_info tr) i = Some r -> i <> UNTRACKED.
Proof. intros Hsz Hr. apply vec_at_lt in Hr. unfold size_ok in Hsz. lia. Qed.

(** X6.  Once the record of a handle is deleted (in a tracker whose size fits
    a [size_t]), reading through the handle, copying or casting it,
    assigning from it and releasing it again all stop the program and leave
    the tracker as it was: dereferencing, following, [Raw()], indexing,
    [Cast()], [DynamicCast()], the conversion to a raw pointer, the copy and
    converting constructors, assignment from it (by copy, by move, by
    conversion), and [Delete()] or [DeleteArray()] a second time.  Not
    every use is refused: the move constructor takes its id and address
    without a check; and, while its count is positive, destroying it and
    copy-assigning an untracked handle to it both return and lower the
    count by one.  Once the count is zero, destroying it is refused as
    well. *)
Theorem deleted_record_blocks_handle
    (tr : PtrTracker) (p : Ptr.t) (r : PtrInfo.t)
    (Hsize : size_ok tr)
    (Hrec : vec_at (id_info tr) (Ptr.id p) = Some r)
    (Hdel : PtrInfo.status r = DELETED) :
  Ptr.deref p tr = Abort (AssertFail "Tracker().IsDeleted(id) == false") tr /\
  Ptr.arrow p tr = Abort (AssertFail "Tracker().IsDeleted(id) == false") tr /\
  Ptr.Raw p tr = Abort (AssertFail "Do not convert deleted Ptr to raw.") tr /\
  (forall sz pos,
     Ptr.index sz p pos tr = Abort (AssertFail "Tracker().IsDeleted(id) == false") tr) /\
  (forall cast,
     Handle.Cast cast p tr = Abort (AssertFail "Do not cast deleted pointers.") tr /\
     Handle.DynamicCast true cast p tr
     = Abort (AssertFail "Do not cast deleted pointers.") tr) /\
  Handle.to_raw p tr = Abort (AssertFail "Tracker().IsDeleted(id) == false") tr /\
  Ptr.CopyCtor p tr = Abort (AssertFail "Incrementing deleted pointer!") tr /\
  (forall conv,
     Handle.ConvertCtor conv p tr = Abort (AssertFail "Incrementing deleted pointer!") tr) /\
  (forall d, Ptr.assign_copy d p tr
             = Abort (AssertFail "Do not copy deleted pointers.") tr) /\
  (forall d, Ptr.assign_move d p tr
             = Abort (AssertFail "Do not move deleted pointers.") tr) /\
  (forall conv d, Handle.assign_convert conv d p tr
             = Abort (AssertFail "Incrementing deleted pointer!") tr) /\
  (exists e, Ptr.Delete p tr = Abort e tr) /\
  (exists e, Ptr.DeleteArray p tr = Abort e tr) /\
  Ptr.MoveCtor p tr
  = Ok (Ptr.Build (Ptr.ptr p) (Ptr.id p), Ptr.Build (Ptr.ptr p) UNTRACKED) tr /\
  ((0 < PtrInfo.count r <= INT_MAX)%Z ->
   let r' := PtrInfo.Build (PtrInfo.ptr r) (PtrInfo.count r - 1) (PtrInfo.status r)
               (PtrInfo.array_bytes r) in
   Ptr.Dtor p tr = Ok tt (upd tr (Ptr.id p) r') /\
   forall s, Ptr.id s = UNTRACKED ->
     Ptr.assign_copy p s tr = Ok (Ptr.Build (Ptr.ptr s) UNTRACKED) (upd tr (Ptr.id p) r')) /\
  ((PtrInfo.count r <= 0)%Z ->
   Ptr.Dtor p tr = Abort (AssertFail "Decrementing Ptr, but already zero!") tr).
Proof.
  pose proof (in_range_not_untracked _ _ _ Hsize Hrec) as Hne.
  assert (Hact : PtrInfo.IsActive r = false) by by apply IsActive_false.
  pose proof (IsDeleted_run _ _ _ Hne Hrec) as HD. rewrite Hact in HD. simpl in HD.
  pose proof (IncID_deleted _ _ _ Hne Hrec Hdel) as HI.
  repeat match goal with |- _ /\ _ => split end.
  - unfold Ptr.deref, bind. by rewrite HD.
  - unfold Ptr.arrow, bind. by rewrite HD.
  - unfold Ptr.Raw, bind. by rewrite HD.
  - intros sz pos. unfold Ptr.index, bind. by rewrite HD.
  - intros cast. split.
    + unfold Handle.Cast, bind. by rewrite HD.
    + unfold Handle.DynamicCast, bind, emp_assert. by rewrite HD.
  - unfold Handle.to_raw, bind. by rewrite HD.
  - unfold Ptr.CopyCtor, bind. by rewrite HI.
  - intros conv. unfold Handle.ConvertCtor, Ptr.CopyCtor, bind. by rewrite HI.
  - intros d. unfold Ptr.assign_copy, bind. by rewrite HD.
  - intros d. unfold Ptr.assign_move, bind. by rewrite HD.
  - intros conv d. unfold Handle.assign_convert, Ptr.CopyCtor, bind. by rewrite HI.
  - destruct (Ptr.Delete p tr) as [[] tr'|e tr'] eqn:H.
    + apply Delete_Ok in H as (_ & r0 & Hr0 & Hs & _). congruence.
    + pose proof (Delete_Abort _ _ _ _ H) as ->. eauto.
  - destruct (Ptr.DeleteArray p tr) as [[] tr'|e tr'] eqn:H.
    + apply DeleteArray_Ok in H as (_ & r0 & Hr0 & Hs & _). congruence.
    + pose proof (DeleteArray_Abort _ _ _ _ H) as ->. eauto.
  - done.
  - intros Hc r'.
    assert (Hdec : Tracker.DecID (Ptr.id p) tr = Ok tt (upd tr (Ptr.id p) r')).
    { rewrite (DecID_run _ _ r) by (try done; try lia; by right).
      by rewrite bump_small by (unfold INT_MIN, INT_MAX in *; lia). }
    split; [exact Hdec|].
    intros s Hs. unfold Ptr.assign_copy, bind, Tracker.IsDeleted, Tracker.IncID.
    rewrite Hs. cbn [N.eqb Pos.eqb UNTRACKED ret emp_assert negb].
    apply N.eqb_neq in Hne. rewrite Hne. cbn [negb]. by rewrite Hdec.
  - intros Hc. unfold Ptr.Dtor, Tracker.DecID. apply N.eqb_neq in Hne. rewrite Hne.
    unfold bind, info_at, emp_assert, PtrInfo.GetCount. rewrite Hrec.
    apply Z.ltb_ge in Hc. by rewrite Hc.
Qed.

Lemma deleted_record_blocks_handle_witness :
  Ptr.deref (Ptr.Build 256 0)
    {| ptr_id := {[ 256 := 0 ]}; id_info := [PtrInfo.Build 256 2 DELETED 0] |}
  = Abort (AssertFail "Tracker().IsDeleted(id) == false")
      {| ptr_id := {[ 256 := 0 ]}; id_info := [PtrInfo.Build 256 2 DELETED 0] |}.
Proof.
  refine (proj1 (deleted_record_blocks_handle
            {| ptr_id := {[ 256 := 0 ]}; id_info := [PtrInfo.Build 256 2 DELETED 0] |}
            (Ptr.Build 256 0) (PtrInfo.Build 256 2 DELETED 0) _ _ _)).
  - unfold size_ok, UNTRACKED. simpl. lia.
  - reflexivity.
  - reflexivity.
Defined.

(** X7.  [operator*] returns the address exactly when it is not null and
    the handle is untracked or its record is active; [Raw()] returns it
    under the same condition without the null test; the conversion
    [operator TYPE *()] returns it exactly for an untracked handle, so a
    tracked handle never converts silently.  [operator->] returns exactly
    when [operator*] does, with the same address.  None of them changes the
    tracker, returning or not. *)
Theorem access_checks (p : Ptr.t) (tr : PtrTracker) :
  (forall a tr', Ptr.deref p tr = Ok a tr' <->
     tr' = tr /\ a = Ptr.ptr p /\ Ptr.ptr p <> 0 /\
     (Ptr.id p = UNTRACKED \/
      exists r, vec_at (id_info tr) (Ptr.id p) = Some r /\ PtrInfo.IsActive r = true)) /\
  (forall a tr', Ptr.Raw p tr = Ok a tr' <->
     tr' = tr /\ a = Ptr.ptr p /\
     (Ptr.id p = UNTRACKED \/
      exists r, vec_at (id_info tr) (Ptr.id p) = Some r /\ PtrInfo.IsActive r = true)) /\
  (forall a tr', Handle.to_raw p tr = Ok a tr' <->
     tr' = tr /\ a = Ptr.ptr p /\ Ptr.id p = UNTRACKED) /\
  (forall e tr', Ptr.deref p tr = Abort e tr' \/ Ptr.Raw p tr = Abort e tr' \/
                 Handle.to_raw p tr = Abort e tr' -> tr' = tr) /\
  (forall a tr', Ptr.arrow p tr = Ok a tr' <-> Ptr.deref p tr = Ok a tr') /\
  (forall e tr', Ptr.arrow p tr = Abort e tr' -> tr' = tr).
Proof.
  assert (Hdel : forall b tr', Tracker.IsDeleted (Ptr.id p) tr = Ok b tr' ->
            tr' = tr /\
            (b = false <->
             (Ptr.id p = UNTRACKED \/
              exists r, vec_at (id_info tr) (Ptr.id p) = Some r /\
                        PtrInfo.IsActive r = true))).
  { intros b tr' H. apply IsDeleted_Ok in H as [-> [[Hu ->]|[Hne (r & Hr & ->)]]].
    - split; [done|]. split; [by left|done].
    - split; [done|]. split.
      + intros Hb. right. exists r. split; [done|]. by destruct (PtrInfo.IsActive r).
      + intros [?|(r0 & Hr0 & Ha)]; [done|]. rewrite Hr in Hr0. injection Hr0 as <-.
        by rewrite Ha. }
  assert (Hrun : forall P, P ->
            (Ptr.id p = UNTRACKED \/
             exists r, vec_at (id_info tr) (Ptr.id p) = Some r /\
                       PtrInfo.IsActive r = true) ->
            Tracker.IsDeleted (Ptr.id p) tr = Ok false tr).
  { intros _ _ Hc. apply IsDeleted_Ok. split; [done|].
    destruct (decide (Ptr.id p = UNTRACKED)) as [Hu|Hne]; [by left|right].
    split; [done|]. destruct Hc as [?|(r & Hr & Ha)]; [done|]. exists r. by rewrite Ha. }
  split; [|split; [|split; [|split; [|split]]]].
  - intros a tr'. unfold Ptr.deref. split.
    + intros H. inv_run. destruct (Hdel _ _ Hrun0) as [-> Hb].
      match goal with H : negb (Ptr.ptr p =? 0) = true |- _ =>
        apply negb_true_iff, N.eqb_neq in H end.
      repeat split; try done. apply Hb.
      match goal with H : negb ?b = true |- _ => by destruct b end.
    + intros (-> & -> & Hp & Hc). apply N.eqb_neq in Hp.
      unfold bind. rewrite (Hrun True I Hc). unfold emp_assert. simpl. by rewrite Hp.
  - intros a tr'. unfold Ptr.Raw. split.
    + intros H. inv_run. destruct (Hdel _ _ Hrun0) as [-> Hb].
      repeat split; try done. apply Hb.
      match goal with H : negb ?b = true |- _ => by destruct b end.
    + intros (-> & -> & Hc). unfold bind. by rewrite (Hrun True I Hc).
  - intros a tr'. unfold Handle.to_raw. split.
    + intros H. inv_run. destruct (Hdel _ _ Hrun0) as [-> Hb].
      match goal with H : (Ptr.id p =? UNTRACKED) = true |- _ => apply N.eqb_eq in H end.
      done.
    + intros (-> & -> & Hu). unfold bind.
      rewrite (Hrun True I (or_introl Hu)). unfold emp_assert. simpl.
      apply N.eqb_eq in Hu. by rewrite Hu.
  - intros e tr'. unfold Ptr.deref, Ptr.Raw, Handle.to_raw, bind, Tracker.IsDeleted, bind,
      info_at, emp_assert, ret.
    intros [H|[H|H]]; revert H; abort_same.
  - intros a tr'. unfold Ptr.arrow, Ptr.deref, bind, emp_assert.
    destruct (Tracker.IsDeleted (Ptr.id p) tr) as [[] t|e t]; cbn [negb]; try done.
    by destruct (negb (Ptr.ptr p =? 0)).
  - intros e tr'. unfold Ptr.arrow, bind, Tracker.IsDeleted, bind, info_at, emp_assert, ret.
    abort_same.
Qed.

Lemma access_checks_witness :
  Ptr.deref (Ptr.Build 256 UNTRACKED) Tracker.empty = Ok 256 Tracker.empty.
Proof.
  apply (proj1 (access_checks (Ptr.Build 256 UNTRACKED) Tracker.empty)).
  split; [reflexivity|]. split; [reflexivity|]. split; [discriminate|]. by left.
Defined.

(** ** Casts and conversions *)

Lemma upd_upd tr i a b : upd (upd tr i a) i b = upd tr i b.
Proof.
  unfold upd. simpl. f_equal. rewrite !vec_set_insert. apply list_insert_insert_eq.
Qed.

Lemma upd_comm tr i j a b : i <> j -> upd (upd tr i a) j b = upd (upd tr j b) i a.
Proof.
  intros Hne. unfold upd. simpl. f_equal. rewrite !vec_set_insert.
  apply list_insert_insert_ne. lia.
Qed.

Lemma upd_at tr i r a : vec_at (id_info tr) i = Some r -> vec_at (id_info (upd tr i a)) i = Some a.
Proof. intros Hr. simpl. apply vec_at_set_eq. by eapply vec_at_lt. Qed.

Lemma upd_at_ne tr i j a : i <> j -> vec_at (id_info (upd tr i a)) j = vec_at (id_info tr) j.
Proof. intros Hne. simpl. by apply vec_at_set_ne. Qed.

Lemma bump_bump r a b : bump (bump r a) b = bump r (a + b).
Proof.
  unfold bump. cbn [PtrInfo.ptr PtrInfo.count PtrInfo.status PtrInfo.array_bytes].
  f_equal. rewrite int_wrap_add. f_equal. lia.
Qed.

(** X8.  What a cast links to.  [Cast()] hands the address that the C-style
    cast yields to the raw-pointer constructor.  In a well-formed tracker
    whose size fits a [size_t], for a handle whose record is active and is
    about the handle's address (with a count below [INT_MAX]): when the cast
    leaves the address as it is, the result has the same id and the count
    of the record is raised by one, as by the copy constructor; when the
    cast moves the address to one that is not active, the result is an
    untracked handle at the new address and the tracker is unchanged, so
    the record is not linked.  Casting an untracked handle to an address
    that is not active gives an untracked handle.  [DynamicCast] does the
    same when the dynamic cast is possible and fails at once when it is
    not. *)
Theorem Cast_shares_record (cast : N -> N) (tr : PtrTracker) (p : Ptr.t) :
  (forall r,
     wf_tracker tr -> size_ok tr ->
     vec_at (id_info tr) (Ptr.id p) = Some r ->
     PtrInfo.ptr r = Ptr.ptr p -> PtrInfo.IsActive r = true ->
     (INT_MIN <= PtrInfo.count r < INT_MAX)%Z ->
     (cast (Ptr.ptr p) = Ptr.ptr p ->
      Handle.Cast cast p tr
      = Ok (Ptr.Build (Ptr.ptr p) (Ptr.id p))
           (upd tr (Ptr.id p)
              (PtrInfo.Build (PtrInfo.ptr r) (PtrInfo.count r + 1) (PtrInfo.status r)
                 (PtrInfo.array_bytes r))) /\
      Handle.Cast cast p tr = Ptr.CopyCtor p tr) /\
     (Tracker.IsActive (cast (Ptr.ptr p)) tr = Ok false tr ->
      Handle.Cast cast p tr = Ok (Ptr.Build (cast (Ptr.ptr p)) UNTRACKED) tr)) /\
  (Ptr.id p = UNTRACKED -> Tracker.IsActive (cast (Ptr.ptr p)) tr = Ok false tr ->
   Handle.Cast cast p tr = Ok (Ptr.Build (cast (Ptr.ptr p)) UNTRACKED) tr) /\
  Handle.DynamicCast true cast p tr = Handle.Cast cast p tr /\
  Handle.DynamicCast false cast p tr
  = Abort (AssertFail "dynamic_cast<T2*>(ptr) != nullptr") tr.
Proof.
  split; [|split; [|split]]; [| |done|done].
  - intros r Hwf Hsz Hr Hptr Ha Hc.
    pose proof (in_range_not_untracked _ _ _ Hsz Hr) as Hne.
    pose proof (IsDeleted_run _ _ _ Hne Hr) as HD. rewrite Ha in HD. simpl in HD.
    assert (Hs : PtrInfo.status r <> DELETED) by by apply IsActive_true.
    split.
    + intros Hsame.
      pose proof (FromRaw_record tr _ r false Hwf Hsz Hr Hs) as Hf.
      rewrite Hptr in Hf. rewrite bump_small in Hf by lia.
      assert (Hcast : Handle.Cast cast p tr
                = Ok (Ptr.Build (Ptr.ptr p) (Ptr.id p))
                     (upd tr (Ptr.id p)
                        (PtrInfo.Build (PtrInfo.ptr r) (PtrInfo.count r + 1)
                           (PtrInfo.status r) (PtrInfo.array_bytes r)))).
      { unfold Handle.Cast. unfold bind at 1. rewrite HD. unfold bind at 1.
        unfold emp_assert at 1. cbn [negb]. by rewrite Hsame. }
      split; [done|]. rewrite Hcast. unfold Ptr.CopyCtor, bind.
      rewrite (IncID_run _ _ r) by done. by rewrite bump_small by lia.
    + intros Hoff. unfold Handle.Cast. unfold bind at 1. rewrite HD. unfold bind at 1.
      unfold emp_assert at 1. cbn [negb]. unfold Ptr.FromRaw, bind. by rewrite Hoff.
  - intros Hu Hact. unfold Handle.Cast, Ptr.FromRaw, bind. rewrite Hu. simpl.
    by rewrite Hact.
Qed.

Lemma Cast_shares_record_witness :
  Handle.Cast (fun a => a) (Ptr.Build 256 0) (push Tracker.empty 256)
  = Ok (Ptr.Build 256 0)
       (upd (push Tracker.empty 256) 0 (PtrInfo.Build 256 (1 + 1) ACTIVE 0)) /\
  Handle.Cast (fun a => a + 8) (Ptr.Build 256 0) (push Tracker.empty 256)
  = Ok (Ptr.Build 264 UNTRACKED) (push Tracker.empty 256).
Proof.
  assert (Hwf : wf_tracker (push Tracker.empty 256)).
  { eapply prim_wf; [|apply empty_wf]. apply prim_new; [done|].
    intros i Hi. simpl in Hi. by rewrite lookup_empty in Hi. }
  assert (Hsz : size_ok (push Tracker.empty 256))
    by (unfold size_ok, UNTRACKED; simpl; lia).
  split.
  - apply (proj1 (proj1 (Cast_shares_record (fun a => a) (push Tracker.empty 256)
                           (Ptr.Build 256 0))
                    (PtrInfo.New 256) Hwf Hsz eq_refl eq_refl eq_refl
                    ltac:(unfold INT_MIN, INT_MAX; simpl; lia)) eq_refl).
  - apply (proj2 (proj1 (Cast_shares_record (fun a => a + 8) (push Tracker.empty 256)
                           (Ptr.Build 256 0))
                    (PtrInfo.New 256) Hwf Hsz eq_refl eq_refl eq_refl
                    ltac:(unfold INT_MIN, INT_MAX; simpl; lia)) eq_refl).
Defined.

(** X9.  The converting constructor against the copy constructor.  Where
    the record of the source, if it has one, has a count from [0] to
    [INT_MAX - 2], constructing a handle from a handle of a convertible
    type returns exactly when the copy constructor returns, with the same
    tracker: the extra increment for the by-value parameter is undone when
    the parameter goes away.  The new handle has the id of the source and
    the converted address. *)
Theorem ConvertCtor_as_copy (conv : N -> N) (tr : PtrTracker) (s : Ptr.t)
    (Hcount : forall r, vec_at (id_info tr) (Ptr.id s) = Some r ->
                (0 <= PtrInfo.count r < INT_MAX - 1)%Z) :
  forall p tr',
    Handle.ConvertCtor conv s tr = Ok p tr' <->
    p = Ptr.Build (conv (Ptr.ptr s)) (Ptr.id s) /\
    Ptr.CopyCtor s tr = Ok (Ptr.Build (Ptr.ptr s) (Ptr.id s)) tr'.
Proof.
  intros p tr'.
  destruct (decide (Ptr.id s = UNTRACKED)) as [Hu|Hne].
  { unfold Handle.ConvertCtor, Ptr.CopyCtor, Ptr.Raw, Ptr.Dtor, Ptr.GetID, bind.
    rewrite Hu. simpl. split; [by intros [= <- <-]|by intros [-> [= <-]]]. }
  destruct (vec_at (id_info tr) (Ptr.id s)) as [r|] eqn:Hr.
  2:{ assert (Hc : forall q t, Ptr.CopyCtor s tr <> Ok q t).
      { intros q t H. apply CopyCtor_Ok in H as [_ H].
        apply IncID_Ok in H as [[? _]|(_ & r0 & _ & Hr0 & _)]; congruence. }
      split.
      - intros H. unfold Handle.ConvertCtor in H. apply bind_Ok in H as (q & t & H & _).
        by apply Hc in H.
      - intros [_ H]. by apply Hc in H. }
  destruct (PtrInfo.IsActive r) eqn:Hd;
    [apply IsActive_true in Hd|apply IsActive_false in Hd].
  2:{ pose proof (IncID_deleted _ _ _ Hne Hr Hd) as HI.
      unfold Handle.ConvertCtor, Ptr.CopyCtor, bind. rewrite HI.
      split; [done|by intros [_ ?]]. }
  set (i := Ptr.id s) in *.
  pose proof (Hcount r eq_refl) as Hc0. unfold INT_MAX in Hc0.
  pose proof (IncID_run _ _ _ Hne Hr Hd) as H1.
  assert (Hcopy : Ptr.CopyCtor s tr = Ok (Ptr.Build (Ptr.ptr s) i) (upd tr i (bump r 1))).
  { unfold Ptr.CopyCtor, bind. fold i. by rewrite H1. }
  assert (Hr1 : vec_at (id_info (upd tr i (bump r 1))) i = Some (bump r 1))
    by by eapply upd_at.
  assert (HD : Tracker.IsDeleted i (upd tr i (bump r 1)) = Ok false (upd tr i (bump r 1))).
  { rewrite (IsDeleted_run _ _ _ Hne Hr1). f_equal.
    apply negb_false_iff, IsActive_true. done. }
  pose proof (IncID_run _ _ _ Hne Hr1 Hd) as H2. rewrite upd_upd, bump_bump in H2.
  assert (Hr2 : vec_at (id_info (upd tr i (bump r (1 + 1)))) i = Some (bump r (1 + 1)))
    by by eapply upd_at.
  assert (Hc2 : PtrInfo.count (bump r (1 + 1)) = (PtrInfo.count r + 2)%Z).
  { simpl. apply int_wrap_small. unfold INT_MIN, INT_MAX. lia. }
  assert (H3 : Tracker.DecID i (upd tr i (bump r (1 + 1))) = Ok tt (upd tr i (bump r 1))).
  { rewrite (DecID_run _ _ _ Hne Hr2); [|rewrite Hc2; lia|left; rewrite Hc2; lia].
    rewrite upd_upd, bump_bump. done. }
  assert (Hconv : Handle.ConvertCtor conv s tr
                  = Ok (Ptr.Build (conv (Ptr.ptr s)) i) (upd tr i (bump r 1))).
  { unfold Handle.ConvertCtor. unfold bind at 1. rewrite Hcopy.
    unfold Ptr.Raw, Ptr.GetID, Ptr.Dtor. cbn [Ptr.id Ptr.ptr].
    unfold bind, emp_assert, ret. rewrite HD. cbn [negb]. rewrite HD. cbn [negb].
    rewrite H2, H3. done. }
  rewrite Hconv, Hcopy. split; [by intros [= <- <-]|by intros [-> [= <-]]].
Qed.

Lemma ConvertCtor_as_copy_witness :
  Handle.ConvertCtor (fun a => a + 8) (Ptr.Build 256 0) (push Tracker.empty 256)
  = Ok (Ptr.Build 264 0) (upd (push Tracker.empty 256) 0 (bump (PtrInfo.New 256) 1)).
Proof.
  apply (ConvertCtor_as_copy (fun a => a + 8) (push Tracker.empty 256) (Ptr.Build 256 0)).
  - intros r Hr. vm_compute in Hr. injection Hr as <-.
    unfold INT_MAX. simpl. lia.
  - split; reflexivity.
Defined.

(** ** Programs that never ask for tracking *)

Lemma all_untracked_app hs p :
  all_untracked hs -> Ptr.id p = UNTRACKED -> all_untracked (hs ++ [Some p]).
Proof.
  intros Ha Hp h q Hh. apply lookup_app_Some in Hh as [Hh|[_ Hh]]; [by eapply Ha|].
  destruct (h - length hs)%nat; [|done]. simpl in Hh. by injection Hh as <-.
Qed.

Lemma all_untracked_insert hs k o :
  all_untracked hs -> (forall p, o = Some p -> Ptr.id p = UNTRACKED) ->
  all_untracked (<[k := o]> hs).
Proof.
  intros Ha Ho h q Hh. apply list_lookup_insert_Some in Hh as [(-> & Heq & _)|[_ Hh]].
  - by apply Ho.
  - by eapply Ha.
Qed.

Lemma untracking_step op tr hs :
  untracking op = true -> quiet tr -> all_untracked hs ->
  match step op (mkWorld tr hs) with
  | Next w' => tracker w' = tr /\ all_untracked (handles w')
  | Stop _ _ => False
  | NoHandle => True
  end.
Proof.
  intros Hop Hq Ha.
  assert (Hid : forall h s, handle_at (mkWorld tr hs) h = Some s -> Ptr.id s = UNTRACKED).
  { intros h s Hh. apply handle_at_Some in Hh. by eapply Ha. }
  destruct op; try discriminate Hop; unfold step, with_handle; cbn [handles].
  - (* OpDefault *)
    unfold lift, ret. simpl. split; [done|]. by apply all_untracked_app.
  - (* OpCopy *)
    destruct (handle_at _ src) as [s|] eqn:Hs; [|done]. pose proof (Hid _ _ Hs) as Hu.
    unfold lift, Ptr.CopyCtor, bind. cbn [tracker]. rewrite Hu. simpl.
    split; [done|]. by apply all_untracked_app.
  - (* OpMove *)
    destruct (handle_at _ src) as [s|] eqn:Hs; [|done]. pose proof (Hid _ _ Hs) as Hu.
    unfold lift, Ptr.MoveCtor, ret. simpl. split; [done|].
    apply all_untracked_app; [|done]. apply all_untracked_insert; [done|].
    by intros ? [= <-].
  - (* OpFromRaw *)
    simpl in Hop. apply negb_true_iff in Hop. subst track.
    unfold lift, Ptr.FromRaw, bind. cbn [tracker]. rewrite (Hq p). simpl.
    split; [done|]. by apply all_untracked_app.
  - (* OpFromArray *)
    simpl in Hop. apply negb_true_iff in Hop. subst track.
    unfold lift, Ptr.FromArray, bind. cbn [tracker]. rewrite (Hq p). simpl.
    split; [done|]. by apply all_untracked_app.
  - (* OpDtor *)
    destruct (handle_at _ h) as [s|] eqn:Hs; [|done]. pose proof (Hid _ _ Hs) as Hu.
    unfold lift, Ptr.Dtor. cbn [tracker]. rewrite Hu. simpl.
    split; [done|]. apply all_untracked_insert; [done|]. by intros ? [=].
  - (* OpAssignCopy *)
    destruct (handle_at _ dst) as [d|] eqn:Hd; [|done]. pose proof (Hid _ _ Hd) as Hud.
    destruct (handle_at _ src) as [s|] eqn:Hs; [|done]. pose proof (Hid _ _ Hs) as Hus.
    unfold lift, Ptr.assign_copy, bind. cbn [tracker]. rewrite Hud, Hus. simpl.
    split; [done|]. apply all_untracked_insert; [done|]. by intros ? [= <-].
  - (* OpAssignMove *)
    destruct (handle_at _ dst) as [d|] eqn:Hd; [|done]. pose proof (Hid _ _ Hd) as Hud.
    destruct (handle_at _ src) as [s|] eqn:Hs; [|done]. pose proof (Hid _ _ Hs) as Hus.
    unfold lift, Ptr.assign_move, bind. cbn [tracker]. rewrite Hud, Hus. simpl.
    split; [done|]. apply all_untracked_insert.
    + apply all_untracked_insert; [done|]. by intros ? [= <-].
    + by intros ? [= <-].
  - (* OpAssignRaw *)
    destruct (handle_at _ dst) as [d|] eqn:Hd; [|done]. pose proof (Hid _ _ Hd) as Hud.
    unfold lift, Ptr.assign_raw, bind. cbn [tracker]. rewrite Hud. simpl.
    rewrite (Hq p). simpl.
    split; [done|]. apply all_untracked_insert; [done|]. by intros ? [= <-].
Qed.

(** X10.  A program that only builds, copies, moves, assigns and destroys
    handles without ever asking for tracking, started where no address is
    active and every live handle is untracked, never stops on an assertion
    and never touches the tracker: it ends with the tracker it started with
    and with untracked handles only.  In particular, from a fresh tracker no
    record is ever created. *)
Theorem untracked_programs :
  (forall ops w,
     forallb untracking ops = true -> quiet (tracker w) -> all_untracked (handles w) ->
     match run ops w with
     | Next w' => tracker w' = tracker w /\ all_untracked (handles w')
     | Stop _ _ => False
     | NoHandle => True
     end) /\
  (forall ops,
     forallb untracking ops = true ->
     match run ops start with
     | Next w' => tracker w' = Tracker.empty
     | Stop _ _ => False
     | NoHandle => True
     end).
Proof.
  assert (Hgen : forall ops w,
     forallb untracking ops = true -> quiet (tracker w) -> all_untracked (handles w) ->
     match run ops w with
     | Next w' => tracker w' = tracker w /\ all_untracked (handles w')
     | Stop _ _ => False
     | NoHandle => True
     end).
  { induction ops as [|op ops IH]; intros w Hops Hq Ha; [done|].
    simpl in Hops. apply andb_true_iff in Hops as [Hop Hops].
    destruct w as [tr hs]. cbn [run].
    pose proof (untracking_step op tr hs Hop Hq Ha) as Hs.
    destruct (step op (mkWorld tr hs)) as [w1| |]; [|done|done].
    destruct Hs as [Ht Ha1]. simpl in *.
    specialize (IH w1 Hops). rewrite Ht in IH. specialize (IH Hq Ha1).
    destruct (run ops w1); [|done|done]. destruct IH as [-> ?]. done. }
  split; [exact Hgen|].
  intros ops Hops.
  assert (Hq : quiet (tracker start)) by (intros p; reflexivity).
  assert (Ha : all_untracked (handles start)) by (intros h p Hh; done).
  pose proof (Hgen ops start Hops Hq Ha) as H.
  destruct (run ops start); [|done|done]. by destruct H.
Qed.

Lemma untracked_programs_witness :
  match run [OpFromRaw 256 false; OpFromRaw 512 false; OpAssignCopy 0 1; OpCopy 0;
             OpMove 1; OpAssignRaw 2 0; OpDtor 0] start with
  | Next w' => tracker w' = Tracker.empty
  | Stop _ _ => False
  | NoHandle => True
  end.
Proof. apply (proj2 untracked_programs). reflexivity. Defined.

(** ** The life of one allocation *)

Lemma DecID_last i tr r :
  i <> UNTRACKED -> vec_at (id_info tr) i = Some r ->
  PtrInfo.count r = 1%Z -> PtrInfo.status r <> DELETED ->
  Tracker.DecID i tr = Abort (AssertFail "Removing last reference to owned Ptr!") tr.
Proof.
  intros Hne Hr Hc Hs. unfold Tracker.DecID. apply N.eqb_neq in Hne. rewrite Hne.
  unfold bind, info_at, emp_assert, info_call, PtrInfo.GetCount. rewrite Hr, Hc.
  cbn [Z.ltb Z.compare]. cbv iota. rewrite Hr. unfold PtrInfo.Dec. rewrite Hc.
  destruct (PtrInfo.status r); done.
Qed.

Lemma NewPtr_fresh tr mem track :
  mem <> 0 -> size_ok tr -> Tracker.IsActive mem tr = Ok false tr ->
  Ptr.FromRaw mem track tr
  = if track then Ok (Ptr.Build mem (N.of_nat (length (id_info tr)))) (push tr mem)
    else Ok (Ptr.Build mem UNTRACKED) tr.
Proof.
  intros Hm Hsz Hact. unfold Ptr.FromRaw. unfold bind at 1. rewrite Hact.
  destruct track; [|done].
  assert (HN : Tracker.New mem tr = Ok (N.of_nat (length (id_info tr))) (push tr mem)).
  { apply New_Ok. split; [done|]. split; [|done]. intros j Hj.
    apply IsActive_Ok in Hact as [_ [[Hnone _]|(j' & r & Hj' & Hr & Ha)]]; [congruence|].
    rewrite Hj in Hj'. injection Hj' as <-. split; [by eapply in_range_not_untracked|].
    exists r. by rewrite Ha. }
  unfold bind. by rewrite HN.
Qed.

(** X11.  The life of a scalar allocation.  Where [mem] is not null and not
    active (and the tracker has room for one more id), [NewPtr] registers it
    under the next id with count [1]; the handle can then be dereferenced;
    destroying it at that point is refused, because it is the last
    reference to memory that was not released; [Delete()] succeeds, after
    which dereferencing is refused and destroying the handle is allowed.  At
    the end the tracker has gained exactly one record, deleted and with
    count [0], and [mem] is not active, so it can be registered again. *)
Theorem scalar_lifecycle (tr : PtrTracker) (mem : N)
    (Hmem : mem <> 0) (Hsize : size_ok (push tr mem))
    (Hfree : Tracker.IsActive mem tr = Ok false tr) :
  let i := N.of_nat (length (id_info tr)) in
  let q := Ptr.Build mem i in
  let tr1 := push tr mem in
  let tr2 := upd tr1 i (PtrInfo.Build mem 1 DELETED 0) in
  let tr3 := upd tr1 i (PtrInfo.Build mem 0 DELETED 0) in
  NewPtr mem tr = Ok q tr1 /\
  Ptr.deref q tr1 = Ok mem tr1 /\
  Ptr.Dtor q tr1 = Abort (AssertFail "Removing last reference to owned Ptr!") tr1 /\
  Ptr.Delete q tr1 = Ok tt tr2 /\
  Ptr.deref q tr2 = Abort (AssertFail "Tracker().IsDeleted(id) == false") tr2 /\
  Ptr.Dtor q tr2 = Ok tt tr3 /\
  id_info tr3 = id_info tr ++ [PtrInfo.Build mem 0 DELETED 0] /\
  Tracker.IsActive mem tr3 = Ok false tr3.
Proof.
  intros i q tr1 tr2 tr3.
  assert (Hsz0 : size_ok tr).
  { unfold size_ok in *. simpl in Hsize. rewrite length_app in Hsize. simpl in Hsize. lia. }
  assert (Hr1 : vec_at (id_info tr1) i = Some (PtrInfo.New mem)) by apply push_at_new.
  pose proof (in_range_not_untracked _ _ _ Hsize Hr1) as Hne.
  assert (Hr2 : vec_at (id_info tr2) i = Some (PtrInfo.Build mem 1 DELETED 0))
    by by eapply upd_at.
  assert (Hsz2 : size_ok tr2).
  { unfold size_ok, tr2. simpl. by rewrite vec_set_length. }
  assert (Hne0 : (i =? UNTRACKED) = false) by by apply N.eqb_neq.
  assert (Hm0 : (mem =? 0) = false) by by apply N.eqb_neq.
  subst q.
  split; [|split; [|split; [|split; [|split; [|split; [|split]]]]]].
  - unfold NewPtr. by rewrite (NewPtr_fresh tr mem true).
  - unfold Ptr.deref, bind. cbn [Ptr.id Ptr.ptr]. rewrite (IsDeleted_run _ _ _ Hne Hr1).
    unfold emp_assert. simpl. by rewrite Hm0.
  - unfold Ptr.Dtor. cbn [Ptr.id]. by apply (DecID_last _ _ (PtrInfo.New mem)).
  - apply Delete_Ok. split; [done|]. exists (PtrInfo.New mem). done.
  - unfold Ptr.deref, bind. cbn [Ptr.id Ptr.ptr]. by rewrite (IsDeleted_run _ _ _ Hne Hr2).
  - unfold Ptr.Dtor. cbn [Ptr.id].
    rewrite (DecID_run _ _ _ Hne Hr2); [|simpl; lia|by right].
    unfold tr2. by rewrite upd_upd.
  - unfold tr3, tr1. simpl. rewrite vec_set_insert. unfold i. rewrite Nat2N.id.
    rewrite insert_app_r_alt by lia. by rewrite Nat.sub_diag.
  - apply IsActive_Ok. split; [done|]. right. exists i, (PtrInfo.Build mem 0 DELETED 0).
    split; [apply lookup_insert_eq|]. split; [by eapply upd_at|done].
Qed.

Lemma scalar_lifecycle_witness :
  NewPtr 256 Tracker.empty = Ok (Ptr.Build 256 0) (push Tracker.empty 256).
Proof.
  refine (proj1 (scalar_lifecycle Tracker.empty 256 _ _ _)).
  - discriminate.
  - unfold size_ok, UNTRACKED. simpl. lia.
  - reflexivity.
Defined.

Lemma index_run sz q pos tr r :
  Ptr.id q <> UNTRACKED -> vec_at (id_info tr) (Ptr.id q) = Some r ->
  PtrInfo.status r = ARRAY -> Ptr.ptr q <> 0 ->
  Ptr.index sz q pos tr
  = if size_t_mul pos sz <? PtrInfo.array_bytes r then Ok tt tr
    else Abort (AssertFail "Indexing out of range.") tr.
Proof.
  intros Hne Hr Hs Hp. unfold Ptr.index. unfold bind at 1.
  rewrite (IsDeleted_run _ _ _ Hne Hr).
  assert (Ha : PtrInfo.IsActive r = true) by (apply IsActive_true; by rewrite Hs).
  rewrite Ha. cbn [negb].
  unfold bind, emp_assert, Tracker.IsArrayID, Tracker.GetArrayBytes, bind, info_at, ret.
  rewrite Hr. unfold PtrInfo.IsArray. rewrite Hs. cbn [PtrStatus_eqb]. rewrite Hr.
  unfold PtrInfo.GetArrayBytes. apply N.eqb_neq in Hp.
  destruct (_ <? _); [|done]. by rewrite Hp.
Qed.

(** X12.  The life of an array allocation.  Where [mem] is not null and not
    active, the element size is positive and the byte size [n * sizeof(T)]
    fits a [size_t], [NewArrayPtr] registers an array record of that many
    bytes under the next id.  Through the returned handle every position
    below [n] can be indexed, and every position from [n] on whose byte
    offset does not wrap is refused as out of range.  The scalar [Delete()]
    is refused, [DeleteArray()] succeeds. *)
Theorem array_lifecycle (tr : PtrTracker) (sz mem n : N)
    (Hmem : mem <> 0) (Hsize : size_ok (push tr mem))
    (Hfree : Tracker.IsActive mem tr = Ok false tr)
    (Hsz : 0 < sz) (Hfit : n * sz < 2 ^ 64) :
  let i := N.of_nat (length (id_info tr)) in
  let q := Ptr.Build mem i in
  let tr1 := upd (push tr mem) i (PtrInfo.Build mem 1 ARRAY (n * sz)) in
  NewArrayPtr sz mem n tr = Ok q tr1 /\
  (forall pos, pos < n -> Ptr.index sz q pos tr1 = Ok tt tr1) /\
  (forall pos, n <= pos -> pos * sz < 2 ^ 64 ->
     Ptr.index sz q pos tr1 = Abort (AssertFail "Indexing out of range.") tr1) /\
  Ptr.Delete q tr1
  = Abort (AssertFail "Trying to delete array pointer as non-array.") tr1 /\
  Ptr.DeleteArray q tr1 = Ok tt (upd tr1 i (PtrInfo.Build mem 1 DELETED (n * sz))).
Proof.
  intros i q tr1. subst q.
  assert (Hsz0 : size_ok tr).
  { unfold size_ok in *. simpl in Hsize. rewrite length_app in Hsize. simpl in Hsize. lia. }
  assert (Hpush : vec_at (id_info (push tr mem)) i = Some (PtrInfo.New mem))
    by apply push_at_new.
  pose proof (in_range_not_untracked _ _ _ Hsize Hpush) as Hne.
  assert (Hr1 : vec_at (id_info tr1) i = Some (PtrInfo.Build mem 1 ARRAY (n * sz)))
    by by eapply upd_at.
  assert (Hmul : size_t_mul n sz = n * sz) by (unfold size_t_mul; by apply N.mod_small).
  split; [|split; [|split; [|split]]].
  - unfold NewArrayPtr, Ptr.FromArray. unfold bind at 1. rewrite Hfree.
    assert (HN : Tracker.NewArray mem (size_t_mul n sz) tr = Ok i tr1).
    { apply NewArray_Ok. split; [done|]. split; [|by rewrite Hmul].
      intros j Hj.
      apply IsActive_Ok in Hfree as [_ [[Hnone _]|(j' & r & Hj' & Hr & Ha)]]; [congruence|].
      rewrite Hj in Hj'. injection Hj' as <-. split; [by eapply in_range_not_untracked|].
      exists r. by rewrite Ha. }
    unfold bind. by rewrite HN.
  - intros pos Hpos.
    rewrite (index_run sz (Ptr.Build mem i) pos tr1 _ Hne Hr1) by done.
    cbn [PtrInfo.array_bytes].
    assert (Hlt : pos * sz < n * sz) by (apply N.mul_lt_mono_pos_r; lia).
    unfold size_t_mul. rewrite N.mod_small by lia.
    apply N.ltb_lt in Hlt. by rewrite Hlt.
  - intros pos Hpos Hnw.
    rewrite (index_run sz (Ptr.Build mem i) pos tr1 _ Hne Hr1) by done.
    cbn [PtrInfo.array_bytes].
    assert (Hge : n * sz <= pos * sz) by (apply N.mul_le_mono_r; lia).
    unfold size_t_mul. rewrite N.mod_small by lia.
    apply N.ltb_ge in Hge. by rewrite Hge.
  - unfold Ptr.Delete, bind, Tracker.GetNumIDs, emp_assert, Tracker.IsArrayID, bind,
      info_at, ret. cbn [Ptr.id Ptr.ptr].
    pose proof (vec_at_lt _ _ _ Hr1) as Hlt. apply N.ltb_lt in Hlt. rewrite Hlt.
    apply N.eqb_neq in Hmem. rewrite Hmem. cbn [negb]. by rewrite Hr1.
  - apply DeleteArray_Ok. split; [done|]. eexists. split; [exact Hr1|]. split; [done|].
    done.
Qed.

Lemma array_lifecycle_witness :
  NewArrayPtr 4 256 3 Tracker.empty
  = Ok (Ptr.Build 256 0)
       (upd (push Tracker.empty 256) 0 (PtrInfo.Build 256 1 ARRAY (3 * 4))).
Proof.
  refine (proj1 (array_lifecycle Tracker.empty 4 256 3 _ _ _ _ _)).
  - discriminate.
  - unfold size_ok, UNTRACKED. simpl. lia.
  - reflexivity.
  - lia.
  - reflexivity.
Defined.

(** X13.  Constructing an array handle from an address whose current record
    is active (in a tracker whose size fits a [size_t], the count being
    below [INT_MAX]) links to that record and raises its count by one
    first, and only then compares the record's byte size with
    [array_size * sizeof(T2)] as a [size_t] product: when they agree the
    handle is returned, and when they differ the program stops with that
    count already raised.  The [track] argument plays no part. *)
Theorem FromArray_alias_size (tr : PtrTracker) (sz a n : N) (track : bool)
    (i : N) (r : PtrInfo.t)
    (Hsize : size_ok tr)
    (Hcur : ptr_id tr !! a = Some i)
    (Hrec : vec_at (id_info tr) i = Some r)
    (Hact : PtrInfo.status r <> DELETED)
    (Hcount : (INT_MIN <= PtrInfo.count r < INT_MAX)%Z) :
  let r1 := PtrInfo.Build (PtrInfo.ptr r) (PtrInfo.count r + 1) (PtrInfo.status r)
              (PtrInfo.array_bytes r) in
  Ptr.FromArray sz a n track tr
  = if PtrInfo.array_bytes r =? size_t_mul n sz
    then Ok (Ptr.Build a i) (upd tr i r1)
    else Abort (AssertFail "Tracker().GetArrayBytes(id) == array_bytes") (upd tr i r1).
Proof.
  intros r1.
  pose proof (in_range_not_untracked _ _ _ Hsize Hrec) as Hne.
  assert (Ha : PtrInfo.IsActive r = true) by by apply IsActive_true.
  assert (Hactive : Tracker.IsActive a tr = Ok true tr).
  { apply IsActive_Ok. split; [done|]. right. exists i, r. by rewrite Ha. }
  assert (Hid : Tracker.GetCurID a tr = Ok i tr) by by apply GetCurID_Ok.
  pose proof (IncID_run _ _ _ Hne Hrec Hact) as Hinc.
  rewrite bump_small in Hinc by lia. fold r1 in Hinc.
  assert (Hr1 : vec_at (id_info (upd tr i r1)) i = Some r1) by by eapply upd_at.
  unfold Ptr.FromArray. unfold bind at 1. rewrite Hactive.
  unfold bind, Tracker.GetArrayBytes, bind, info_at, emp_assert, ret.
  rewrite Hid, Hinc, Hr1. unfold r1. cbn [PtrInfo.GetArrayBytes PtrInfo.array_bytes].
  by destruct (_ =? _).
Qed.

Lemma FromArray_alias_size_witness :
  Ptr.FromArray 4 256 2 false (push Tracker.empty 256)
  = Abort (AssertFail "Tracker().GetArrayBytes(id) == array_bytes")
      (upd (push Tracker.empty 256) 0 (PtrInfo.Build 256 (1 + 1) ACTIVE 0)).
Proof.
  apply (FromArray_alias_size (push Tracker.empty 256) 4 256 2 false 0 (PtrInfo.New 256)).
  - unfold size_ok, UNTRACKED. simpl. lia.
  - reflexivity.
  - reflexivity.
  - discriminate.
  - unfold INT_MIN, INT_MAX. simpl. lia.
Defined.

(** ** No handle left, no leak *)

Lemma refs_none hs i : (forall h, hs !! h <> Some None -> hs !! h = None) -> refs hs i = 0%Z.
Proof.
  intros Hnone. unfold refs. rewrite filter_none; [done|].
  intros o Ho. apply list_elem_of_lookup in Ho as [h Hh].
  destruct o as [p|]; [|done]. exfalso.
  assert (hs !! h = None) by (apply Hnone; congruence). congruence.
Qed.

(** X14.  In every state a program over handles reaches from the initial
    one (with a record count that fits a [size_t]), an active record is held
    by at least one live handle.  So when the program has destroyed all its
    handles no record is active any more, every count is zero, and the
    shutdown scan completes, reporting the number of records and [0]. *)
Theorem no_handle_no_leak (ops : list Op) (w : World)
    (Hrun : run ops start = Next w) (Hsize : size_ok (tracker w)) :
  (forall i r, vec_at (id_info (tracker w)) i = Some r ->
     PtrInfo.IsActive r = true -> (1 <= refs (handles w) i)%Z) /\
  ((forall h, handle_at w h = None) ->
   Tracker.Destroy (tracker w)
   = Ok (N.of_nat (length (id_info (tracker w))), 0) (tracker w)).
Proof.
  destruct (run_wf ops start w Hrun Hsize start_wf) as (_ & _ & Hb & Hheld).
  split.
  - intros i r Hr Ha. by eapply Hheld.
  - intros Hnone.
    assert (Hrefs : forall i, refs (handles w) i = 0%Z).
    { intros i. apply refs_none.
      intros h Hh. specialize (Hnone h). unfold handle_at in Hnone.
      destruct (handles w !! h) as [[p|]|]; congruence. }
    assert (Hall : forall r, r ∈ id_info (tracker w) ->
              PtrInfo.count r = 0%Z /\ PtrInfo.IsActive r = false).
    { intros r Hin. apply list_elem_of_lookup in Hin as [k Hk].
      assert (Hr : vec_at (id_info (tracker w)) (N.of_nat k) = Some r)
        by by rewrite vec_at_lookup, Nat2N.id.
      pose proof (vec_at_lt _ _ _ Hr) as Hlt.
      pose proof (Hb _ Hlt) as Hc. unfold count_at in Hc. rewrite Hr, Hrefs in Hc.
      split; [exact Hc|].
      destruct (PtrInfo.IsActive r) eqn:Ha; [|done].
      pose proof (Hheld _ _ Hr Ha) as H1. rewrite Hrefs in H1. lia. }
    rewrite Destroy_spec.
    assert (Hna : num_active (id_info (tracker w)) = 0).
    { unfold num_active. rewrite filter_none; [done|].
      intros r Hin. destruct (Hall r Hin) as [_ Ha]. congruence. }
    assert (Hnh : num_held (id_info (tracker w)) = 0).
    { unfold num_held. rewrite filter_none; [done|].
      intros r Hin. destruct (Hall r Hin) as [Hz _]. unfold PtrInfo.GetCount. congruence. }
    rewrite decide_True by done. by rewrite Hnh.
Qed.

Lemma no_handle_no_leak_witness :
  Tracker.Destroy {| ptr_id := {[ 256 := 0 ]}; id_info := [PtrInfo.Build 256 0 DELETED 0] |}
  = Ok (1, 0) {| ptr_id := {[ 256 := 0 ]}; id_info := [PtrInfo.Build 256 0 DELETED 0] |}.
Proof.
  refine (proj2 (no_handle_no_leak
            [OpFromRaw 256 true; OpCopy 0; OpDtor 0; OpDelete 1; OpDtor 1]
            {| tracker := {| ptr_id := {[ 256 := 0 ]};
                             id_info := [PtrInfo.Build 256 0 DELETED 0] |};
               handles := [None; None] |} _ _) _).
  - vm_compute. reflexivity.
  - unfold size_ok, UNTRACKED. simpl. lia.
  - intros [|[|h]]; reflexivity.
Defined.

(** ** The converting assignment *)

Lemma DecID_frame j i x tr :
  j <> i ->
  Tracker.DecID j (upd tr i x)
  = match Tracker.DecID j tr with
    | Ok u t => Ok u (upd t i x)
    | Abort e t => Abort e (upd t i x)
    end.
Proof.
  intros Hne. unfold Tracker.DecID. destruct (j =? UNTRACKED); [done|].
  unfold bind, info_at, emp_assert, info_call.
  rewrite upd_at_ne by done.
  destruct (vec_at (id_info tr) j) as [r|] eqn:Hr; [|done].
  destruct (0 <? _)%Z; [|done].
  rewrite upd_at_ne by done. rewrite Hr.
  destruct (PtrInfo.Dec r) as [r'|e]; [|done].
  f_equal. change (upd (upd tr i x) j r' = upd (upd tr j r') i x). by apply upd_comm.
Qed.

Lemma DecID_other j i tr u t :
  j <> i -> Tracker.DecID j tr = Ok u t -> vec_at (id_info t) i = vec_at (id_info tr) i.
Proof.
  intros Hne H. apply DecID_Ok in H as [[_ ->]|(_ & r & r' & _ & _ & _ & ->)]; [done|].
  by apply upd_at_ne.
Qed.

(** X15.  The converting assignment [operator=(Ptr<T2>)] against the copy
    assignment.  Where the record of the source, if it has one, has a count
    from [0] to [INT_MAX - 2] and the two handles have different ids, the
    converting assignment returns exactly when the copy assignment does,
    with the same tracker (the extra copy it takes of its argument is given
    back), the handle having the id of the source and the converted
    address.  It has no guard on equal ids, though: between two untracked
    handles it takes over the source's address, converted, and the tracker
    is untouched. *)
Theorem assign_convert_as_copy (conv : N -> N) (tr : PtrTracker) (d s : Ptr.t)
    (Hcount : forall r, vec_at (id_info tr) (Ptr.id s) = Some r ->
                (0 <= PtrInfo.count r < INT_MAX - 1)%Z) :
  (Ptr.id d <> Ptr.id s ->
   forall p tr',
     Handle.assign_convert conv d s tr = Ok p tr' <->
     p = Ptr.Build (conv (Ptr.ptr s)) (Ptr.id s) /\
     Ptr.assign_copy d s tr = Ok (Ptr.Build (Ptr.ptr s) (Ptr.id s)) tr') /\
  (Ptr.id d = UNTRACKED -> Ptr.id s = UNTRACKED ->
   Handle.assign_convert conv d s tr = Ok (Ptr.Build (conv (Ptr.ptr s)) UNTRACKED) tr).
Proof.
  split.
  2:{ intros Hd Hs. unfold Handle.assign_convert, Ptr.CopyCtor, Ptr.Raw, Ptr.Dtor,
        Ptr.GetID, bind. rewrite Hs, Hd. reflexivity. }
  intros Hds p tr'.
  assert (Hneb : negb (Ptr.id d =? Ptr.id s) = true)
    by by apply negb_true_iff, N.eqb_neq.
  destruct (decide (Ptr.id s = UNTRACKED)) as [Hu|Hne].
  { unfold Handle.assign_convert, Ptr.assign_copy, Ptr.CopyCtor, Ptr.Raw, Ptr.Dtor,
      Ptr.GetID, bind. rewrite Hneb. rewrite Hu. cbn.
    destruct (Tracker.DecID (Ptr.id d) tr); [|split; [done|by intros [_ ?]]].
    split; [by intros [= <- <-]|by intros [-> [= <-]]]. }
  destruct (vec_at (id_info tr) (Ptr.id s)) as [r|] eqn:Hr.
  2:{ split; [intros H|intros [_ H]]; exfalso.
      - unfold Handle.assign_convert in H. apply bind_Ok in H as (q & t & H & _).
        apply CopyCtor_Ok in H as [_ H].
        apply IncID_Ok in H as [[? _]|(_ & r0 & _ & Hr0 & _)]; congruence.
      - unfold Ptr.assign_copy in H. apply bind_Ok in H as (b & t & H & _).
        apply IsDeleted_Ok in H as [_ [[? _]|(_ & r0 & Hr0 & _)]]; congruence. }
  destruct (PtrInfo.IsActive r) eqn:Ha.
  2:{ apply IsActive_false in Ha.
      pose proof (IncID_deleted _ _ _ Hne Hr Ha) as HI.
      pose proof (IsDeleted_run _ _ _ Hne Hr) as HD.
      assert (Hact : PtrInfo.IsActive r = false) by by apply IsActive_false.
      rewrite Hact in HD.
      unfold Handle.assign_convert, Ptr.assign_copy, Ptr.CopyCtor, bind.
      rewrite HI, HD. split; [done|by intros [_ ?]]. }
  pose proof Ha as Hd. apply IsActive_true in Hd.
  set (i := Ptr.id s) in *.
  pose proof (Hcount r eq_refl) as Hc0. unfold INT_MAX in Hc0.
  pose proof (IncID_run _ _ _ Hne Hr Hd) as H1.
  pose proof (IsDeleted_run _ _ _ Hne Hr) as HD0. rewrite Ha in HD0. cbn [negb] in HD0.
  assert (Hr1 : vec_at (id_info (upd tr i (bump r 1))) i = Some (bump r 1))
    by by eapply upd_at.
  assert (Hact : forall c, PtrInfo.IsActive (bump r c) = true)
    by (intros c; by apply IsActive_true).
  pose proof (IsDeleted_run _ _ _ Hne Hr1) as HD. rewrite Hact in HD. cbn [negb] in HD.
  pose proof (DecID_frame (Ptr.id d) i (bump r 1) tr Hds) as HF.
  assert (Hcopy : Ptr.assign_copy d s tr
                  = match Tracker.DecID (Ptr.id d) tr with
                    | Ok _ t => Ok (Ptr.Build (Ptr.ptr s) i) (upd t i (bump r 1))
                    | Abort e t => Abort e t
                    end).
  { unfold Ptr.assign_copy. fold i. rewrite Hneb. unfold bind, emp_assert, ret.
    rewrite HD0. cbn [negb].
    destruct (Tracker.DecID (Ptr.id d) tr) as [u t|e t] eqn:HDec; [|done].
    pose proof (DecID_other _ i _ _ _ Hds HDec) as Ht. rewrite Hr in Ht.
    by rewrite (IncID_run _ _ _ Hne Ht Hd). }
  assert (Hconv : Handle.assign_convert conv d s tr
                  = match Tracker.DecID (Ptr.id d) tr with
                    | Ok _ t => Ok (Ptr.Build (conv (Ptr.ptr s)) i) (upd t i (bump r 1))
                    | Abort e t => Abort e (upd t i (bump r 1))
                    end).
  { unfold Handle.assign_convert, Ptr.CopyCtor. fold i. unfold bind at 1.
    unfold bind at 1. rewrite H1. unfold ret at 1.
    unfold Ptr.Raw, Ptr.GetID, Ptr.Dtor. cbn [Ptr.id Ptr.ptr].
    unfold bind, emp_assert, ret. rewrite HD. cbn [negb]. rewrite HD. cbn [negb].
    rewrite HF.
    destruct (Tracker.DecID (Ptr.id d) tr) as [u t|e t] eqn:HDec; [|done].
    pose proof (DecID_other _ i _ _ _ Hds HDec) as Ht. rewrite Hr in Ht.
    assert (Ht1 : vec_at (id_info (upd t i (bump r 1))) i = Some (bump r 1))
      by by eapply upd_at.
    pose proof (IsDeleted_run _ _ _ Hne Ht1) as HDt. rewrite Hact in HDt.
    cbn [negb] in HDt. rewrite HDt. cbn [negb].
    pose proof (IncID_run _ _ _ Hne Ht1 Hd) as H2. rewrite upd_upd, bump_bump in H2.
    rewrite H2.
    assert (Ht2 : vec_at (id_info (upd t i (bump r (1 + 1)))) i = Some (bump r (1 + 1)))
      by by eapply upd_at.
    assert (Hc2 : PtrInfo.count (bump r (1 + 1)) = (PtrInfo.count r + 2)%Z).
    { simpl. apply int_wrap_small. unfold INT_MIN, INT_MAX. lia. }
    rewrite (DecID_run _ _ _ Hne Ht2); [|rewrite Hc2; lia|left; rewrite Hc2; lia].
    by rewrite upd_upd, bump_bump. }
  rewrite Hconv, Hcopy.
  destruct (Tracker.DecID (Ptr.id d) tr); [|split; [done|by intros [_ ?]]].
  split; [by intros [= <- <-]|by intros [-> [= <-]]].
Qed.

Lemma assign_convert_as_copy_witness :
  Handle.assign_convert (fun a => a + 8) (Ptr.Build 16 UNTRACKED) (Ptr.Build 32 UNTRACKED)
    Tracker.empty
  = Ok (Ptr.Build 40 UNTRACKED) Tracker.empty.
Proof.
  apply (assign_convert_as_copy (fun a => a + 8) Tracker.empty
           (Ptr.Build 16 UNTRACKED) (Ptr.Build 32 UNTRACKED)).
  - intros r Hr. vm_compute in Hr. discriminate.
  - reflexivity.
  - reflexivity.
Defined.
